(** * TStarBot1: the Monte-Carlo actor-learner agent (agents/mc_agent.py)

    A shallow embedding of [actor_worker] and of the [MCAgent] methods the
    training pipeline is built from, and the properties of the written
    specification that concern them.

    Conventions.
    - Python exceptions are values of [exn]; a call that may raise returns a
      [result].
    - Python [float]s are IEEE binary64 numbers, Rocq's primitive [float].
      The return accumulation of the actor worker is written once over an
      arithmetic interface [Arith], so that it can be run on binary64 (the
      program) and on exact rationals (the arithmetic the specification's
      closed formula is written in).
    - Shared cells and queues are passed explicitly; random draws, clock
      readings and the opaque collaborators (environment, value network) are
      inputs of the functions that use them.
    - Loops that do not terminate in the source ([while True]) take the
      number of iterations to run. *)

From Stdlib Require Import String Floats.
From Stdlib Require Import ZArith Znumtheory QArith List Permutation Lia Bool.
Import ListNotations.

Set Implicit Arguments.
Set Default Goal Selector "!".

(* ------------------------------------------------------------------ *)
(** ** Exceptions and fallible computations *)

Inductive exn : Type :=
| AssertionError
| IndexError
| ValueError
| ZeroDivisionError
| NotImplementedError
| OverflowError
| RuntimeError
| Fault (tag : nat).   (* anything raised by a collaborator (environment, network) *)

Inductive result (A : Type) : Type :=
| Ok (a : A)
| Raise (e : exn).

Arguments Ok {A} a.
Arguments Raise {A} e.

Definition rbind {A B} (r : result A) (k : A -> result B) : result B :=
  match r with
  | Ok a => k a
  | Raise e => Raise e
  end.

Declare Scope py_scope.
Delimit Scope py_scope with py.
Notation "x <- r ;; k" := (rbind r (fun x => k))
  (at level 61, r at next level, right associativity) : py_scope.
Notation "' p <- r ;; k" := (rbind r (fun x => match x with p => k end))
  (at level 61, p pattern, r at next level, right associativity) : py_scope.

Definition is_ok {A} (r : result A) : bool :=
  match r with Ok _ => true | Raise _ => false end.

(* ------------------------------------------------------------------ *)
(** ** Python sequences *)

(** [l[i]] for a Python list or tuple: negative indices count from the end,
    anything else out of range raises [IndexError]. *)
Definition py_index {A} (l : list A) (i : Z) : result A :=
  let n := Z.of_nat (length l) in
  let j := (if i <? 0 then i + n else i)%Z in
  if ((0 <=? j) && (j <? n))%Z
  then match nth_error l (Z.to_nat j) with
       | Some x => Ok x
       | None => Raise IndexError
       end
  else Raise IndexError.

(** [a % b] on Python integers (the sign follows the divisor). *)
Definition py_mod (a b : Z) : result Z :=
  if (b =? 0)%Z then Raise ZeroDivisionError else Ok (a mod b)%Z.

(* ------------------------------------------------------------------ *)
(** ** collections.deque with a maximum length *)

Record deque (A : Type) : Type := mkDeque {
  items : list A;
  maxlen : nat
}.

(** [deque(maxlen=n)]: a negative bound is refused. *)
Definition deque_new (A : Type) (n : Z) : result (deque A) :=
  if (n <? 0)%Z then Raise ValueError else Ok (mkDeque (@nil A) (Z.to_nat n)).

(** [d.append(x)]: the item is added on the right; a deque that has grown
    past its bound drops its leftmost item. *)
Definition deque_append {A} (d : deque A) (x : A) : deque A :=
  let l := items d ++ [x] in
  mkDeque (if (maxlen d <? length l)%nat then tl l else l) (maxlen d).

Definition deque_clear {A} (d : deque A) : deque A := mkDeque [] (maxlen d).

Definition deque_len {A} (d : deque A) : nat := length (items d).

Definition deque_extend {A} (d : deque A) (xs : list A) : deque A :=
  fold_left deque_append xs d.

(** A deque is well formed when it respects its bound. *)
Definition deque_wf {A} (d : deque A) : Prop := (deque_len d <= maxlen d)%nat.

(** [lastn n l]: the [n] most recent entries of [l], oldest first. *)
Definition lastn {A} (n : nat) (l : list A) : list A :=
  skipn (length l - n) l.

(* ------------------------------------------------------------------ *)
(** ** Arithmetic of returns *)

(** The operations the return accumulation uses.  The program runs it on
    binary64; the closed formula of the specification is stated over exact
    arithmetic. *)
Class Arith (R : Type) : Type := {
  zero : R;
  add : R -> R -> R;
  mul : R -> R -> R
}.

#[export] Instance float_Arith : Arith float :=
  {| zero := 0%float; add := PrimFloat.add; mul := PrimFloat.mul |}.

#[export] Instance Q_Arith : Arith Q :=
  {| zero := 0%Q; add := Qplus; mul := Qmult |}.

(* ------------------------------------------------------------------ *)
(** ** Observations, action spaces and action selection *)

(** A numeric array.  The program inspects array entries in one place only:
    the action mask is compared with zero. *)
Definition ndarray : Type := list Z.

(** An observation as the environments deliver it: a tuple of arrays.  (The
    branch of [act] for an observation that is a single bare array differs
    in the tensor conversion only, which is not represented.) *)
Definition observation : Type := list ndarray.

(** What the value network is called on: a tuple of arrays, or the array
    itself when the tuple has a single component. *)
Inductive net_input : Type :=
| Single (a : ndarray)
| Multi (t : list ndarray).

(** The action space handed over by the environment: gym's [Discrete], the
    repository's [MaskDiscrete], or something else. *)
Inductive action_space : Type :=
| Discrete (n : nat)
| MaskDiscrete (n : nat)
| OtherSpace.

Definition is_MaskDiscrete (s : action_space) : bool :=
  match s with MaskDiscrete _ => true | _ => false end.

(** gym's [Discrete.sample()]: a uniform draw from [0, n). *)
Definition Discrete_sample (s : action_space) (draw : nat) : result nat :=
  match s with
  | Discrete 0 | MaskDiscrete 0 => Raise ValueError
  | Discrete n | MaskDiscrete n => Ok (draw mod n)%nat
  | OtherSpace => Raise NotImplementedError
  end.

(** Modelled from the spec: [MaskDiscrete.sample(availables)] lives in
    envs/space.py, which is not among the sources.  The specification has
    it "sample uniformly from the valid action set": one of the given
    actions is returned, the one the (uniform) draw points at; there is
    nothing to return when no action is given. *)
Definition MaskDiscrete_sample (availables : list nat) (draw : nat) : result nat :=
  match availables with
  | [] => Raise ValueError
  | a :: _ => Ok (nth (draw mod length availables) availables a)
  end.

(** [observation[-1]], [observation[:-1]] and the unwrapping of a tuple left
    with one component. *)
Definition preprocess_observation (space : action_space) (obs : observation)
  : result (net_input * option ndarray) :=
  if is_MaskDiscrete space then
    (action_mask <- py_index obs (-1) ;;
     let obs := removelast obs in
     Ok (match obs with
         | [a] => Single a          (* len(observation) == 1: observation[0] *)
         | _ => Multi obs
         end, Some action_mask))%py
  else
    Ok (Multi obs, None).

(** What is left of an observation once its last component is taken off,
    as the network receives it. *)
Definition model_input (features : list ndarray) : net_input :=
  match features with
  | [a] => Single a
  | _ => Multi features
  end.

(** An action the mask allows: its entry is there and is not zero. *)
Definition valid_action (action_mask : ndarray) (a : nat) : Prop :=
  exists m, nth_error action_mask a = Some m /\ m <> 0%Z.

(** [np.nonzero(action_mask)[0]]: the positions of the nonzero entries, in
    increasing order. *)
Definition np_nonzero (m : ndarray) : list nat :=
  filter (fun i => negb (nth i m 0 =? 0)%Z) (seq 0 (length m)).

(** [q[action_mask == 0] = float('-inf')] for a mask that has the shape of
    the row of action values.  What the tensor library does with a mask of
    another shape is not fixed by this program: the model has it raise, and
    no statement below rests on that branch. *)
Definition mask_fill (q : list float) (action_mask : ndarray) : result (list float) :=
  if (length q =? length action_mask)%nat then
    Ok (map (fun qm => if (snd qm =? 0)%Z then neg_infinity else fst qm)
            (combine q action_mask))
  else Raise IndexError.

(** [q.data.max(1)[1][0]]: the position of the largest entry of the row, the
    first one among equals.  What the tensor library does with a row
    without entries is not fixed by this program: the model has it raise,
    and no statement below rests on that branch. *)
Fixpoint argmax_from (best : nat) (best_value : float) (i : nat) (l : list float) : nat :=
  match l with
  | [] => best
  | x :: l' =>
      if (best_value <? x)%float then argmax_from i x (S i) l'
      else argmax_from best best_value (S i) l'
  end.

Definition argmax (q : list float) : result nat :=
  match q with
  | [] => Raise RuntimeError
  | x :: l => Ok (argmax_from 0 x 1 l)
  end.

(** The value network, an opaque collaborator: a row of action values for
    an input, or a fault. *)
Definition network : Type := net_input -> result (list float).

(** [act(observation, eps)], the same code in [actor_worker] and in
    [MCAgent]; [u] is the outcome of [random.uniform(0, 1)] and [draw] the
    one of the sampler. *)
Definition act (space : action_space) (q_network : network)
    (obs : observation) (eps u : float) (draw : nat) : result nat :=
  (if (eps <=? u)%float then
     ' (input, action_mask) <- preprocess_observation space obs ;;
     q <- q_network input ;;
     q <- match action_mask with
          | Some m => mask_fill q m
          | None => Ok q
          end ;;
     argmax q
   else
     ' (_, action_mask) <- preprocess_observation space obs ;;
     match action_mask with
     | Some m => MaskDiscrete_sample (np_nonzero m) draw
     | None => Discrete_sample space draw
     end)%py.

(* ------------------------------------------------------------------ *)
(** ** The actor worker *)

(** What a run of a non-terminating loop has come to after the iterations
    it was given: it went through them all, it was ended by an exception,
    or an inner loop was still going when its step budget ran out. *)
Inductive outcome (X : Type) : Type :=
| Done (x : X)
| Raised (e : exn)
| Running.

Arguments Done {X} x.
Arguments Raised {X} e.
Arguments Running {X}.

(** Events written so far, and how the computation stands. *)
Definition W (E X : Type) : Type := (list E * outcome X)%type.

Definition wret {E X} (x : X) : W E X := ([], Done x).

Definition wbind {E X Y} (m : W E X) (k : X -> W E Y) : W E Y :=
  match m with
  | (evs, Done x) => let (evs', o) := k x in (evs ++ evs', o)
  | (evs, Raised e) => (evs, Raised e)
  | (evs, Running) => (evs, Running)
  end.

Definition emit {E} (ev : E) : W E unit := ([ev], Done tt).

Definition call {E X} (r : result X) : W E X :=
  match r with
  | Ok x => ([], Done x)
  | Raise e => ([], Raised e)
  end.

Declare Scope trace_scope.
Delimit Scope trace_scope with trace.
Notation "x <- m ;; k" := (wbind m (fun x => k))
  (at level 61, m at next level, right associativity) : trace_scope.
Notation "' p <- m ;; k" := (wbind m (fun x => match x with p => k end))
  (at level 61, p pattern, m at next level, right associativity) : trace_scope.

Section Worker.

Variable D : Type.                 (* difficulty levels *)
Variable R : Type.                 (* rewards and returns *)
Context {arith : Arith R}.

(** A step of a trajectory and what leaves the worker. *)
Definition step_record : Type := (observation * nat * R)%type.

Inductive event : Type :=
| LogSeed (random_seed : Z)
| EnvCreated (cur_difficulty : D) (random_seed : Z)
| TransitionPut (obs : observation) (action : nat) (cum_return : R)
| OutcomePut (cum_return : R)
| EnvClosed
| LogEpisode (pid : Z) (episode_id : Z) (n_frames : Z) (cur_difficulty : D)
             (eps : float) (cum_return : R).

(** The environment, an opaque collaborator with a state of its own. *)
Record environment : Type := {
  env_state : Type;
  env_create_fn : D -> Z -> result env_state;
  env_reset : env_state -> result (env_state * observation);
  env_step : env_state -> nat -> result (env_state * (observation * R * bool));
  env_close : env_state -> result unit
}.

(** What the worker reads from outside while it runs, by episode (counted
    from 0) and by step within the episode. *)
Record world : Type := {
  clock_ms : nat -> Z;              (* int(time.time() * 1000) *)
  difficulty_idx : nat -> Z;        (* cur_difficulty_idx.value *)
  choice_draw : nat -> nat;         (* the draw of random.choice *)
  eps_read : nat -> nat -> float;   (* current_eps.value before a step *)
  eps_logged : nat -> float;        (* current_eps.value in the summary *)
  uniform_draw : nat -> nat -> float;
  sample_draw : nat -> nat -> nat
}.

(** [random.choice(seq)]. *)
Definition random_choice {A} (l : list A) (draw : nat) : result A :=
  match l with
  | [] => Raise IndexError
  | a :: _ => Ok (nth (draw mod length l) l a)
  end.

Variable env : environment.
Variable q_network : network.
Variable difficulties : list D.
Variable discount : R.
Variable action_space_ : action_space.
Variable use_curriculum : bool.
Variable w : world.
Variable pid : Z.

Local Open Scope trace_scope.

(** [while not done: ...], with a budget of steps. *)
Fixpoint run_steps (fuel : nat) (k j : nat) (s : env_state env)
    (obs : observation) (transitions : list step_record)
  : W event (env_state env * list step_record) :=
  match fuel with
  | O => ([], Running)
  | S fuel' =>
      action <- call (act action_space_ q_network obs
                        (eps_read w k j) (uniform_draw w k j) (sample_draw w k j)) ;;
      ' (s', (next_observation, reward, done)) <- call (env_step env s action) ;;
      let transitions := transitions ++ [(obs, action, reward)] in
      if (done : bool) then wret (s', transitions)
      else run_steps fuel' k (S j) s' next_observation transitions
  end.

(** [for observation, action, reward in reversed(transitions): ...]. *)
Definition label_step (acc : list event * R) (tr : step_record) : list event * R :=
  let '(obs, action, reward) := tr in
  let cum_return := add (mul (snd acc) discount) reward in
  (fst acc ++ [TransitionPut obs action cum_return], cum_return).

Definition label_returns (transitions : list step_record) : list event * R :=
  fold_left label_step (rev transitions) ([], zero).

(** The reward recorded at a step. *)
Definition reward_of (tr : step_record) : R := snd tr.

(** The accumulated return of a trajectory suffix, last reward first. *)
Fixpoint backward_return (rewards : list R) : R :=
  match rewards with
  | [] => zero
  | r :: rest => add (mul (backward_return rest) discount) r
  end.

(** The transitions of a trajectory with their labels, in time order. *)
Fixpoint labelled (transitions : list step_record) : list event :=
  match transitions with
  | [] => []
  | tr :: rest =>
      TransitionPut (fst (fst tr)) (snd (fst tr))
                    (backward_return (map reward_of (tr :: rest)))
      :: labelled rest
  end.

(** The body of [while True]: the episode number [k] (from 0). *)
Definition run_episode (fuel : nat) (k : nat) : W event unit :=
  let episode_id := Z.of_nat (S k) in
  let random_seed := Z.land (pid * 11111111 + clock_ms w k) 0xFFFFFFFF in
  _ <- emit (LogSeed random_seed) ;;
  cur_difficulty <- call (if use_curriculum
                          then py_index difficulties (difficulty_idx w k)
                          else random_choice difficulties (choice_draw w k)) ;;
  s <- call (env_create_fn env cur_difficulty random_seed) ;;
  _ <- emit (EnvCreated cur_difficulty random_seed) ;;
  ' (s, obs) <- call (env_reset env s) ;;
  ' (s, transitions) <- run_steps fuel k 0 s obs [] ;;
  let (puts, cum_return) := label_returns transitions in
  _ <- ((puts, Done tt) : W event unit) ;;
  _ <- emit (OutcomePut cum_return) ;;
  _ <- call (env_close env s) ;;
  _ <- emit EnvClosed ;;
  emit (LogEpisode pid episode_id (Z.of_nat (length transitions)) cur_difficulty
          (eps_logged w k) cum_return).

(** [actor_worker]: the first [n] rounds of its loop, from episode [k]. *)
Fixpoint actor_worker_from (fuel : nat) (k : nat) (n : nat) : W event unit :=
  match n with
  | O => wret tt
  | S n' => _ <- run_episode fuel k ;; actor_worker_from fuel (S k) n'
  end.

Definition actor_worker (fuel : nat) (n : nat) : W event unit :=
  actor_worker_from fuel 0 n.

End Worker.

(** *** Returns, as the specification writes them *)

(** [gamma ^ k]. *)
Fixpoint Qpow (gamma : Q) (k : nat) : Q :=
  match k with
  | O => 1
  | S k' => gamma * Qpow gamma k'
  end.

(** [f 0 + f 1 + ... + f (n - 1)]. *)
Definition Qsum (f : nat -> Q) (n : nat) : Q :=
  fold_right Qplus 0 (map f (seq 0 n)).

(** The discounted reward-to-go at time [t] of a trajectory with rewards
    [r_0 .. r_(T-1)]: the sum over [k] from 0 to [T - 1 - t] of
    [gamma ^ k * r_(t + k)]. *)
Definition reward_to_go (gamma : Q) (rewards : list Q) (t : nat) : Q :=
  Qsum (fun k => Qpow gamma k * nth (t + k) rewards 0) (length rewards - t).

(* ------------------------------------------------------------------ *)
(** ** Numbers crossing between [int] and [float] *)

Set Warnings "-inexact-float".

(** An [int] operand of a float operation (exact below 2^53 in magnitude,
    which step counts, sizes and lengths are). *)
Definition float_of_Z (z : Z) : float :=
  if (z <? 0)%Z then (- of_uint63 (Uint63.of_Z (- z)))%float
  else of_uint63 (Uint63.of_Z z).

(** [int(x)]: truncation toward zero; infinities and NaN are refused. *)
Definition py_int (x : float) : result Z :=
  match Prim2SF x with
  | S754_zero _ => Ok 0%Z
  | S754_finite s m e =>
      let a := (if 0 <=? e then Z.shiftl (Zpos m) e else Z.shiftr (Zpos m) (- e))%Z in
      Ok (if s then - a else a)%Z
  | S754_infinity _ => Raise OverflowError
  | S754_nan => Raise ValueError
  end.

(** [x / y] with a float involved: a zero divisor raises. *)
Definition py_truediv (x y : float) : result float :=
  if (y =? 0)%float then Raise ZeroDivisionError else Ok (x / y)%float.

(** A [multiprocessing.Value('i', ...)] holds a C int: what is stored is
    reduced to 32 bits, two's complement. *)
Definition c_int (z : Z) : Z := ((z + 2 ^ 31) mod 2 ^ 32 - 2 ^ 31)%Z.

(** [sum(xs)] of floats, from the integer 0, left to right. *)
Definition py_sum (xs : list float) : float := fold_left PrimFloat.add xs 0%float.

(* ------------------------------------------------------------------ *)
(** ** random.sample *)

Definition list_set {A} (l : list A) (j : nat) (x : A) : list A :=
  firstn j l ++ match skipn j l with [] => [] | _ :: r => x :: r end.

(** The positions [random.sample] selects: [k] draws from a pool of positions
    from which each selected one is removed (its slot is refilled with the
    pool's last entry). *)
Fixpoint sample_positions (pool : list nat) (k : nat) (draw : nat -> nat) (i : nat)
  : list nat :=
  match k with
  | O => []
  | S k' =>
      let j := (draw i mod length pool)%nat in
      nth j pool 0%nat ::
      sample_positions (removelast (list_set pool j (last pool 0%nat))) k' draw (S i)
  end.

(** [random.sample(population, k)]: a sample larger than the population, or
    of negative size, raises [ValueError]. *)
Definition random_sample {A} (population : list A) (k : Z) (draw : nat -> nat)
  : result (list A) :=
  let n := length population in
  if ((k <? 0) || (Z.of_nat n <? k))%Z then Raise ValueError
  else
    Ok (flat_map (fun p => match nth_error population p with
                           | Some x => [x]
                           | None => []
                           end)
                 (sample_positions (seq 0 n) (Z.to_nat k) draw 0)).

(* ------------------------------------------------------------------ *)
(** ** MCAgent *)

Module MCAgent.

Section Agent.

Variable D : Type.   (* difficulty levels *)

(** The arguments of the constructor the modelled methods depend on.
    [init_model_path] is left at its default [None], [save_model_dir] is
    present or not. *)
Record config : Type := {
  action_space_arg : action_space;
  optimizer_type : string;
  batch_size : Z;
  discount : float;
  eps_method : string;
  eps_start : float;
  eps_end : float;
  eps_decay : Z;
  eps_decay2 : Z;
  memory_size : Z;
  init_memory_size : Z;
  frame_step_ratio : float;
  target_update_freq : Z;
  winning_rate_threshold : float;
  difficulties : list D;
  loss_type : string;
  save_model_dir : bool;
  save_model_freq : Z;
  print_freq : Z
}.

(** The attributes of [self].  The last three are written after
    construction: by [learn] the first, by the curriculum update the other
    two. *)
Record agent : Type := {
  _batch_size : Z;
  _discount : float;
  _eps_method : string;
  _eps_start : float;
  _eps_end : float;
  _eps_decay : Z;
  _eps_decay2 : Z;
  _frame_step_ratio : float;
  _target_update_freq : Z;
  _save_model_dir : bool;
  _save_model_freq : Z;
  _action_space : action_space;
  _memory_size : Z;
  _init_memory_size : Z;
  _loss_type : string;
  _print_freq : Z;
  _num_threads : Z;
  _winning_rate_threshold : float;
  _difficulties : list D;
  _optimizer : string;
  _current_eps : float;
  _cur_difficulty_idx : Z;
  _recent_outcomes : deque float
}.

Definition known_optimizer (name : string) : bool :=
  ((name =? "rmsprop") || (name =? "adam") || (name =? "sgd"))%string.

(** The attributes the constructor sets. *)
Definition attributes (c : config) : agent :=
  {| _batch_size := batch_size c;
     _discount := discount c;
     _eps_method := eps_method c;
     _eps_start := eps_start c;
     _eps_end := eps_end c;
     _eps_decay := eps_decay c;
     _eps_decay2 := eps_decay2 c;
     _frame_step_ratio := frame_step_ratio c;
     _target_update_freq := target_update_freq c;
     _save_model_dir := save_model_dir c;
     _save_model_freq := save_model_freq c;
     _action_space := action_space_arg c;
     _memory_size := memory_size c;
     _init_memory_size := Z.max (init_memory_size c) (batch_size c);
     _loss_type := loss_type c;
     _print_freq := print_freq c;
     _num_threads := 4;
     _winning_rate_threshold := winning_rate_threshold c;
     _difficulties := difficulties c;
     _optimizer := optimizer_type c;
     _current_eps := eps_start c;
     _cur_difficulty_idx := c_int 0;
     _recent_outcomes := mkDeque [] 1000 |}.

(** The constructor.  It checks the kind of the action space (the
    [assert]) and the optimizer name (the final [else: raise]); everything
    else is stored as given. *)
Definition __init__ (c : config) : result agent :=
  match action_space_arg c with
  | OtherSpace => Raise AssertionError
  | _ =>
      if known_optimizer (optimizer_type c) then Ok (attributes c)
      else Raise NotImplementedError
  end.

(** [_get_current_eps(steps)]; [math_exp] is the library's exponential. *)
Definition _get_current_eps (math_exp : float -> float) (self : agent) (steps : Z)
  : result float :=
  (if (_eps_method self =? "exponential")%string then
     x <- py_truediv (-1 * float_of_Z steps) (float_of_Z (_eps_decay self)) ;;
     Ok (_eps_end self + (_eps_start self - _eps_end self) * math_exp x)%float
   else if (_eps_method self =? "linear")%string then
     if (steps <? _eps_decay self)%Z then
       x <- py_truediv ((_eps_start self - _eps_end self) * float_of_Z steps)
                       (float_of_Z (_eps_decay self)) ;;
       Ok (_eps_start self - x)%float
     else if (steps <? _eps_decay2 self)%Z then
       x <- py_truediv ((_eps_end self - 0.01) * float_of_Z (steps - _eps_decay self))
                       (float_of_Z (_eps_decay2 self)) ;;
       Ok (_eps_end self - x)%float
     else Ok 0.01%float
   else Raise NotImplementedError)%py.

(** Assignments to the attributes that change after construction. *)
Definition set_current_eps (self : agent) (eps : float) : agent :=
  {| _batch_size := _batch_size self; _discount := _discount self;
     _eps_method := _eps_method self; _eps_start := _eps_start self;
     _eps_end := _eps_end self; _eps_decay := _eps_decay self;
     _eps_decay2 := _eps_decay2 self;
     _frame_step_ratio := _frame_step_ratio self;
     _target_update_freq := _target_update_freq self;
     _save_model_dir := _save_model_dir self;
     _save_model_freq := _save_model_freq self;
     _action_space := _action_space self; _memory_size := _memory_size self;
     _init_memory_size := _init_memory_size self;
     _loss_type := _loss_type self; _print_freq := _print_freq self;
     _num_threads := _num_threads self;
     _winning_rate_threshold := _winning_rate_threshold self;
     _difficulties := _difficulties self; _optimizer := _optimizer self;
     _current_eps := eps;
     _cur_difficulty_idx := _cur_difficulty_idx self;
     _recent_outcomes := _recent_outcomes self |}.

Definition set_curriculum (self : agent) (idx : Z) (recent : deque float) : agent :=
  {| _batch_size := _batch_size self; _discount := _discount self;
     _eps_method := _eps_method self; _eps_start := _eps_start self;
     _eps_end := _eps_end self; _eps_decay := _eps_decay self;
     _eps_decay2 := _eps_decay2 self;
     _frame_step_ratio := _frame_step_ratio self;
     _target_update_freq := _target_update_freq self;
     _save_model_dir := _save_model_dir self;
     _save_model_freq := _save_model_freq self;
     _action_space := _action_space self; _memory_size := _memory_size self;
     _init_memory_size := _init_memory_size self;
     _loss_type := _loss_type self; _print_freq := _print_freq self;
     _num_threads := _num_threads self;
     _winning_rate_threshold := _winning_rate_threshold self;
     _difficulties := _difficulties self; _optimizer := _optimizer self;
     _current_eps := _current_eps self;
     _cur_difficulty_idx := idx;
     _recent_outcomes := recent |}.

(** The win rate of a window of outcomes, as the curriculum computes it:
    [(float(sum(recent)) / len(recent) + 1.0) / 2.0]. *)
Definition winning_rate_of (recent : deque float) : result float :=
  (mean <- py_truediv (py_sum (items recent))
                      (float_of_Z (Z.of_nat (deque_len recent))) ;;
   Ok ((mean + 1.0) / 2.0)%float)%py.

(** [_update_curriculum_difficulty()]; [outcome_queue] holds the entries
    the loop finds in the outcome channel, oldest first.  Attributes
    written before an exception stay written. *)
Definition _update_curriculum_difficulty (self : agent) (outcome_queue : list float)
  : agent * result unit :=
  let has_new_outcome := negb (Nat.eqb (length outcome_queue) 0) in
  let recent := deque_extend (_recent_outcomes self) outcome_queue in
  let self := set_curriculum self (_cur_difficulty_idx self) recent in
  if has_new_outcome && Nat.eqb (deque_len recent) (maxlen recent) then
    match winning_rate_of recent with
    | Raise e => (self, Raise e)
    | Ok winning_rate =>
        (* the report reads the current difficulty level *)
        match py_index (_difficulties self) (_cur_difficulty_idx self) with
        | Raise e => (self, Raise e)
        | Ok _ =>
            if (_winning_rate_threshold self <=? winning_rate)%float
               && (_cur_difficulty_idx self + 1 <? Z.of_nat (length (_difficulties self)))%Z
            then (set_curriculum self (c_int (_cur_difficulty_idx self + 1))
                                 (deque_clear recent), Ok tt)
            else (self, Ok tt)
        end
    end
  else (self, Ok tt).

(** The condition under which, by the specification, a curriculum update
    advances: a new outcome was drained, the window (after the drained
    appends) holds exactly its maximum of entries, the win rate
    [(mean + 1) / 2] reaches the threshold, and a higher level remains. *)
Definition curriculum_advances (self : agent) (outcome_queue : list float) : bool :=
  let recent := deque_extend (_recent_outcomes self) outcome_queue in
  negb (Nat.eqb (length outcome_queue) 0)
  && Nat.eqb (deque_len recent) (maxlen recent)
  && (_winning_rate_threshold self <=?
        (py_sum (items recent) / float_of_Z (Z.of_nat (deque_len recent)) + 1.0) / 2.0)%float
  && (_cur_difficulty_idx self + 1 <? Z.of_nat (length (_difficulties self)))%Z.

(** The same without the requirement of a new outcome: the window is full,
    the threshold is satisfied and a higher level remains. *)
Definition advance_due (self : agent) (recent : deque float) : bool :=
  Nat.eqb (deque_len recent) (maxlen recent)
  && (_winning_rate_threshold self <=?
        (py_sum (items recent) / float_of_Z (Z.of_nat (deque_len recent)) + 1.0) / 2.0)%float
  && (_cur_difficulty_idx self + 1 <? Z.of_nat (length (_difficulties self)))%Z.

(** The agent after a series of curriculum updates, one per entry of
    [queues] (what each update finds in the outcome channel). *)
Definition run_curriculum (self : agent) (queues : list (list float)) : agent :=
  fold_left (fun st q => fst (_update_curriculum_difficulty st q)) queues self.

(** What holds of the agent between curriculum updates, [self0] being the
    agent as constructed: the level list and the threshold are those of
    [self0], the window is bounded by 1000, the index points at a level, and
    no advance is due on the window as it stands. *)
Definition curriculum_inv (self0 st : agent) : Prop :=
  _difficulties st = _difficulties self0 /\
  _winning_rate_threshold st = _winning_rate_threshold self0 /\
  maxlen (_recent_outcomes st) = 1000%nat /\
  (0 <= _cur_difficulty_idx st < Z.of_nat (length (_difficulties st)))%Z /\
  advance_due st (_recent_outcomes st) = false.

(** *** The batch assembler thread *)

Definition transition : Type := (observation * nat * float)%type.

(** A batch: the observations, the actions and the returns of the
    sampled transitions, column by column. *)
Definition batch : Type := (list observation * list nat * list float)%type.

(** [_transitions_to_batch(transitions)]: the transitions are zipped and
    unpacked into three columns, which needs at least one transition. *)
Definition _transitions_to_batch (transitions : list transition) : result batch :=
  match transitions with
  | [] => Raise ValueError
  | _ => Ok (map (fun t => fst (fst t)) transitions,
             map (fun t => snd (fst t)) transitions,
             map (fun t => snd t) transitions)
  end.

(** How many transitions an iteration takes from the channel. *)
Inductive pace : Type :=
| steps_per_frame (n : Z)     (* one transition every [n] iterations *)
| frames_per_step (n : Z).    (* [n] transitions per iteration *)

(** The thread's variables, the number of transitions it has taken from
    the transition channel and the batches it has put on the batch
    channel. *)
Record assembler : Type := {
  memory : deque transition;
  steps : Z;
  taken : nat;
  put_batches : list batch
}.

(** What the thread obtains from outside: the [k]-th transition the
    channel hands to it, and the draws of its sampler by iteration. *)
Variable transition_supply : nat -> transition.
Variable sampler_draw : nat -> nat -> nat.

(** The statements before the loop. *)
Definition prepare_setup (self : agent) : result (assembler * pace) :=
  (share <- py_truediv (float_of_Z (_memory_size self)) (float_of_Z (_num_threads self)) ;;
   cap <- py_int share ;;
   memory <- deque_new transition cap ;;
   pace <- (if (_frame_step_ratio self <? 1)%float then
              r <- py_truediv 1 (_frame_step_ratio self) ;;
              n <- py_int r ;;
              Ok (steps_per_frame n)
            else
              n <- py_int (_frame_step_ratio self) ;;
              Ok (frames_per_step n)) ;;
   Ok ({| memory := memory; steps := 0; taken := 0; put_batches := [] |}, pace))%py.

(** [memory.append(self._transition_queue.get())], [n] times over. *)
Definition take (st : assembler) (n : nat) : assembler :=
  {| memory := deque_extend (memory st) (map transition_supply (seq (taken st) n));
     steps := steps st;
     taken := taken st + n;
     put_batches := put_batches st |}.

(** The buffer holds the most recent transitions taken from the channel,
    as many as its bound allows. *)
Definition buffer_inv (st : assembler) : Prop :=
  items (memory st) =
  lastn (maxlen (memory st)) (map transition_supply (seq 0 (taken st))).

(** One round of the thread's [while True]; [it] numbers the rounds. *)
Definition prepare_iteration (self : agent) (p : pace) (it : nat) (st : assembler)
  : result assembler :=
  (let st := {| memory := memory st; steps := steps st + 1;
                taken := taken st; put_batches := put_batches st |} in
   st <- match p with
         | steps_per_frame n =>
             m <- py_mod (steps st) n ;;
             Ok (if (m =? 0)%Z then take st 1 else st)
         | frames_per_step n => Ok (take st (Z.to_nat n))
         end ;;
   warm_up <- py_truediv (float_of_Z (_init_memory_size self))
                         (float_of_Z (_num_threads self)) ;;
   if (float_of_Z (Z.of_nat (deque_len (memory st))) <? warm_up)%float then Ok st
   else
     transitions <- random_sample (items (memory st)) (_batch_size self)
                                  (sampler_draw it) ;;
     b <- _transitions_to_batch transitions ;;
     Ok {| memory := memory st; steps := steps st; taken := taken st;
           put_batches := put_batches st ++ [b] |})%py.

Fixpoint prepare_loop (self : agent) (p : pace) (it : nat) (n : nat) (st : assembler)
  : result assembler :=
  match n with
  | O => Ok st
  | S n' =>
      (st <- prepare_iteration self p it st ;;
       prepare_loop self p (S it) n' st)%py
  end.

(** [_prepare_batch(tid)], through the first [n] rounds of its loop: the
    thread's state then, or the exception that ended it. *)
Definition _prepare_batch (self : agent) (n : nat) : result assembler :=
  (' (st, p) <- prepare_setup self ;;
   prepare_loop self p 0 n st)%py.

(** *** The learner loop *)

Inductive learner_event : Type :=
| ActorStarted (pid : Z)
| BatchThreadStarted (tid : Z)
| TargetUpdated (steps : Z)
| EpsPublished (eps : float)
| Optimized (loss : float)
| ModelSaved (steps : Z)
| Reported (steps : Z) (eps : float) (mean_loss : float).

(** What the learner obtains from outside at its [i]-th round: the
    entries waiting in the outcome channel, and the loss the network
    computes on the batch taken from the batch channel. *)
Variable math_exp : float -> float.
Variable outcomes_at : nat -> list float.
Variable loss_at : nat -> float.

Definition known_loss (name : string) : bool :=
  ((name =? "smooth_l1") || (name =? "mse"))%string.

(** [_optimize()]: the loss is chosen by name once the batch has gone
    through the network.  The model has the batch arrive and the network,
    the backward pass and the optimizer step succeed, [loss_at i] being the
    loss they give in round [i]; the program can also wait for a batch
    forever or fail in them.  So the model completes a round whenever the
    program does, and returns from [_optimize] whenever the program does:
    what is stated of [learn] is stated of rounds that complete or of
    optimizer steps that were made, or says what a run cannot do. *)
Definition _optimize (self : agent) (i : nat) : result float :=
  if known_loss (_loss_type self) then Ok (loss_at i) else Raise NotImplementedError.

(** [_init_parallel_actors]: the actor processes are started, then the
    batch threads. *)
Definition _init_parallel_actors (self : agent) (num_actor_workers : nat)
  : W learner_event unit :=
  (map (fun pid => ActorStarted (Z.of_nat pid)) (seq 0 num_actor_workers) ++
   map (fun tid => BatchThreadStarted (Z.of_nat tid))
       (seq 0 (Z.to_nat (_num_threads self))),
   Done tt).

Definition learner_state : Type := (agent * Z * float)%type.

(** One round of the loop of [learn]. *)
Definition learn_iteration (i : nat) (st : learner_state) : W learner_event learner_state :=
  (let '(self, steps, loss_sum) := st in
   m <- call (py_mod steps (_target_update_freq self)) ;;
   _ <- (if (m =? 0)%Z then emit (TargetUpdated steps) else wret tt) ;;
   eps <- call (_get_current_eps math_exp self steps) ;;
   let self := set_current_eps self eps in
   _ <- emit (EpsPublished eps) ;;
   let (self, r) := _update_curriculum_difficulty self (outcomes_at i) in
   _ <- call r ;;
   loss <- call (_optimize self i) ;;
   _ <- emit (Optimized loss) ;;
   let loss_sum := (loss_sum + loss)%float in
   let steps := (steps + 1)%Z in
   _ <- (if _save_model_dir self then
           m <- call (py_mod steps (_save_model_freq self)) ;;
           if (m =? 0)%Z then emit (ModelSaved steps) else wret tt
         else wret tt) ;;
   m <- call (py_mod steps (_print_freq self)) ;;
   if (m =? 0)%Z then
     mean <- call (py_truediv loss_sum (float_of_Z (_print_freq self))) ;;
     _ <- emit (Reported steps eps mean) ;;
     wret (self, steps, 0%float)
   else wret (self, steps, loss_sum))%trace.

Fixpoint learn_loop (i : nat) (n : nat) (st : learner_state)
  : W learner_event learner_state :=
  match n with
  | O => wret st
  | S n' => (st <- learn_iteration i st ;; learn_loop (S i) n' st)%trace
  end.

(** [learn(create_env_fn, num_actor_workers, use_curriculum)], through the
    first [n] rounds of its loop. *)
Definition learn (self : agent) (num_actor_workers : nat) (n : nat)
  : W learner_event learner_state :=
  (_ <- _init_parallel_actors self num_actor_workers ;;
   learn_loop 0 n (self, 0%Z, 0%float))%trace.

End Agent.

End MCAgent.

(* ------------------------------------------------------------------ *)
(** ** Concrete configurations *)

(** The scenario of the specification's testable properties: memory size
    100, warm-up 20, batch size 8, the linear schedule from 1.0 to 0.1 with
    decay constants 100 and 200; three difficulty levels. *)
Definition scenario_config : MCAgent.config nat :=
  {| MCAgent.action_space_arg := MaskDiscrete 3;
     MCAgent.optimizer_type := "adam";
     MCAgent.batch_size := 8;
     MCAgent.discount := 0.9;
     MCAgent.eps_method := "linear";
     MCAgent.eps_start := 1.0;
     MCAgent.eps_end := 0.1;
     MCAgent.eps_decay := 100;
     MCAgent.eps_decay2 := 200;
     MCAgent.memory_size := 100;
     MCAgent.init_memory_size := 20;
     MCAgent.frame_step_ratio := 1.0;
     MCAgent.target_update_freq := 10;
     MCAgent.winning_rate_threshold := 0.6;
     MCAgent.difficulties := [1; 2; 3]%nat;
     MCAgent.loss_type := "mse";
     MCAgent.save_model_dir := false;
     MCAgent.save_model_freq := 50000;
     MCAgent.print_freq := 1000 |}.

Definition scenario_agent : MCAgent.agent nat := MCAgent.attributes scenario_config.

(** A channel that hands out the transitions numbered 0, 1, 2, ... *)
Definition numbered_supply (k : nat) : MCAgent.transition :=
  ([[Z.of_nat k]; [1; 1; 1]%Z], (k mod 3)%nat, float_of_Z (Z.of_nat k)).

Definition first_draws (it i : nat) : nat := 0%nat.

(* ------------------------------------------------------------------ *)
(** ** Concrete trajectories, environments and worlds *)

(** The example of the specification: rewards 1, 0, 0, -1. *)
Definition example_trajectory : list (step_record Q) :=
  [([[0%Z]], 0%nat, 1%Q); ([[1%Z]], 1%nat, 0%Q); ([[2%Z]], 2%nat, 0%Q);
   ([[3%Z]], 0%nat, (-1)%Q)].

Definition example_trajectory_float : list (step_record float) :=
  [([[0%Z]], 0%nat, 1%float); ([[1%Z]], 1%nat, 0%float); ([[2%Z]], 2%nat, 0%float);
   ([[3%Z]], 0%nat, (-1)%float)].

(** A trajectory whose middle reward is absorbed by rounding: rewards
    10^16, 1 and -10^16, each of them a binary64 number. *)
Definition absorbed_rewards : list Z := [10 ^ 16; 1; - 10 ^ 16]%Z.

Definition absorbed_trajectory : list (step_record Q) :=
  map (fun r => ([[r]], 0%nat, inject_Z r)) absorbed_rewards.

Definition absorbed_trajectory_float : list (step_record float) :=
  map (fun r => ([[r]], 0%nat, float_of_Z r)) absorbed_rewards.

(** An environment whose state counts the steps taken; every observation is
    a feature array followed by a mask allowing actions 0 and 2; the episode
    ends with the fourth step; the step numbered [fault_at] raises. *)
Definition counting_env (fault_at : nat) : environment nat float :=
  {| env_state := nat;
     env_create_fn := fun _ _ => Ok 0%nat;
     env_reset := fun s => Ok (s, [[Z.of_nat s]; [1; 0; 1]%Z]);
     env_step := fun s _ =>
       if (s =? fault_at)%nat then Raise (Fault 7)
       else Ok (S s, ([[Z.of_nat (S s)]; [1; 0; 1]%Z], 1%float, (3 <=? s)%nat));
     env_close := fun _ => Ok tt |}.

Definition constant_network : network := fun _ => Ok [0.5; 0.75; 0.25]%float.

(** A network whose value for the second action is negative infinity, and
    one that fails. *)
Definition saturated_network : network := fun _ => Ok [0.5; neg_infinity]%float.

Definition faulty_network : network := fun _ => Raise (Fault 3).

(** A world with a stopped clock, difficulty index 1, exploration rate 0.1
    and draws that make the worker exploit. *)
Definition still_world : world :=
  {| clock_ms := fun _ => 1000%Z;
     difficulty_idx := fun _ => 1%Z;
     choice_draw := fun _ => 0%nat;
     eps_read := fun _ _ => 0.1%float;
     eps_logged := fun _ => 0.1%float;
     uniform_draw := fun _ _ => 0.5%float;
     sample_draw := fun _ _ => 0%nat |}.



(** ** Checking a schedule on a range of steps *)

(** The rate at [t] is defined and strictly below the rate at [s]. *)
Definition strictly_below (f : Z -> result float) (s t : Z) : bool :=
  match f s, f t with
  | Ok x, Ok y => (y <? x)%float
  | _, _ => false
  end.

(** [f] is strictly decreasing on the steps [lo, lo + 1, ..., lo + n]. *)
Definition decreasing_between (f : Z -> result float) (lo : Z) (n : nat) : bool :=
  forallb (fun i =>
             forallb (fun j => strictly_below f (lo + Z.of_nat i) (lo + Z.of_nat j))
                     (seq (S i) (n - i)))
          (seq 0 (S n)).

(** The schedule names the specification recognises. *)
Definition known_schedule (name : string) : bool :=
  ((name =? "exponential") || (name =? "linear"))%string.

(** The scenario with a schedule name that is not one of them. *)
Definition cosine_config : MCAgent.config nat :=
  {| MCAgent.action_space_arg := MaskDiscrete 3;
     MCAgent.optimizer_type := "adam";
     MCAgent.batch_size := 8;
     MCAgent.discount := 0.9;
     MCAgent.eps_method := "cosine";
     MCAgent.eps_start := 1.0;
     MCAgent.eps_end := 0.1;
     MCAgent.eps_decay := 100;
     MCAgent.eps_decay2 := 200;
     MCAgent.memory_size := 100;
     MCAgent.init_memory_size := 20;
     MCAgent.frame_step_ratio := 1.0;
     MCAgent.target_update_freq := 10;
     MCAgent.winning_rate_threshold := 0.6;
     MCAgent.difficulties := [1; 2; 3]%nat;
     MCAgent.loss_type := "mse";
     MCAgent.save_model_dir := false;
     MCAgent.save_model_freq := 50000;
     MCAgent.print_freq := 1000 |}.

(** What [_init_parallel_actors] starts: the actor processes, then the
    batch threads. *)
Definition started {D} (self : MCAgent.agent D) (num_actor_workers : nat)
  : list MCAgent.learner_event :=
  map (fun pid => MCAgent.ActorStarted (Z.of_nat pid)) (seq 0 num_actor_workers) ++
  map (fun tid => MCAgent.BatchThreadStarted (Z.of_nat tid))
      (seq 0 (Z.to_nat (MCAgent._num_threads self))).

(** A configuration with a single difficulty level. *)
Definition single_level_config : MCAgent.config nat :=
  {| MCAgent.action_space_arg := MaskDiscrete 3;
     MCAgent.optimizer_type := "adam";
     MCAgent.batch_size := 8;
     MCAgent.discount := 0.9;
     MCAgent.eps_method := "linear";
     MCAgent.eps_start := 1.0;
     MCAgent.eps_end := 0.1;
     MCAgent.eps_decay := 100;
     MCAgent.eps_decay2 := 200;
     MCAgent.memory_size := 100;
     MCAgent.init_memory_size := 20;
     MCAgent.frame_step_ratio := 1.0;
     MCAgent.target_update_freq := 10;
     MCAgent.winning_rate_threshold := 0.6;
     MCAgent.difficulties := [1]%nat;
     MCAgent.loss_type := "mse";
     MCAgent.save_model_dir := false;
     MCAgent.save_model_freq := 50000;
     MCAgent.print_freq := 1000 |}.

(** A thousand won episodes. *)
Definition thousand_wins : list float := repeat 1%float 1000.

(* ================================================================== *)
(** * Further parts of the program *)

From Stdlib Require Import Ascii DecimalString DecimalPos.

(** ** The seed of an episode *)

(** [(pid * 11111111 + int(time.time() * 1000)) & 0xFFFFFFFF]. *)
Definition random_seed_of (pid now_ms : Z) : Z :=
  Z.land (pid * 11111111 + now_ms) 0xFFFFFFFF.

(** ** The environments a worker holds *)

(** Whether an environment is open after the events [evs], [open] telling
    whether one was open before them; [None] when an environment is created
    while one is open, or closed while none is. *)
Fixpoint env_open_after {D R} (open : bool) (evs : list (event D R)) : option bool :=
  match evs with
  | [] => Some open
  | ev :: rest =>
      match ev with
      | EnvCreated _ _ _ => if open then None else env_open_after true rest
      | EnvClosed _ _ => if open then env_open_after false rest else None
      | _ => env_open_after open rest
      end
  end.

(** ** A configuration without difficulty levels *)

(** The arguments sc2learner/bin/eval.py gives the agent it builds (an
    agent of another class, constructed with the same keywords), as far as
    [MCAgent] has them: no difficulty level, zero exploration. *)
Definition eval_config : MCAgent.config nat :=
  {| MCAgent.action_space_arg := MaskDiscrete 3;
     MCAgent.optimizer_type := "adam";
     MCAgent.batch_size := 128;
     MCAgent.discount := 0.99;
     MCAgent.eps_method := "linear";
     MCAgent.eps_start := 0;
     MCAgent.eps_end := 0;
     MCAgent.eps_decay := 5000000;
     MCAgent.eps_decay2 := 30000000;
     MCAgent.memory_size := 1000000;
     MCAgent.init_memory_size := 100000;
     MCAgent.frame_step_ratio := 1.0;
     MCAgent.target_update_freq := 10000;
     MCAgent.winning_rate_threshold := 0;
     MCAgent.difficulties := [];
     MCAgent.loss_type := "mse";
     MCAgent.save_model_dir := false;
     MCAgent.save_model_freq := 50000;
     MCAgent.print_freq := 1000 |}.

(** ** Reading the learner's trace *)

(** The steps at which the target network was refreshed, the rates that
    were published, the losses of the optimizer steps and the steps at
    which the model was saved, each in the order of the trace. *)
Definition target_updates (evs : list MCAgent.learner_event) : list Z :=
  flat_map (fun ev => match ev with MCAgent.TargetUpdated s => [s] | _ => [] end) evs.

Definition published (evs : list MCAgent.learner_event) : list float :=
  flat_map (fun ev => match ev with MCAgent.EpsPublished e => [e] | _ => [] end) evs.

Definition optimized (evs : list MCAgent.learner_event) : list float :=
  flat_map (fun ev => match ev with MCAgent.Optimized l => [l] | _ => [] end) evs.

Definition saved_steps (evs : list MCAgent.learner_event) : list Z :=
  flat_map (fun ev => match ev with MCAgent.ModelSaved s => [s] | _ => [] end) evs.

(** The reports of a learner's trace: step, exploration rate and mean loss
    of each, in the order of the trace. *)
Definition reports (evs : list MCAgent.learner_event) : list (Z * float * float) :=
  flat_map (fun ev => match ev with
                      | MCAgent.Reported s e m => [(s, e, m)]
                      | _ => []
                      end) evs.

(** The number of rounds since the step counter was last a multiple of
    [print_freq], when it is [i]. *)
Definition since_report (print_freq : Z) (i : nat) : nat :=
  Z.to_nat (Z.of_nat i mod Z.abs print_freq).

(** The sum, from 0.0 and in the order of the rounds, of the losses of the
    [k] rounds before round [i]. *)
Definition loss_sum_before (loss_at : nat -> float) (i k : nat) : float :=
  py_sum (map loss_at (seq (i - k) k)).

(** The steps [first, first + 1, ..., first + n - 1] that are multiples of
    [freq]. *)
Definition multiples_of (freq : Z) (first : Z) (n : nat) : list Z :=
  filter (fun s => (s mod freq =? 0)%Z) (map (fun i => (first + Z.of_nat i)%Z) (seq 0 n)).

(** The events of one completed round of the learner at step [steps]. *)
Definition round_events {D} (self : MCAgent.agent D) (steps : Z) (eps loss : float)
    (report : list MCAgent.learner_event) : list MCAgent.learner_event :=
  (if (steps mod MCAgent._target_update_freq self =? 0)%Z
   then [MCAgent.TargetUpdated steps] else []) ++
  [MCAgent.EpsPublished eps; MCAgent.Optimized loss] ++
  (if MCAgent._save_model_dir self
   then if ((steps + 1) mod MCAgent._save_model_freq self =? 0)%Z
        then [MCAgent.ModelSaved (steps + 1)] else []
   else []) ++
  report.

(** The attributes a round of the learner reads and never writes. *)
Definition settings {D} (self : MCAgent.agent D) :=
  (MCAgent._target_update_freq self, MCAgent._save_model_dir self,
   MCAgent._save_model_freq self, MCAgent._print_freq self,
   MCAgent._loss_type self,
   (MCAgent._eps_method self, MCAgent._eps_start self, MCAgent._eps_end self,
    MCAgent._eps_decay self, MCAgent._eps_decay2 self)).

(** The scenario with a directory to save to and batches of 2 (which the
    batch threads can fill): the target network is refreshed every 10
    steps, the model saved every 5, a report printed every 4. *)
Definition checkpoint_config : MCAgent.config nat :=
  {| MCAgent.action_space_arg := MaskDiscrete 3;
     MCAgent.optimizer_type := "adam";
     MCAgent.batch_size := 2;
     MCAgent.discount := 0.9;
     MCAgent.eps_method := "linear";
     MCAgent.eps_start := 1.0;
     MCAgent.eps_end := 0.1;
     MCAgent.eps_decay := 100;
     MCAgent.eps_decay2 := 200;
     MCAgent.memory_size := 100;
     MCAgent.init_memory_size := 20;
     MCAgent.frame_step_ratio := 1.0;
     MCAgent.target_update_freq := 10;
     MCAgent.winning_rate_threshold := 0.6;
     MCAgent.difficulties := [1; 2; 3]%nat;
     MCAgent.loss_type := "mse";
     MCAgent.save_model_dir := true;
     MCAgent.save_model_freq := 5;
     MCAgent.print_freq := 4 |}.

(** A run of the learner on it: no outcome ever waits in the channel, the
    loss of round [i] is [i]. *)
Definition checkpoint_run (n : nat) : W MCAgent.learner_event (MCAgent.learner_state nat) :=
  MCAgent.learn (fun x => x) (fun _ => []) (fun i => float_of_Z (Z.of_nat i))
                (MCAgent.attributes checkpoint_config) 2 n.

(** ** Variations of the scenario *)

(** The scenario with other values for the batch size, the ratio of frames
    to steps, the loss and the frequencies of the learner. *)
Definition scenario_with (batch_size : Z) (frame_step_ratio : float)
    (loss_type : string) (target_update_freq : Z) (save_model_dir : bool)
    (save_model_freq print_freq : Z) : MCAgent.config nat :=
  {| MCAgent.action_space_arg := MaskDiscrete 3;
     MCAgent.optimizer_type := "adam";
     MCAgent.batch_size := batch_size;
     MCAgent.discount := 0.9;
     MCAgent.eps_method := "linear";
     MCAgent.eps_start := 1.0;
     MCAgent.eps_end := 0.1;
     MCAgent.eps_decay := 100;
     MCAgent.eps_decay2 := 200;
     MCAgent.memory_size := 100;
     MCAgent.init_memory_size := 20;
     MCAgent.frame_step_ratio := frame_step_ratio;
     MCAgent.target_update_freq := target_update_freq;
     MCAgent.winning_rate_threshold := 0.6;
     MCAgent.difficulties := [1; 2; 3]%nat;
     MCAgent.loss_type := loss_type;
     MCAgent.save_model_dir := save_model_dir;
     MCAgent.save_model_freq := save_model_freq;
     MCAgent.print_freq := print_freq |}.

(** Draws of the sampler that change with the round and the draw. *)
Definition mixed_draws (it i : nat) : nat := (3 * it + 5 * i + 1)%nat.

(** ** Reading a batch *)

(** The rows of a batch: its three columns side by side. *)
Definition batch_rows (b : MCAgent.batch) : list MCAgent.transition :=
  let '(obs_batch, action_batch, value_batch) := b in
  combine (combine obs_batch action_batch) value_batch.

(** What holds of a batch that a batch thread has put when the thread is in
    state [st]: the batch size is positive, each of the three columns has
    that many entries, and every row is one of the transitions the thread
    has taken from the channel. *)
Definition batch_ok {D} (transition_supply : nat -> MCAgent.transition)
    (self : MCAgent.agent D) (st : MCAgent.assembler) (b : MCAgent.batch) : Prop :=
  let '(obs_batch, action_batch, value_batch) := b in
  (0 < MCAgent._batch_size self)%Z /\
  length obs_batch = Z.to_nat (MCAgent._batch_size self) /\
  length action_batch = Z.to_nat (MCAgent._batch_size self) /\
  length value_batch = Z.to_nat (MCAgent._batch_size self) /\
  Forall (fun t => In t (map transition_supply (seq 0 (MCAgent.taken st)))) (batch_rows b).

(* ================================================================== *)
(** * The evaluation script (sc2learner/bin/eval.py) *)

(** What [train] prints and does to its environment. *)
Inductive eval_event : Type :=
| EvalEnvCreated (random_seed : Z)
| ActionsPrinted (n_names : nat)
| StepPrinted (step_id : nat) (action : nat) (mask : ndarray)
| DistributionRow (action_id : nat) (count : Z)
| Evaluated (episodes : Z) (avg_return : float) (avg_winning_rate : float)
| TracebackPrinted (e : exn)
| EvalEnvClosed.

(** The actions of the steps printed in a trace, in order. *)
Definition taken_actions (evs : list eval_event) : list nat :=
  flat_map (fun ev => match ev with StepPrinted _ a _ => [a] | _ => [] end) evs.

(** How often action [a] was taken in a trace. *)
Definition times_taken (a : nat) (evs : list eval_event) : Z :=
  Z.of_nat (count_occ Nat.eq_dec (taken_actions evs) a).

(** Every distribution row of the trace shows, for its action, [base] plus
    the number of steps printed before the row in which the action was
    taken. *)
Definition rows_counted (base : nat -> Z) (evs : list eval_event) : Prop :=
  forall pre a k post,
    evs = pre ++ DistributionRow a k :: post -> k = (base a + times_taken a pre)%Z.

(** The rows of [print_action_distribution(env, action_counts)]: one per
    action name, each reading its count by the name's position. *)
Fixpoint print_rows (action_ids : list nat) (action_counts : list Z)
  : W eval_event unit :=
  match action_ids with
  | [] => wret tt
  | action_id :: rest =>
      (c <- call (py_index action_counts (Z.of_nat action_id)) ;;
       _ <- emit (DistributionRow action_id c) ;;
       print_rows rest action_counts)%trace
  end.

Definition print_action_distribution (n_names : nat) (action_counts : list Z)
  : W eval_event unit :=
  print_rows (seq 0 n_names) action_counts.

Section Evaluation.

Variable D : Type.
Variable env : environment D float.   (* what [create_env] builds *)
Variable difficulty : D.              (* FLAGS.difficulty *)
Variable now_s : Z.                   (* int(time.time()) *)
Variable n : nat.                     (* env.action_space.n *)
Variable n_names : nat.               (* len(env.action_names) *)
Variable num_episodes : Z.            (* FLAGS.num_episodes *)

(** The agent the script builds (of a class defined elsewhere), or the
    exception its construction raises; its [act(observation, eps)] by
    episode and step. *)
Variable agent : result (nat -> nat -> observation -> result nat).

(** Which exceptions are the user's [KeyboardInterrupt]. *)
Variable keyboard_interrupt : exn -> bool.

(** The variables of the evaluation and the state of the environment. *)
Record eval_state : Type := {
  eval_env : env_state env;
  cum_return : float;
  action_counts : list Z
}.

(** [while not done: ...], with a budget of steps; the state is the one
    reached when the loop ends or an exception leaves it. *)
Fixpoint eval_steps (agent_act : nat -> nat -> observation -> result nat)
    (fuel : nat) (i step_id : nat) (st : eval_state) (obs : observation)
  : list eval_event * eval_state * outcome unit :=
  match fuel with
  | O => ([], st, Running)
  | S fuel' =>
      match agent_act i step_id obs with
      | Raise e => ([], st, Raised e)
      | Ok action =>
      match py_index obs (-1) with
      | Raise e => ([], st, Raised e)
      | Ok mask =>
      let printed := StepPrinted step_id action mask in
      match env_step env (eval_env st) action with
      | Raise e => ([printed], st, Raised e)
      | Ok (s', (next_observation, reward, done)) =>
      let st := {| eval_env := s'; cum_return := cum_return st;
                   action_counts := action_counts st |} in
      match py_index (action_counts st) (Z.of_nat action) with
      | Raise e => ([printed], st, Raised e)
      | Ok c =>
      let st := {| eval_env := s'; cum_return := (cum_return st + reward)%float;
                   action_counts := list_set (action_counts st) action (c + 1)%Z |} in
      if (done : bool) then ([printed], st, Done tt)
      else
        let '(evs, st', o) := eval_steps agent_act fuel' i (S step_id) st
                                         next_observation in
        (printed :: evs, st', o)
      end
      end
      end
      end
  end.

(** [for i in range(FLAGS.num_episodes): ...], [remaining] episodes from
    episode [i]. *)
Fixpoint eval_episodes (agent_act : nat -> nat -> observation -> result nat)
    (fuel : nat) (remaining : nat) (i : nat) (st : eval_state)
  : list eval_event * eval_state * outcome unit :=
  match remaining with
  | O => ([], st, Done tt)
  | S remaining' =>
      match env_reset env (eval_env st) with
      | Raise e => ([], st, Raised e)
      | Ok (s, observation) =>
      let st := {| eval_env := s; cum_return := cum_return st;
                   action_counts := action_counts st |} in
      let '(evs, st, o) := eval_steps agent_act fuel i 0 st observation in
      match o with
      | Done _ =>
          let (rows, r) := print_action_distribution n_names (action_counts st) in
          match r with
          | Done _ =>
              let avg := (cum_return st / float_of_Z (Z.of_nat i + 1))%float in
              let report := Evaluated (Z.of_nat i + 1) avg ((avg + 1) / 2)%float in
              let '(evs', st', o') := eval_episodes agent_act fuel remaining' (S i) st in
              (evs ++ rows ++ report :: evs', st', o')
          | Raised e => (evs ++ rows, st, Raised e)
          | Running => (evs ++ rows, st, Running)
          end
      | Raised e => (evs, st, Raised e)
      | Running => (evs, st, Running)
      end
      end
  end.

(** [train()]: the environment and the agent are made outside the [try];
    whatever is raised inside it is handled, a [KeyboardInterrupt]
    silently and anything else by printing the traceback; then the
    environment is closed. *)
Definition train (fuel : nat) : W eval_event unit :=
  match env_create_fn env difficulty now_s with
  | Raise e => ([], Raised e)
  | Ok s0 =>
      let begun := [EvalEnvCreated now_s; ActionsPrinted n_names] in
      match agent with
      | Raise e => (begun, Raised e)
      | Ok agent_act =>
          let st0 := {| eval_env := s0; cum_return := 0;
                        action_counts := repeat 0%Z n |} in
          let '(evs, st, o) := eval_episodes agent_act fuel (Z.to_nat num_episodes)
                                             0 st0 in
          match o with
          | Running => (begun ++ evs, Running)
          | Done _ | Raised _ =>
              let handled := match o with
                             | Raised e => if keyboard_interrupt e then []
                                           else [TracebackPrinted e]
                             | _ => []
                             end in
              match env_close env (eval_env st) with
              | Raise e => (begun ++ evs ++ handled, Raised e)
              | Ok _ => (begun ++ evs ++ handled ++ [EvalEnvClosed], Done tt)
              end
          end
      end
  end.

End Evaluation.

(** An evaluation of three episodes on [counting_env] by an agent that
    always takes action 2; no exception is an interrupt. *)
Definition always_two (i step_id : nat) (obs : observation) : result nat := Ok 2%nat.

Definition no_interrupt (e : exn) : bool := false.

Definition scenario_train (fault_at : nat) (fuel : nat) : W eval_event unit :=
  train (counting_env fault_at) 1%nat 1700000000 3 3 3 (Ok always_two) no_interrupt fuel.

(* ================================================================== *)
(** * Checkpoint names *)

(** Strings are sequences of code points below 256. *)

(** ['%d' % z]. *)
Definition format_d (z : Z) : string := NilZero.string_of_int (Z.to_int z).

Definition starts_with_slash (s : string) : bool :=
  match s with
  | String c _ => Ascii.eqb c "/"
  | EmptyString => false
  end.

Fixpoint ends_with_slash (s : string) : bool :=
  match s with
  | EmptyString => false
  | String c EmptyString => Ascii.eqb c "/"
  | String _ s' => ends_with_slash s'
  end.

(** [os.path.join(a, b)] as posixpath has it. *)
Definition path_join (a b : string) : string :=
  if starts_with_slash b then b
  else if ((a =? "")%string || ends_with_slash a)%bool then (a ++ b)%string
  else (a ++ "/" ++ b)%string.

(** The path [learn] saves the model to after step [steps]:
    [os.path.join(self._save_model_dir, 'agent.model-%d' % steps)]. *)
Definition model_path (save_model_dir : string) (steps : Z) : string :=
  path_join save_model_dir ("agent.model-" ++ format_d steps).

(** [s.rfind(c)]: the highest index at which [c] occurs, or -1. *)
Fixpoint rfind_from (c : ascii) (s : string) (i found : Z) : Z :=
  match s with
  | EmptyString => found
  | String c' s' => rfind_from c s' (i + 1) (if Ascii.eqb c' c then i else found)
  end.

Definition rfind (s : string) (c : ascii) : Z := rfind_from c s 0 (-1).

(** [s[k:]] for [0 <= k]. *)
Fixpoint slice_from (k : nat) (s : string) : string :=
  match k, s with
  | O, _ => s
  | S k', String _ s' => slice_from k' s'
  | S _, EmptyString => EmptyString
  end.

(** The white space [int] skips at both ends of its argument. *)
Definition is_space (c : ascii) : bool :=
  let k := nat_of_ascii c in
  ((9 <=? k) && (k <=? 13) || (k =? 32) || (k =? 133) || (k =? 160))%nat%bool.

Definition digit_of (c : ascii) : option Z :=
  let k := nat_of_ascii c in
  if ((48 <=? k) && (k <=? 57))%nat%bool then Some (Z.of_nat (k - 48)) else None.

Fixpoint lstrip (cs : list ascii) : list ascii :=
  match cs with
  | [] => []
  | c :: cs' => if is_space c then lstrip cs' else cs
  end.

Fixpoint rstrip (cs : list ascii) : list ascii :=
  match cs with
  | [] => []
  | c :: cs' =>
      match rstrip cs' with
      | [] => if is_space c then [] else [c]
      | rest => c :: rest
      end
  end.

(** Decimal digits, with single underscores allowed between digits. *)
Fixpoint digits_value (cs : list ascii) (acc : Z) (after_digit : bool) : option Z :=
  match cs with
  | [] => if after_digit then Some acc else None
  | c :: cs' =>
      match digit_of c with
      | Some d => digits_value cs' (10 * acc + d)%Z true
      | None =>
          if (Ascii.eqb c "_" && after_digit)%bool then digits_value cs' acc false
          else None
      end
  end.

(** [int(s)] on a string: white space at both ends is skipped, a sign may
    come first, then decimal digits; anything else raises [ValueError].
    (Interpreters from 3.11 on also refuse more than 4300 digits.) *)
Definition py_int_of_string (s : string) : result Z :=
  let cs := rstrip (lstrip (list_ascii_of_string s)) in
  let '(negative, body) :=
    match cs with
    | c :: rest =>
        if Ascii.eqb c "-" then (true, rest)
        else if Ascii.eqb c "+" then (false, rest)
        else (false, cs)
    | [] => (false, cs)
    end in
  match digits_value body 0 false with
  | Some v => Ok (if negative then - v else v)%Z
  | None => Raise ValueError
  end.

(** What the constructor stores as [_episode_idx] when it is given a model
    to start from: [int(init_model_path[init_model_path.rfind('-')+1:])]. *)
Definition episode_idx_of (init_model_path : string) : result Z :=
  py_int_of_string
    (slice_from (Z.to_nat (rfind init_model_path "-" + 1)) init_model_path).

(* ================================================================== *)
(** * Properties *)

Unset Implicit Arguments.

(** ** Bounded deques *)

Lemma deque_append_maxlen {A} (d : deque A) x :
  maxlen (deque_append d x) = maxlen d.
Proof. reflexivity. Qed.

Lemma deque_extend_maxlen {A} (xs : list A) : forall d,
  maxlen (deque_extend d xs) = maxlen d.
Proof.
  unfold deque_extend.
  induction xs as [|x xs IH]; intro d; simpl; [reflexivity|].
  now rewrite IH.
Qed.

Lemma lastn_length {A} n (l : list A) : length (lastn n l) = Nat.min n (length l).
Proof. unfold lastn. rewrite length_skipn. lia. Qed.

Lemma lastn_all {A} n (l : list A) : (length l <= n)%nat -> lastn n l = l.
Proof.
  intro H. unfold lastn. replace (length l - n)%nat with 0%nat by lia.
  reflexivity.
Qed.

Lemma tl_skipn {A} k (l : list A) : tl (skipn k l) = skipn (S k) l.
Proof.
  revert l. induction k as [|k IH]; intros [|a l]; simpl; try reflexivity.
  apply IH.
Qed.

Lemma lastn_snoc {A} n (l : list A) x :
  lastn n (l ++ [x]) =
  (let l' := lastn n l ++ [x] in
   if (n <? length l')%nat then tl l' else l').
Proof.
  unfold lastn. cbv zeta.
  rewrite !length_app, length_skipn. simpl.
  destruct (Nat.ltb_spec n (length l - (length l - n) + 1)) as [Hlt|Hge].
  - (* the window was already full *)
    assert (Hn : (n <= length l)%nat) by lia.
    replace (length l + 1 - n)%nat with (S (length l - n)) by lia.
    rewrite <- tl_skipn. rewrite skipn_app.
    replace (length l - n - length l)%nat with 0%nat by lia.
    reflexivity.
  - assert (Hn : (length l < n)%nat) by lia.
    replace (length l + 1 - n)%nat with 0%nat by lia.
    replace (length l - n)%nat with 0%nat by lia.
    reflexivity.
Qed.

(** Appending to a deque that holds the last [maxlen] entries of a history
    yields the last [maxlen] entries of the extended history. *)
Lemma deque_append_lastn {A} (d : deque A) (hist : list A) x :
  items d = lastn (maxlen d) hist ->
  items (deque_append d x) = lastn (maxlen d) (hist ++ [x]).
Proof.
  intro H. unfold deque_append. simpl. rewrite lastn_snoc. cbv zeta.
  now rewrite H.
Qed.

Lemma deque_extend_lastn {A} (xs : list A) : forall (d : deque A) hist,
  items d = lastn (maxlen d) hist ->
  items (deque_extend d xs) = lastn (maxlen d) (hist ++ xs).
Proof.
  unfold deque_extend.
  induction xs as [|x xs IH]; intros d hist H; simpl.
  - now rewrite app_nil_r.
  - rewrite (IH (deque_append d x) (hist ++ [x])).
    + rewrite deque_append_maxlen, <- app_assoc. reflexivity.
    + rewrite deque_append_maxlen. now apply deque_append_lastn.
Qed.

Lemma deque_append_wf {A} (d : deque A) x :
  deque_wf d -> deque_wf (deque_append d x).
Proof.
  unfold deque_wf, deque_len, deque_append. simpl. intro Hwf.
  destruct (Nat.ltb_spec (maxlen d) (length (items d ++ [x]))) as [H|H].
  - rewrite length_app in H. simpl in H.
    destruct (items d) as [|a l]; simpl in *; [lia|].
    rewrite length_app. simpl. lia.
  - exact H.
Qed.

Lemma deque_extend_wf {A} (xs : list A) : forall d,
  deque_wf d -> deque_wf (deque_extend d xs).
Proof.
  unfold deque_extend.
  induction xs as [|x xs IH]; intros d H; simpl; [exact H|].
  apply IH. now apply deque_append_wf.
Qed.


Lemma deque_new_ok {A} (n : Z) (d : deque A) :
  deque_new A n = Ok d -> items d = [] /\ maxlen d = Z.to_nat n /\ (0 <= n)%Z.
Proof.
  unfold deque_new. destruct (Z.ltb_spec n 0) as [H|H]; [discriminate|].
  intro E. injection E as <-. simpl. auto.
Qed.

Lemma rbind_ok {A B} (r : result A) (k : A -> result B) (b : B) :
  rbind r k = Ok b -> exists a, r = Ok a /\ k a = Ok b.
Proof. destruct r as [a|e]; simpl; [eauto|discriminate]. Qed.

Ltac rbind_inv H :=
  let x := fresh "x" in
  let Hx := fresh "H" x in
  apply rbind_ok in H; destruct H as (x & Hx & H).

(** ** The replay buffer of a batch thread (C5) *)

Section ReplayBuffer.

Variable D : Type.
Variable transition_supply : nat -> MCAgent.transition.
Variable sampler_draw : nat -> nat -> nat.

Let prepare_iteration := MCAgent.prepare_iteration (D:=D) transition_supply sampler_draw.
Let prepare_loop := MCAgent.prepare_loop (D:=D) transition_supply sampler_draw.

Lemma take_inv st n :
  MCAgent.buffer_inv transition_supply st -> MCAgent.buffer_inv transition_supply (MCAgent.take transition_supply st n).
Proof.
  unfold MCAgent.buffer_inv, MCAgent.take. simpl. intro H.
  rewrite deque_extend_maxlen.
  rewrite (deque_extend_lastn _ _ _ H).
  now rewrite <- map_app, <- seq_app.
Qed.

Lemma take_maxlen st n :
  maxlen (MCAgent.memory (MCAgent.take transition_supply st n)) = maxlen (MCAgent.memory st).
Proof. unfold MCAgent.take. simpl. apply deque_extend_maxlen. Qed.

Lemma prepare_iteration_inv (self : MCAgent.agent D) p it st st' :
  prepare_iteration self p it st = Ok st' ->
  MCAgent.buffer_inv transition_supply st ->
  MCAgent.buffer_inv transition_supply st' /\ maxlen (MCAgent.memory st') = maxlen (MCAgent.memory st).
Proof.
  unfold prepare_iteration, MCAgent.prepare_iteration. intros H Hinv.
  rbind_inv H.
  assert (Hx0 : MCAgent.buffer_inv transition_supply x /\ maxlen (MCAgent.memory x) = maxlen (MCAgent.memory st)).
  { destruct p as [n|n].
    - rbind_inv Hx. injection Hx as <-.
      destruct (x0 =? 0)%Z.
      + split; [apply take_inv; exact Hinv | now rewrite take_maxlen].
      + split; [exact Hinv | reflexivity].
    - injection Hx as <-.
      split; [apply take_inv; exact Hinv | now rewrite take_maxlen]. }
  destruct Hx0 as [Hi Hm].
  rbind_inv H.
  destruct (_ <? _)%float.
  - injection H as <-. auto.
  - rbind_inv H. rbind_inv H. injection H as <-. simpl. auto.
Qed.

Lemma prepare_loop_inv (self : MCAgent.agent D) p n : forall it st st',
  prepare_loop self p it n st = Ok st' ->
  MCAgent.buffer_inv transition_supply st ->
  MCAgent.buffer_inv transition_supply st' /\ maxlen (MCAgent.memory st') = maxlen (MCAgent.memory st).
Proof.
  unfold prepare_loop.
  induction n as [|n IH]; intros it st st' H Hinv; simpl in H.
  - injection H as <-. auto.
  - rbind_inv H.
    destruct (prepare_iteration_inv _ _ _ _ _ Hx Hinv) as [Hi Hm].
    destruct (IH _ _ _ H Hi) as [Hi' Hm'].
    split; [exact Hi' | congruence].
Qed.

End ReplayBuffer.

(** C5. The replay buffer a batch thread creates has the fixed capacity
    [int(memory_size / num_threads)]; whatever is inserted, its size never
    exceeds that capacity and it holds exactly the most recent [capacity]
    insertions in insertion order, so that after [capacity + k] insertions
    the [k] oldest have been evicted.  The same holds of the thread's
    buffer after any number of rounds of its loop, for the transitions it
    has taken from the channel. *)
Theorem replay_buffer_keeps_most_recent
    (D : Type) (supply : nat -> MCAgent.transition) (draw : nat -> nat -> nat)
    (self : MCAgent.agent D) (st0 : MCAgent.assembler) (p : MCAgent.pace) :
  MCAgent.prepare_setup self = Ok (st0, p) ->
  exists (share : float) (cap : Z),
    py_truediv (float_of_Z (MCAgent._memory_size self))
               (float_of_Z (MCAgent._num_threads self)) = Ok share /\
    py_int share = Ok cap /\ (0 <= cap)%Z /\
    items (MCAgent.memory st0) = [] /\
    maxlen (MCAgent.memory st0) = Z.to_nat cap /\
    (forall xs : list MCAgent.transition,
        let m := deque_extend (MCAgent.memory st0) xs in
        maxlen m = Z.to_nat cap /\
        (deque_len m <= Z.to_nat cap)%nat /\
        items m = lastn (Z.to_nat cap) xs /\
        forall k, length xs = (Z.to_nat cap + k)%nat ->
                  deque_len m = Z.to_nat cap /\ items m = skipn k xs) /\
    (forall n st,
        MCAgent._prepare_batch supply draw self n = Ok st ->
        maxlen (MCAgent.memory st) = Z.to_nat cap /\
        (deque_len (MCAgent.memory st) <= Z.to_nat cap)%nat /\
        items (MCAgent.memory st) =
          lastn (Z.to_nat cap) (map supply (seq 0 (MCAgent.taken st)))).
Proof.
  intro Hsetup.
  pose proof Hsetup as Hs.
  unfold MCAgent.prepare_setup in Hs.
  rbind_inv Hs. rename x into share, Hx into Hshare.
  rbind_inv Hs. rename x into cap, Hx into Hcap.
  rbind_inv Hs. rename x into mem, Hx into Hmem.
  rbind_inv Hs. injection Hs as <- <-.
  destruct (deque_new_ok _ _ Hmem) as (Hitems & Hmax & Hpos).
  exists share, cap. simpl.
  repeat split; try assumption.
  - now rewrite deque_extend_maxlen.
  - unfold deque_len.
    rewrite (deque_extend_lastn xs mem []), Hmax by (rewrite Hitems; reflexivity).
    simpl. rewrite lastn_length. lia.
  - rewrite (deque_extend_lastn xs mem []), Hmax by (rewrite Hitems; reflexivity).
    reflexivity.
  - unfold deque_len.
    rewrite (deque_extend_lastn xs mem []), Hmax by (rewrite Hitems; reflexivity).
    simpl. rewrite lastn_length. lia.
  - rewrite (deque_extend_lastn xs mem []), Hmax by (rewrite Hitems; reflexivity).
    simpl. unfold lastn. f_equal. lia.
  - unfold MCAgent._prepare_batch in H. rewrite Hsetup in H. simpl in H.
    apply prepare_loop_inv in H; [|unfold MCAgent.buffer_inv; simpl; now rewrite Hitems].
    destruct H as [_ H]. simpl in H. congruence.
  - unfold MCAgent._prepare_batch in H. rewrite Hsetup in H. simpl in H.
    apply prepare_loop_inv in H; [|unfold MCAgent.buffer_inv; simpl; now rewrite Hitems].
    destruct H as [Hi Hm]. simpl in Hm. unfold deque_len. rewrite Hi, Hm, Hmax.
    rewrite lastn_length. lia.
  - unfold MCAgent._prepare_batch in H. rewrite Hsetup in H. simpl in H.
    apply prepare_loop_inv in H; [|unfold MCAgent.buffer_inv; simpl; now rewrite Hitems].
    destruct H as [Hi Hm]. simpl in Hm. rewrite Hi, Hm, Hmax. reflexivity.
Qed.

Lemma replay_buffer_keeps_most_recent_witness :
  exists st0 p,
    MCAgent.prepare_setup scenario_agent = Ok (st0, p) /\
    maxlen (MCAgent.memory st0) = 25%nat /\
    items (deque_extend (MCAgent.memory st0) (map numbered_supply (seq 0 30))) =
      map numbered_supply (seq 5 25).
Proof.
  eexists. eexists.
  assert (H : MCAgent.prepare_setup scenario_agent =
              Ok ({| MCAgent.memory := mkDeque [] 25; MCAgent.steps := 0;
                     MCAgent.taken := 0; MCAgent.put_batches := [] |},
                  MCAgent.frames_per_step 1))
    by (vm_compute; reflexivity).
  split; [exact H|].
  destruct (replay_buffer_keeps_most_recent nat numbered_supply first_draws
              scenario_agent _ _ H)
    as (share & cap & Hshare & Hcap & _ & _ & Hmax & Hany & _).
  vm_compute in Hshare. injection Hshare as <-.
  vm_compute in Hcap. injection Hcap as <-.
  split; [exact Hmax|].
  destruct (Hany (map numbered_supply (seq 0 30))) as (_ & _ & Hitems & _).
  rewrite Hitems. reflexivity.
Defined.

(** ** Return labelling in the actor worker (C1) *)

Section Labelling.

Variable D : Type.
Variable R : Type.
Context {arith : Arith R}.
Variable discount : R.

Lemma label_returns_cons (tr : step_record R) (rest : list (step_record R)) :
  @label_returns D R arith discount (tr :: rest) =
  @label_step D R arith discount (@label_returns D R arith discount rest) tr.
Proof.
  unfold label_returns. simpl. now rewrite fold_left_app.
Qed.

(** The loop over the reversed trajectory puts the labelled transitions,
    latest first, and ends with the return of the whole episode. *)
Lemma label_returns_labelled (transitions : list (step_record R)) :
  @label_returns D R arith discount transitions =
  (rev (@labelled D R arith discount transitions),
   @backward_return R arith discount (map (@reward_of R) transitions)).
Proof.
  induction transitions as [|[[o a] r] rest IH].
  - reflexivity.
  - rewrite label_returns_cons, IH. reflexivity.
Qed.

Lemma labelled_length (transitions : list (step_record R)) :
  length (@labelled D R arith discount transitions) = length transitions.
Proof. induction transitions as [|tr rest IH]; simpl; congruence. Qed.

Lemma labelled_nth (transitions : list (step_record R)) : forall t o a r,
  nth_error transitions t = Some (o, a, r) ->
  nth_error (@labelled D R arith discount transitions) t =
  Some (TransitionPut D o a
          (@backward_return R arith discount (map (@reward_of R) (skipn t transitions)))).
Proof.
  induction transitions as [|tr rest IH]; intros [|t] o a r H; simpl in H;
    try discriminate.
  - injection H as ->. reflexivity.
  - simpl. now apply IH with (r := r).
Qed.

End Labelling.

(** Sums of rationals over an initial segment of the naturals. *)

Lemma Qsum_shift (f : nat -> Q) (n : nat) :
  Qsum f (S n) = (f 0%nat + Qsum (fun k => f (S k)) n)%Q.
Proof.
  unfold Qsum. simpl. now rewrite <- seq_shift, map_map.
Qed.

Lemma Qsum_ext (f g : nat -> Q) (n : nat) :
  (forall k, f k == g k) -> Qsum f n == Qsum g n.
Proof.
  intro H. unfold Qsum. generalize 0%nat.
  induction n as [|n IH]; intro a; simpl; [reflexivity|].
  now rewrite H, IH.
Qed.

Lemma Qsum_scale (c : Q) (f : nat -> Q) (n : nat) :
  Qsum (fun k => c * f k) n == c * Qsum f n.
Proof.
  unfold Qsum. generalize 0%nat.
  induction n as [|n IH]; intro a; simpl; [ring|].
  rewrite IH. ring.
Qed.

(** Backward accumulation over exact rationals is the discounted sum. *)
Lemma backward_return_sum (gamma : Q) (rewards : list Q) :
  backward_return gamma rewards ==
  Qsum (fun k => Qpow gamma k * nth k rewards 0) (length rewards).
Proof.
  induction rewards as [|r rest IH].
  - reflexivity.
  - cbn [backward_return length]. rewrite Qsum_shift.
    cbn [nth Qpow add mul Q_Arith].
    rewrite (Qsum_ext (fun k => gamma * Qpow gamma k * nth k rest 0)
                      (fun k => gamma * (Qpow gamma k * nth k rest 0)))
      by (intro k; ring).
    rewrite Qsum_scale, IH. ring.
Qed.

Lemma nth_skipn_add {A} (t k : nat) (l : list A) (d : A) :
  nth k (skipn t l) d = nth (t + k) l d.
Proof.
  revert l. induction t as [|t IH]; intros [|x l]; simpl; try reflexivity.
  - now destruct k.
  - apply IH.
Qed.

Lemma reward_to_go_backward (gamma : Q) (rewards : list Q) (t : nat) :
  reward_to_go gamma rewards t == backward_return gamma (skipn t rewards).
Proof.
  rewrite backward_return_sum, length_skipn. unfold reward_to_go.
  apply Qsum_ext. intro k. now rewrite nth_skipn_add.
Qed.

Lemma nth_error_rev_index {A} (l : list A) (t : nat) :
  (t < length l)%nat ->
  nth_error (rev l) (length l - 1 - t) = nth_error l t.
Proof.
  intro H. rewrite nth_error_rev.
  destruct (Nat.ltb_spec (length l - 1 - t) (length l)) as [_|Hge]; [|lia].
  f_equal. lia.
Qed.

(** Over exact rationals the loop computes the discounted reward-to-go. *)
Lemma exact_return_is_reward_to_go
    (D : Type) (gamma : Q) (transitions : list (step_record Q)) :
  let puts := fst (label_returns D gamma transitions) in
  let T := length transitions in
  length puts = T /\
  (forall t obs action reward,
      nth_error transitions t = Some (obs, action, reward) ->
      exists G,
        nth_error puts (T - 1 - t) = Some (TransitionPut D obs action G) /\
        G == reward_to_go gamma (map (@reward_of Q) transitions) t) /\
  snd (label_returns D gamma transitions) ==
    reward_to_go gamma (map (@reward_of Q) transitions) 0.
Proof.
  cbv zeta. rewrite label_returns_labelled. cbn [fst snd].
  split; [|split].
  - now rewrite length_rev, labelled_length.
  - intros t obs action reward H.
    assert (Ht : (t < length transitions)%nat)
      by (apply nth_error_Some; congruence).
    eexists. split.
    + rewrite <- (labelled_length D Q gamma transitions).
      rewrite nth_error_rev_index by (rewrite labelled_length; exact Ht).
      apply labelled_nth with (r := reward). exact H.
    + rewrite reward_to_go_backward, skipn_map. reflexivity.
  - rewrite reward_to_go_backward. reflexivity.
Qed.

Lemma skipn_nth_error {A} (l : list A) : forall t x,
  nth_error l t = Some x -> skipn t l = x :: skipn (S t) l.
Proof.
  induction l as [|y l IH]; intros [|t] x H; try discriminate.
  - now injection H as ->.
  - cbn [skipn]. now apply IH.
Qed.

(** C1, as the program has it.  The loop that walks a finished trajectory
    in reverse pushes one transition per step, latest step first, and the
    return it attaches to the step at time [t] is the value [G t] of the
    accumulation [G <- G * discount + reward] carried out in binary64, each
    product and each sum rounded: [G T = 0.0] and
    [G t = G (t + 1) * discount + r_t]; the return of the first step is the
    outcome of the episode.  Carried out over exact rationals, the same loop
    gives the discounted reward-to-go, the sum over [k] from 0 to
    [T - 1 - t] of [gamma ^ k * r_(t + k)]. *)
Theorem labeled_return_is_backward_accumulation
    (D : Type) (discount : float) (transitions : list (step_record float))
    (gamma : Q) (exact : list (step_record Q)) :
  (let puts := fst (label_returns D discount transitions) in
   let T := length transitions in
   exists G : nat -> float,
     G T = 0%float /\
     length puts = T /\
     (forall t obs action reward,
         nth_error transitions t = Some (obs, action, reward) ->
         G t = (G (S t) * discount + reward)%float /\
         nth_error puts (T - 1 - t) = Some (TransitionPut D obs action (G t))) /\
     snd (label_returns D discount transitions) = G 0%nat) /\
  (let puts := fst (label_returns D gamma exact) in
   let T := length exact in
   length puts = T /\
   (forall t obs action reward,
       nth_error exact t = Some (obs, action, reward) ->
       exists G,
         nth_error puts (T - 1 - t) = Some (TransitionPut D obs action G) /\
         G == reward_to_go gamma (map (@reward_of Q) exact) t) /\
   snd (label_returns D gamma exact) ==
     reward_to_go gamma (map (@reward_of Q) exact) 0).
Proof.
  split; [|apply exact_return_is_reward_to_go].
  cbv zeta. rewrite label_returns_labelled. cbn [fst snd].
  exists (fun t => @backward_return float float_Arith discount
                     (map (@reward_of float) (skipn t transitions))).
  split; [now rewrite skipn_all|].
  split; [now rewrite length_rev, labelled_length|].
  split; [|reflexivity].
  intros t obs action reward H.
  assert (Ht : (t < length transitions)%nat)
    by (apply nth_error_Some; congruence).
  split.
  - rewrite (skipn_nth_error transitions t _ H). reflexivity.
  - rewrite <- (labelled_length D float discount transitions).
    rewrite nth_error_rev_index by (rewrite labelled_length; exact Ht).
    apply labelled_nth with (r := reward). exact H.
Qed.

Lemma labeled_return_is_backward_accumulation_witness :
  exists (Gf : float) (Gq : Q),
    nth_error (fst (label_returns nat 0.9%float example_trajectory_float)) 3 =
      Some (TransitionPut nat [[0%Z]] 0%nat Gf) /\
    Gf = 0.27099999999999991%float /\
    nth_error (fst (label_returns nat (9 # 10) example_trajectory)) 3 =
      Some (TransitionPut nat [[0%Z]] 0%nat Gq) /\
    Gq == 271 # 1000.
Proof.
  destruct (labeled_return_is_backward_accumulation nat 0.9%float example_trajectory_float
              (9 # 10) example_trajectory)
    as [(G & _ & _ & Hstep & Hout) (_ & Hexact & _)].
  destruct (Hstep 0%nat [[0%Z]] 0%nat 1%float eq_refl) as [_ Hput0].
  destruct (Hexact 0%nat [[0%Z]] 0%nat 1%Q eq_refl) as (Gq & Hputq & Heq).
  exists (G 0%nat), Gq.
  split; [exact Hput0|]. split; [|split; [exact Hputq|]].
  - rewrite <- Hout. vm_compute. reflexivity.
  - rewrite Heq. reflexivity.
Defined.

(** The specification has the attached return equal the discounted
    reward-to-go.  On the rewards 10^16, 1, -10^16 (each a binary64 number)
    with discount 1 the reward-to-go of the first step is 1, and that is
    what the loop gives over exact rationals; the program's loop, on
    binary64, gives 0: the sum [-10^16 + 1] rounds to [-10^16]. *)
Lemma binary64_return_is_not_reward_to_go :
  map (fun tr => py_int (reward_of tr)) absorbed_trajectory_float
    = map (@Ok Z) absorbed_rewards /\
  map (@reward_of Q) absorbed_trajectory = map inject_Z absorbed_rewards /\
  label_returns nat 1%float absorbed_trajectory_float =
    ([TransitionPut nat [[(- 10 ^ 16)%Z]] 0%nat (float_of_Z (- 10 ^ 16));
      TransitionPut nat [[1%Z]] 0%nat (float_of_Z (- 10 ^ 16));
      TransitionPut nat [[(10 ^ 16)%Z]] 0%nat 0%float],
     0%float) /\
  reward_to_go 1 (map (@reward_of Q) absorbed_trajectory) 0 == 1 /\
  snd (label_returns nat 1%Q absorbed_trajectory) == 1.
Proof.
  split; [vm_compute; reflexivity|]. split; [reflexivity|].
  split; [vm_compute; reflexivity|]. split; vm_compute; reflexivity.
Qed.

(** On binary64, as the program runs it, the example of the specification
    comes out rounded. *)
Example label_returns_binary64 :
  label_returns nat 0.9%float example_trajectory_float =
  ([TransitionPut nat [[3%Z]] 0%nat (-1)%float;
    TransitionPut nat [[2%Z]] 2%nat (-0.9)%float;
    TransitionPut nat [[1%Z]] 1%nat (-0.81000000000000005)%float;
    TransitionPut nat [[0%Z]] 0%nat 0.27099999999999991%float],
   0.27099999999999991%float).
Proof. vm_compute. reflexivity. Qed.

(** ** Faults inside an episode (C9) *)



Lemma wbind_raised {E X Y} (evs : list E) (e : exn) (k : X -> W E Y) :
  wbind (evs, Raised e) k = (evs, Raised e).
Proof. reflexivity. Qed.

Section WorkerFaults.

Variable D : Type.
Variable R : Type.
Context {arith : Arith R}.
Variable env : environment D R.
Variable q_network : network.
Variable difficulties : list D.
Variable discount : R.
Variable space : action_space.
Variable use_curriculum : bool.
Variable w : world.
Variable pid : Z.

Let episode := run_episode env q_network difficulties discount space use_curriculum w pid.


(** A fault of action selection or of the environment's step ends the
    loop over the steps of the episode with that fault. *)
Lemma run_steps_act_fault (fuel k j : nat) s obs trs e :
  act space q_network obs (eps_read w k j) (uniform_draw w k j) (sample_draw w k j)
    = Raise e ->
  run_steps env q_network space w (S fuel) k j s obs trs = ([], Raised e).
Proof. intro H. simpl. rewrite H. reflexivity. Qed.

Lemma run_steps_step_fault (fuel k j : nat) s obs trs a e :
  act space q_network obs (eps_read w k j) (uniform_draw w k j) (sample_draw w k j)
    = Ok a ->
  env_step env s a = Raise e ->
  run_steps env q_network space w (S fuel) k j s obs trs = ([], Raised e).
Proof. intros Ha He. simpl. rewrite Ha. simpl. rewrite He. reflexivity. Qed.

(** The loop over the steps writes nothing on the channels. *)
Lemma run_steps_silent (fuel : nat) : forall k j s obs trs,
  fst (run_steps env q_network space w fuel k j s obs trs) = [].
Proof.
  induction fuel as [|fuel IH]; intros k j s obs trs; simpl; [reflexivity|].
  destruct (act _ _ _ _ _ _) as [a|e]; simpl; [|reflexivity].
  destruct (env_step env s a) as [[s' [[o r] done]]|e]; simpl; [|reflexivity].
  destruct done; simpl; [reflexivity|].
  specialize (IH k (S j) s' o (trs ++ [(obs, a, r)])).
  destruct (run_steps _ _ _ _ _ _ _ _ _ _) as [evs out]. simpl in *. now subst.
Qed.


(** An episode in whose steps a fault is raised ends with it, having put
    nothing: the transitions recorded so far are lost with it. *)
Lemma run_episode_step_fault (fuel k : nat) d s0 s1 obs e :
  let random_seed := Z.land (pid * 11111111 + clock_ms w k) 0xFFFFFFFF in
  (if use_curriculum then py_index difficulties (difficulty_idx w k)
   else random_choice difficulties (choice_draw w k)) = Ok d ->
  env_create_fn env d random_seed = Ok s0 ->
  env_reset env s0 = Ok (s1, obs) ->
  snd (run_steps env q_network space w fuel k 0 s1 obs []) = Raised e ->
  episode fuel k =
  ([LogSeed D R random_seed; EnvCreated R d random_seed], Raised e).
Proof.
  cbv zeta. intros Hd Hc Hr Hs.
  unfold episode, run_episode. rewrite Hd. simpl. rewrite Hc. simpl.
  rewrite Hr. simpl.
  pose proof (run_steps_silent fuel k 0 s1 obs []) as Hsil.
  destruct (run_steps _ _ _ _ _ _ _ _ _ _) as [evs out]. simpl in Hs, Hsil.
  subst evs out. reflexivity.
Qed.


End WorkerFaults.




(** ** Action selection under a mask (C7) *)

Lemma ltb_neg_infinity (y : float) : (y <? neg_infinity)%float = false.
Proof.
  rewrite ltb_spec.
  replace (Prim2SF neg_infinity) with (S754_infinity true) by reflexivity.
  unfold SFltb. destruct (Prim2SF y) as [s|s| |s m e]; simpl;
    try reflexivity; destruct s; reflexivity.
Qed.

(** Where [argmax_from] ends: on the position it started with, nothing after
    it having compared above the starting value, or on a later position
    whose value compared above some value. *)
Lemma argmax_from_spec (l : list float) : forall best bv i,
  (best < i)%nat ->
  let r := argmax_from best bv i l in
  (r = best /\ forall x, In x l -> (bv <? x)%float = false) \/
  (exists k x y, r = (i + k)%nat /\ nth_error l k = Some x /\ (y <? x)%float = true).
Proof.
  induction l as [|x l IH]; intros best bv i Hlt; cbv zeta; simpl.
  - left. split; [reflexivity | intros x []].
  - destruct (bv <? x)%float eqn:E.
    + right. destruct (IH i x (S i) (Nat.lt_succ_diag_r i)) as [[Hr _]|(k & x' & y & Hr & Hk & Hy)].
      * exists 0%nat, x, bv. rewrite Hr. simpl. auto using Nat.add_0_r.
      * exists (S k), x', y. rewrite Hr. simpl. split; [lia | auto].
    + destruct (IH best bv (S i) (Nat.lt_lt_succ_r _ _ Hlt)) as [[Hr Hall]|(k & x' & y & Hr & Hk & Hy)].
      * left. split; [exact Hr|]. intros x' [<-|Hin]; auto.
      * right. exists (S k), x', y. rewrite Hr. simpl. split; [lia | auto].
Qed.

Lemma mask_fill_nth (q : list float) (mask : ndarray) (q' : list float) :
  mask_fill q mask = Ok q' ->
  length q' = length mask /\ length q = length mask /\
  forall j x, nth_error q' j = Some x ->
    exists v m, nth_error q j = Some v /\ nth_error mask j = Some m /\
                x = if (m =? 0)%Z then neg_infinity else v.
Proof.
  unfold mask_fill. destruct (Nat.eqb_spec (length q) (length mask)) as [Hlen|]; [|discriminate].
  intro H. injection H as <-.
  split; [|split; [exact Hlen|]].
  - rewrite length_map, length_combine. lia.
  - intros j x Hj. rewrite nth_error_map in Hj.
    destruct (nth_error (combine q mask) j) as [[v m]|] eqn:E; [|discriminate].
    injection Hj as <-. simpl.
    exists v, m.
    revert j mask Hlen E. induction q as [|a q IHq]; intros [|j] [|b mask] Hlen E;
      simpl in *; try discriminate.
    + injection E as -> ->. auto.
    + destruct (IHq j mask) as (H1 & H2 & H3); auto.
Qed.

Lemma argmax_masked_valid (q : list float) (mask : ndarray) (q' : list float) :
  mask_fill q mask = Ok q' ->
  (exists j v, valid_action mask j /\ nth_error q j = Some v /\
               (neg_infinity <? v)%float = true) ->
  exists a, argmax q' = Ok a /\ valid_action mask a.
Proof.
  intros Hfill (j & v & (mj & Hmj & Hnz) & Hv & Hgt).
  destruct (mask_fill_nth _ _ _ Hfill) as (Hlen' & Hlen & Hnth).
  (* the entry of the filled row at the valid position [j] is [v] *)
  assert (Hj : nth_error q' j = Some v).
  { destruct (nth_error q' j) as [x|] eqn:E.
    - destruct (Hnth _ _ E) as (v' & m' & Hv' & Hm' & ->).
      rewrite Hv in Hv'. injection Hv' as <-.
      rewrite Hmj in Hm'. injection Hm' as <-.
      destruct (Z.eqb_spec mj 0); [contradiction | reflexivity].
    - apply nth_error_None in E.
      assert (j < length mask)%nat by (apply nth_error_Some; congruence). lia. }
  destruct q' as [|x0 l]; [destruct j; discriminate|].
  simpl. eexists. split; [reflexivity|].
  destruct (argmax_from_spec l 0 x0 1 Nat.lt_0_1) as [[Hr Hall]|(k & x & y & Hr & Hk & Hy)];
    cbv zeta in *; rewrite Hr.
  - destruct (Hnth 0%nat x0 eq_refl) as (v0 & m0 & Hv0 & Hm0 & Hx0).
    exists m0. split; [exact Hm0|]. intro Hz. subst m0. simpl in Hx0. subst x0.
    destruct j as [|j'].
    + rewrite Hmj in Hm0. injection Hm0 as ->. contradiction.
    + simpl in Hj. apply nth_error_In in Hj. apply Hall in Hj. congruence.
  - destruct (Hnth (S k) x Hk) as (v' & m' & Hv' & Hm' & Hx).
    exists m'. split; [exact Hm'|]. intro Hz. subst m'. simpl in Hx. subst x.
    rewrite ltb_neg_infinity in Hy. discriminate.
Qed.

Lemma np_nonzero_valid (mask : ndarray) (a : nat) :
  In a (np_nonzero mask) <-> valid_action mask a.
Proof.
  unfold np_nonzero, valid_action. rewrite filter_In, in_seq. split.
  - intros [[_ Hlt] Hnz]. simpl in Hlt.
    destruct (nth_error mask a) as [m|] eqn:E.
    + exists m. split; [reflexivity|].
      rewrite (nth_error_nth _ _ 0%Z E) in Hnz.
      destruct (Z.eqb_spec m 0); [discriminate | assumption].
    + apply nth_error_None in E. lia.
  - intros (m & Hm & Hnz). split.
    + split; [lia|]. simpl. apply nth_error_Some. congruence.
    + rewrite (nth_error_nth _ _ 0%Z Hm).
      destruct (Z.eqb_spec m 0); [contradiction | reflexivity].
Qed.

Lemma np_nonzero_NoDup (mask : ndarray) : NoDup (np_nonzero mask).
Proof. unfold np_nonzero. apply NoDup_filter, seq_NoDup. Qed.

Lemma preprocess_masked (n : nat) (features : list ndarray) (mask : ndarray) :
  preprocess_observation (MaskDiscrete n) (features ++ [mask]) =
  Ok (model_input features, Some mask).
Proof.
  unfold preprocess_observation, py_index. simpl is_MaskDiscrete. cbv iota.
  rewrite length_app. simpl length.
  replace (-1 <? 0)%Z with true by reflexivity.
  replace ((0 <=? -1 + Z.of_nat (length features + 1))%Z) with true
    by (symmetry; apply Z.leb_le; lia).
  replace ((-1 + Z.of_nat (length features + 1) <? Z.of_nat (length features + 1))%Z)
    with true by (symmetry; apply Z.ltb_lt; lia).
  simpl andb. cbv iota.
  replace (Z.to_nat (-1 + Z.of_nat (length features + 1))) with (length features) by lia.
  rewrite nth_error_app2, Nat.sub_diag by lia. simpl.
  rewrite removelast_last. reflexivity.
Qed.

(** C7, as the program has it.  With a [MaskDiscrete] action space, [act]
    takes the last component of the observation tuple as the validity mask
    and hands the network the observation without it.  When it exploits, it
    returns the arg-max of the action values in which every masked-out
    action (mask entry 0) has been set to negative infinity; when it
    explores, it returns the entry of [np.nonzero(mask)], the
    duplicate-free list of exactly the allowed actions, that the sampler's
    uniform draw points at.  The action returned is an allowed one when it
    explores and the mask allows some action, and when it exploits and the
    network's value of some allowed action compares above negative infinity
    (the row of values having the mask's length). *)
Theorem masked_action_selection
    (n : nat) (q_network : network) (features : list ndarray) (mask : ndarray)
    (eps u : float) (draw : nat) :
  let space := MaskDiscrete n in
  let obs := features ++ [mask] in
  preprocess_observation space obs = Ok (model_input features, Some mask) /\
  ((eps <=? u)%float = true ->
     act space q_network obs eps u draw =
       (q <- q_network (model_input features) ;;
        q <- mask_fill q mask ;;
        argmax q)%py /\
     forall q,
       q_network (model_input features) = Ok q ->
       length q = length mask ->
       (exists j v, valid_action mask j /\ nth_error q j = Some v /\
                    (neg_infinity <? v)%float = true) ->
       exists a, act space q_network obs eps u draw = Ok a /\ valid_action mask a) /\
  ((eps <=? u)%float = false ->
     act space q_network obs eps u draw = MaskDiscrete_sample (np_nonzero mask) draw /\
     NoDup (np_nonzero mask) /\
     (forall a, In a (np_nonzero mask) <-> valid_action mask a) /\
     ((exists j, valid_action mask j) ->
      exists a, act space q_network obs eps u draw = Ok a /\ valid_action mask a /\
                nth_error (np_nonzero mask) (draw mod length (np_nonzero mask)) = Some a)).
Proof.
  cbv zeta. split; [apply preprocess_masked|]. split.
  - intro Hexploit.
    assert (Hact : act (MaskDiscrete n) q_network (features ++ [mask]) eps u draw =
                   (q <- q_network (model_input features) ;;
                    q <- mask_fill q mask ;; argmax q)%py).
    { unfold act. rewrite Hexploit, preprocess_masked. reflexivity. }
    split; [exact Hact|].
    intros q Hq Hlen Hvalid. rewrite Hact, Hq. simpl.
    destruct (mask_fill q mask) as [q'|e] eqn:Hfill.
    + simpl. now apply argmax_masked_valid with (q := q).
    + unfold mask_fill in Hfill. rewrite Hlen, Nat.eqb_refl in Hfill. discriminate.
  - intro Hexplore.
    assert (Hact : act (MaskDiscrete n) q_network (features ++ [mask]) eps u draw =
                   MaskDiscrete_sample (np_nonzero mask) draw).
    { unfold act. rewrite Hexplore, preprocess_masked. reflexivity. }
    split; [exact Hact|]. split; [apply np_nonzero_NoDup|].
    split; [apply np_nonzero_valid|].
    intros (j & Hj). rewrite Hact. apply np_nonzero_valid in Hj.
    unfold MaskDiscrete_sample.
    destruct (np_nonzero mask) as [|a0 rest] eqn:E; [destruct Hj|].
    assert (Hlt : (draw mod length (a0 :: rest) < length (a0 :: rest))%nat)
      by (apply Nat.mod_upper_bound; discriminate).
    eexists. split; [reflexivity|]. split.
    + apply np_nonzero_valid. rewrite E. now apply nth_In.
    + now apply nth_error_nth'.
Qed.

Lemma masked_action_selection_witness :
  act (MaskDiscrete 3) constant_network [[5%Z]; [1; 0; 1]%Z] 0.1 0.5 0 = Ok 0%nat /\
  act (MaskDiscrete 3) constant_network [[5%Z]; [1; 0; 1]%Z] 0.9 0.5 1 = Ok 2%nat.
Proof.
  destruct (masked_action_selection 3 constant_network [[5%Z]] [1; 0; 1]%Z 0.1 0.5 0)
    as (_ & Hexploit & _).
  destruct (masked_action_selection 3 constant_network [[5%Z]] [1; 0; 1]%Z 0.9 0.5 1)
    as (_ & _ & Hexplore).
  split.
  - destruct (Hexploit eq_refl) as [Heq _].
    etransitivity; [exact Heq | reflexivity].
  - destruct (Hexplore eq_refl) as [Heq _].
    etransitivity; [exact Heq | reflexivity].
Defined.

(** The specification has both branches return valid actions only.  With
    the mask [0; 1] action 1 is allowed; the network gives it the value
    negative infinity, the fill gives action 0 the same value, and the
    arg-max settles on action 0, which the mask forbids. *)
Lemma masked_argmax_returns_forbidden_action :
  valid_action [0; 1]%Z 1 /\
  saturated_network (model_input [[5%Z]]) = Ok [0.5; neg_infinity]%float /\
  mask_fill [0.5; neg_infinity]%float [0; 1]%Z = Ok [neg_infinity; neg_infinity] /\
  act (MaskDiscrete 2) saturated_network [[5%Z]; [0; 1]%Z] 0.1 0.5 0 = Ok 0%nat /\
  ~ valid_action [0; 1]%Z 0.
Proof.
  split; [exists 1%Z; split; [reflexivity | discriminate]|].
  split; [reflexivity|]. split; [reflexivity|]. split; [vm_compute; reflexivity|].
  intros (m & Hm & Hnz). cbn in Hm. injection Hm as <-. now contradiction Hnz.
Qed.

(** ** The exploration-rate schedule (C4) *)

Lemma decreasing_between_spec (f : Z -> result float) (lo : Z) (n : nat) :
  decreasing_between f lo n = true ->
  forall s t, (lo <= s)%Z -> (s < t)%Z -> (t <= lo + Z.of_nat n)%Z ->
    strictly_below f s t = true.
Proof.
  unfold decreasing_between. intros H s t Hlo Hst Hhi.
  rewrite forallb_forall in H.
  assert (Hs : In (Z.to_nat (s - lo)) (seq 0 (S n))) by (apply in_seq; lia).
  apply H in Hs. rewrite forallb_forall in Hs.
  assert (Ht : In (Z.to_nat (t - lo)) (seq (S (Z.to_nat (s - lo))) (n - Z.to_nat (s - lo))))
    by (apply in_seq; lia).
  apply Hs in Ht.
  replace (lo + Z.of_nat (Z.to_nat (s - lo)))%Z with s in Ht by lia.
  replace (lo + Z.of_nat (Z.to_nat (t - lo)))%Z with t in Ht by lia.
  exact Ht.
Qed.

(** The schedule reads five attributes only. *)
Lemma linear_schedule_of_scenario (D : Type) (math_exp : float -> float)
    (self : MCAgent.agent D) (t : Z) :
  MCAgent._eps_method self = "linear"%string ->
  MCAgent._eps_start self = 1.0%float ->
  MCAgent._eps_end self = 0.1%float ->
  MCAgent._eps_decay self = 100%Z ->
  MCAgent._eps_decay2 self = 200%Z ->
  MCAgent._get_current_eps math_exp self t =
  MCAgent._get_current_eps (fun x => x) scenario_agent t.
Proof.
  intros Hm Hs He Hd Hd2. unfold MCAgent._get_current_eps.
  rewrite Hm, Hs, He, Hd, Hd2. reflexivity.
Qed.

Lemma scenario_schedule_floor (t : Z) :
  (200 <= t)%Z ->
  MCAgent._get_current_eps (fun x => x) scenario_agent t = Ok 0.01%float.
Proof.
  intro H. unfold MCAgent._get_current_eps.
  change (MCAgent._eps_method scenario_agent) with "linear"%string.
  change (MCAgent._eps_decay scenario_agent) with 100%Z.
  change (MCAgent._eps_decay2 scenario_agent) with 200%Z.
  change ("linear" =? "exponential")%string with false.
  change ("linear" =? "linear")%string with true. cbv iota.
  destruct (Z.ltb_spec t 100); [lia|].
  destruct (Z.ltb_spec t 200); [lia|].
  reflexivity.
Qed.

(** C4. For the linear schedule with [eps_start = 1.0], [eps_end = 0.1],
    [eps_decay = 100] and [eps_decay2 = 200], the rate computed for step
    [t], in binary64 as the program computes it, is exactly 1.0 at 0,
    exactly 0.1 at 100, strictly decreasing in [t] on [0, 100] and on
    [100, 200], and exactly 0.01 for every [t >= 200]. *)
Theorem linear_schedule_values
    (D : Type) (math_exp : float -> float) (self : MCAgent.agent D) :
  MCAgent._eps_method self = "linear"%string ->
  MCAgent._eps_start self = 1.0%float ->
  MCAgent._eps_end self = 0.1%float ->
  MCAgent._eps_decay self = 100%Z ->
  MCAgent._eps_decay2 self = 200%Z ->
  let eps := MCAgent._get_current_eps math_exp self in
  eps 0%Z = Ok 1.0%float /\
  eps 100%Z = Ok 0.1%float /\
  (forall s t, (0 <= s)%Z -> (s < t)%Z -> (t <= 100)%Z ->
     exists x y, eps s = Ok x /\ eps t = Ok y /\ (y <? x)%float = true) /\
  (forall s t, (100 <= s)%Z -> (s < t)%Z -> (t <= 200)%Z ->
     exists x y, eps s = Ok x /\ eps t = Ok y /\ (y <? x)%float = true) /\
  (forall t, (200 <= t)%Z -> eps t = Ok 0.01%float).
Proof.
  intros Hm Hs He Hd Hd2. cbv zeta.
  assert (Heq : forall t, MCAgent._get_current_eps math_exp self t =
                          MCAgent._get_current_eps (fun x => x) scenario_agent t)
    by (intro t; now apply linear_schedule_of_scenario).
  assert (Hdec : forall lo n,
             decreasing_between (MCAgent._get_current_eps (fun x => x) scenario_agent) lo n = true ->
             forall s t, (lo <= s)%Z -> (s < t)%Z -> (t <= lo + Z.of_nat n)%Z ->
               exists x y, MCAgent._get_current_eps math_exp self s = Ok x /\
                           MCAgent._get_current_eps math_exp self t = Ok y /\
                           (y <? x)%float = true).
  { intros lo n Hchk s t H1 H2 H3.
    pose proof (decreasing_between_spec _ lo n Hchk s t H1 H2 H3) as Hb.
    unfold strictly_below in Hb. rewrite !Heq.
    destruct (MCAgent._get_current_eps _ scenario_agent s) as [x|]; [|discriminate].
    destruct (MCAgent._get_current_eps _ scenario_agent t) as [y|]; [|discriminate].
    eauto. }
  repeat split.
  - rewrite Heq. vm_compute. reflexivity.
  - rewrite Heq. vm_compute. reflexivity.
  - intros s t H1 H2 H3. apply (Hdec 0%Z 100%nat); [vm_compute; reflexivity | lia..].
  - intros s t H1 H2 H3. apply (Hdec 100%Z 100%nat); [vm_compute; reflexivity | lia..].
  - intros t Ht. rewrite Heq. now apply scenario_schedule_floor.
Qed.

Lemma linear_schedule_values_witness :
  MCAgent._get_current_eps (fun x => x) scenario_agent 0 = Ok 1.0%float /\
  MCAgent._get_current_eps (fun x => x) scenario_agent 100 = Ok 0.1%float /\
  MCAgent._get_current_eps (fun x => x) scenario_agent 12345 = Ok 0.01%float.
Proof.
  destruct (linear_schedule_values nat (fun x => x) scenario_agent
              eq_refl eq_refl eq_refl eq_refl eq_refl)
    as (H0 & H100 & _ & _ & Hfloor).
  split; [exact H0|]. split; [exact H100|]. apply Hfloor. lia.
Defined.

(** ** The curriculum (C2, C3) *)

Section Curriculum.

Variable D : Type.

Lemma c_int_small (z : Z) : (- 2 ^ 31 <= z < 2 ^ 31)%Z -> c_int z = z.
Proof.
  intro H. unfold c_int. rewrite Z.mod_small by lia. lia.
Qed.

Lemma py_index_in_range {A} (l : list A) (i : Z) :
  (0 <= i < Z.of_nat (length l))%Z -> exists x, py_index l i = Ok x.
Proof.
  intro H. unfold py_index.
  destruct (Z.ltb_spec i 0); [lia|].
  destruct (Z.leb_spec 0 i); [|lia].
  destruct (Z.ltb_spec i (Z.of_nat (length l))); [|lia]. simpl.
  destruct (nth_error l (Z.to_nat i)) as [x|] eqn:E; [eauto|].
  apply nth_error_None in E. lia.
Qed.

Lemma py_index_raises {A} (l : list A) (i : Z) e :
  (0 <= i)%Z -> py_index l i = Raise e -> (Z.of_nat (length l) <= i)%Z.
Proof.
  intros H0 H.
  destruct (Z.lt_ge_cases i (Z.of_nat (length l))) as [Hlt|Hge]; [|exact Hge].
  destruct (py_index_in_range l i (conj H0 Hlt)) as [x Hx]. congruence.
Qed.

Lemma winning_rate_of_full (recent : deque float) :
  deque_len recent = 1000%nat ->
  MCAgent.winning_rate_of recent =
  Ok ((py_sum (items recent) / float_of_Z (Z.of_nat (deque_len recent)) + 1.0) / 2.0)%float.
Proof.
  intro H. unfold MCAgent.winning_rate_of, py_truediv. rewrite H. reflexivity.
Qed.

(** What a curriculum update leaves behind. *)
Lemma update_curriculum_state (self : MCAgent.agent D) (queue : list float) :
  (0 <= MCAgent._cur_difficulty_idx self)%Z ->
  (Z.of_nat (length (MCAgent._difficulties self)) <= 2 ^ 31)%Z ->
  maxlen (MCAgent._recent_outcomes self) = 1000%nat ->
  let recent := deque_extend (MCAgent._recent_outcomes self) queue in
  fst (MCAgent._update_curriculum_difficulty self queue) =
  if MCAgent.curriculum_advances self queue
  then MCAgent.set_curriculum self (MCAgent._cur_difficulty_idx self + 1) (deque_clear recent)
  else MCAgent.set_curriculum self (MCAgent._cur_difficulty_idx self) recent.
Proof.
  intros Hidx Hlen Hmax. cbv zeta.
  unfold MCAgent._update_curriculum_difficulty, MCAgent.curriculum_advances.
  set (recent := deque_extend (MCAgent._recent_outcomes self) queue).
  assert (Hmax' : maxlen recent = 1000%nat)
    by (unfold recent; now rewrite deque_extend_maxlen).
  destruct (negb (length queue =? 0)%nat); simpl; [|reflexivity].
  destruct (Nat.eqb_spec (deque_len recent) (maxlen recent)) as [Hfull|]; simpl;
    [|reflexivity].
  rewrite winning_rate_of_full by congruence.
  destruct (py_index (MCAgent._difficulties self) (MCAgent._cur_difficulty_idx self))
    as [d|e] eqn:Ei.
  - destruct (_ <=? _)%float; simpl; [|reflexivity].
    destruct (Z.ltb_spec (MCAgent._cur_difficulty_idx self + 1)
                (Z.of_nat (length (MCAgent._difficulties self)))) as [Hhi|]; simpl;
      [|reflexivity].
    rewrite c_int_small by lia. reflexivity.
  - apply py_index_raises in Ei; [|exact Hidx]. simpl.
    destruct (Z.ltb_spec (MCAgent._cur_difficulty_idx self + 1)
                (Z.of_nat (length (MCAgent._difficulties self)))) as [Hhi|]; [lia|].
    now rewrite andb_false_r.
Qed.

(** The update completes when the index points at a level. *)
Lemma update_curriculum_ok (self : MCAgent.agent D) (queue : list float) :
  (0 <= MCAgent._cur_difficulty_idx self
     < Z.of_nat (length (MCAgent._difficulties self)))%Z ->
  maxlen (MCAgent._recent_outcomes self) = 1000%nat ->
  snd (MCAgent._update_curriculum_difficulty self queue) = Ok tt.
Proof.
  intros Hidx Hmax. unfold MCAgent._update_curriculum_difficulty.
  set (recent := deque_extend (MCAgent._recent_outcomes self) queue).
  assert (Hmax' : maxlen recent = 1000%nat)
    by (unfold recent; now rewrite deque_extend_maxlen).
  destruct (negb (length queue =? 0)%nat); simpl; [|reflexivity].
  destruct (Nat.eqb_spec (deque_len recent) (maxlen recent)) as [Hfull|]; simpl;
    [|reflexivity].
  rewrite winning_rate_of_full by congruence.
  destruct (py_index_in_range (MCAgent._difficulties self)
              (MCAgent._cur_difficulty_idx self) Hidx) as [d Hd].
  simpl in *. rewrite Hd.
  destruct (_ && _); reflexivity.
Qed.

Lemma curriculum_advances_due (self : MCAgent.agent D) (queue : list float) :
  MCAgent.curriculum_advances self queue =
  negb (length queue =? 0)%nat
  && MCAgent.advance_due self (deque_extend (MCAgent._recent_outcomes self) queue).
Proof.
  unfold MCAgent.curriculum_advances, MCAgent.advance_due.
  now rewrite !andb_assoc.
Qed.

(** Between updates no advance is due, so that the requirement of a new
    outcome adds nothing. *)
Lemma curriculum_advances_inv (self0 st : MCAgent.agent D) (queue : list float) :
  MCAgent.curriculum_inv self0 st ->
  MCAgent.curriculum_advances st queue =
  MCAgent.advance_due st (deque_extend (MCAgent._recent_outcomes st) queue).
Proof.
  intros (_ & _ & _ & _ & Hdue). rewrite curriculum_advances_due.
  destruct queue as [|x queue]; simpl; [|reflexivity].
  symmetry. exact Hdue.
Qed.

Lemma curriculum_inv_step (self0 st : MCAgent.agent D) (queue : list float) :
  (Z.of_nat (length (MCAgent._difficulties self0)) <= 2 ^ 31)%Z ->
  MCAgent.curriculum_inv self0 st ->
  MCAgent.curriculum_inv self0 (fst (MCAgent._update_curriculum_difficulty st queue)).
Proof.
  intros Hlen Hinv.
  pose proof (curriculum_advances_inv _ _ queue Hinv) as Hadv.
  destruct Hinv as (Hd & Ht & Hmax & Hidx & Hdue).
  rewrite update_curriculum_state by (try lia; try assumption; rewrite Hd; exact Hlen).
  rewrite Hadv.
  destruct (MCAgent.advance_due st (deque_extend (MCAgent._recent_outcomes st) queue))
    eqn:E.
  - (* advance: the index moves up below the number of levels, the window is empty *)
    unfold MCAgent.advance_due in E.
    apply andb_prop in E. destruct E as [_ Hhi]. apply Z.ltb_lt in Hhi.
    unfold MCAgent.curriculum_inv. simpl.
    repeat split; try assumption; try lia.
    + now rewrite deque_extend_maxlen.
    + unfold MCAgent.advance_due, deque_len. simpl.
      now rewrite deque_extend_maxlen, Hmax.
  - unfold MCAgent.curriculum_inv. simpl.
    repeat split; try assumption; try lia.
    now rewrite deque_extend_maxlen.
Qed.

Lemma curriculum_inv_init (c : MCAgent.config D) :
  MCAgent.difficulties c <> [] ->
  MCAgent.curriculum_inv (MCAgent.attributes c) (MCAgent.attributes c).
Proof.
  intro Hne. unfold MCAgent.curriculum_inv. simpl.
  repeat split.
  - unfold c_int. simpl. lia.
  - unfold c_int. simpl. destruct (MCAgent.difficulties c); [contradiction|].
    simpl length. lia.
Qed.

Lemma curriculum_inv_run (self0 : MCAgent.agent D) (queues : list (list float)) :
  (Z.of_nat (length (MCAgent._difficulties self0)) <= 2 ^ 31)%Z ->
  forall st, MCAgent.curriculum_inv self0 st ->
             MCAgent.curriculum_inv self0 (MCAgent.run_curriculum st queues).
Proof.
  intro Hlen. unfold MCAgent.run_curriculum.
  induction queues as [|q queues IH]; intros st Hinv; simpl; [exact Hinv|].
  apply IH. now apply curriculum_inv_step.
Qed.

End Curriculum.

Lemma curriculum_advances_true (D : Type) (self : MCAgent.agent D) (queue : list float) :
  let recent := deque_extend (MCAgent._recent_outcomes self) queue in
  MCAgent.curriculum_advances self queue = true <->
  (queue <> [] /\
   deque_len recent = maxlen recent /\
   (MCAgent._winning_rate_threshold self <=?
      (py_sum (items recent) / float_of_Z (Z.of_nat (deque_len recent)) + 1.0) / 2.0)%float
     = true /\
   (MCAgent._cur_difficulty_idx self + 1
      < Z.of_nat (length (MCAgent._difficulties self)))%Z).
Proof.
  cbv zeta. unfold MCAgent.curriculum_advances.
  rewrite !andb_true_iff, Nat.eqb_eq, Z.ltb_lt, negb_true_iff, Nat.eqb_neq.
  destruct queue; simpl; intuition (try congruence; try lia).
Qed.

Lemma advance_due_true (D : Type) (self : MCAgent.agent D) (recent : deque float) :
  MCAgent.advance_due self recent = true <->
  (deque_len recent = maxlen recent /\
   (MCAgent._winning_rate_threshold self <=?
      (py_sum (items recent) / float_of_Z (Z.of_nat (deque_len recent)) + 1.0) / 2.0)%float
     = true /\
   (MCAgent._cur_difficulty_idx self + 1
      < Z.of_nat (length (MCAgent._difficulties self)))%Z).
Proof.
  unfold MCAgent.advance_due.
  rewrite !andb_true_iff, Nat.eqb_eq, Z.ltb_lt. intuition.
Qed.

(** C3. A curriculum update advances the difficulty index exactly when a new
    outcome was drained from the outcome channel in this invocation, the
    window holds exactly its maximum of entries, the win rate
    [(mean(outcomes) + 1) / 2] reaches the threshold, and a higher level
    remains.  When it advances, the index goes up by one and the window is
    cleared; otherwise the index is unchanged and the window is the old one
    with the drained outcomes appended.  (The index is a C int that starts
    at 0; the level list is taken to fit one.) *)
Theorem curriculum_update_advances_iff
    (D : Type) (self : MCAgent.agent D) (queue : list float) :
  (0 <= MCAgent._cur_difficulty_idx self)%Z ->
  (Z.of_nat (length (MCAgent._difficulties self)) <= 2 ^ 31)%Z ->
  maxlen (MCAgent._recent_outcomes self) = 1000%nat ->
  let recent := deque_extend (MCAgent._recent_outcomes self) queue in
  let self' := fst (MCAgent._update_curriculum_difficulty self queue) in
  let advance :=
    queue <> [] /\
    deque_len recent = maxlen recent /\
    (MCAgent._winning_rate_threshold self <=?
       (py_sum (items recent) / float_of_Z (Z.of_nat (deque_len recent)) + 1.0) / 2.0)%float
      = true /\
    (MCAgent._cur_difficulty_idx self + 1
       < Z.of_nat (length (MCAgent._difficulties self)))%Z in
  (advance ->
     MCAgent._cur_difficulty_idx self' = (MCAgent._cur_difficulty_idx self + 1)%Z /\
     items (MCAgent._recent_outcomes self') = []) /\
  (~ advance ->
     MCAgent._cur_difficulty_idx self' = MCAgent._cur_difficulty_idx self /\
     MCAgent._recent_outcomes self' = recent) /\
  (MCAgent._cur_difficulty_idx self' = (MCAgent._cur_difficulty_idx self + 1)%Z
     <-> advance).
Proof.
  intros Hidx Hlen Hmax. cbv zeta.
  rewrite update_curriculum_state by assumption.
  pose proof (curriculum_advances_true D self queue) as Htrue. cbv zeta in Htrue.
  destruct (MCAgent.curriculum_advances self queue); simpl.
  - assert (Hadv := proj1 Htrue eq_refl).
    split; [auto|]. split; [intro Hn; contradiction|]. split; auto.
  - assert (Hnot : ~ (queue <> [] /\
       deque_len (deque_extend (MCAgent._recent_outcomes self) queue) =
         maxlen (deque_extend (MCAgent._recent_outcomes self) queue) /\
       (MCAgent._winning_rate_threshold self <=?
          (py_sum (items (deque_extend (MCAgent._recent_outcomes self) queue)) /
           float_of_Z (Z.of_nat (deque_len (deque_extend (MCAgent._recent_outcomes self) queue)))
           + 1.0) / 2.0)%float = true /\
       (MCAgent._cur_difficulty_idx self + 1
          < Z.of_nat (length (MCAgent._difficulties self)))%Z))
      by (intro H; apply Htrue in H; discriminate).
    split; [intro H; contradiction|]. split; [auto|].
    split; [lia | intro H; contradiction].
Qed.

Lemma curriculum_update_advances_iff_witness :
  MCAgent._cur_difficulty_idx
    (fst (MCAgent._update_curriculum_difficulty scenario_agent thousand_wins)) = 1%Z /\
  items (MCAgent._recent_outcomes
    (fst (MCAgent._update_curriculum_difficulty scenario_agent thousand_wins))) = [].
Proof.
  destruct (curriculum_update_advances_iff nat scenario_agent thousand_wins)
    as (Hadv & _ & _).
  - vm_compute. discriminate.
  - vm_compute. discriminate.
  - reflexivity.
  - apply Hadv. split; [discriminate|].
    split; [vm_compute; reflexivity|].
    split; vm_compute; reflexivity.
Defined.

(** C2, as the program has it.  From its initial value 0 and for a
    non-empty list of levels (that fits the C int of the index), across any
    series of curriculum updates the difficulty index is never decremented
    and never exceeds [len(difficulties) - 1]; an update advances it by
    exactly one when, after the outcomes it drained, the window is full, the
    threshold is satisfied and a higher level remains, and leaves it
    unchanged otherwise; the window is empty immediately after every
    advance. *)
Theorem difficulty_index_ratchet
    (D : Type) (c : MCAgent.config D) (queues : list (list float)) (queue : list float) :
  MCAgent.difficulties c <> [] ->
  (Z.of_nat (length (MCAgent.difficulties c)) <= 2 ^ 31)%Z ->
  let levels := Z.of_nat (length (MCAgent.difficulties c)) in
  let st := MCAgent.run_curriculum (MCAgent.attributes c) queues in
  let recent := deque_extend (MCAgent._recent_outcomes st) queue in
  let st' := fst (MCAgent._update_curriculum_difficulty st queue) in
  let due :=
    deque_len recent = maxlen recent /\
    (MCAgent.winning_rate_threshold c <=?
       (py_sum (items recent) / float_of_Z (Z.of_nat (deque_len recent)) + 1.0) / 2.0)%float
      = true /\
    (MCAgent._cur_difficulty_idx st + 1 < levels)%Z in
  MCAgent._cur_difficulty_idx (MCAgent.attributes c) = 0%Z /\
  (0 <= MCAgent._cur_difficulty_idx st <= levels - 1)%Z /\
  snd (MCAgent._update_curriculum_difficulty st queue) = Ok tt /\
  (MCAgent._cur_difficulty_idx st <= MCAgent._cur_difficulty_idx st' <= levels - 1)%Z /\
  (due ->
     MCAgent._cur_difficulty_idx st' = (MCAgent._cur_difficulty_idx st + 1)%Z /\
     items (MCAgent._recent_outcomes st') = []) /\
  (~ due -> MCAgent._cur_difficulty_idx st' = MCAgent._cur_difficulty_idx st).
Proof.
  intros Hne Hlen. cbv zeta.
  set (st := MCAgent.run_curriculum (MCAgent.attributes c) queues).
  assert (Hinv : MCAgent.curriculum_inv (MCAgent.attributes c) st)
    by (apply curriculum_inv_run; [exact Hlen | now apply curriculum_inv_init]).
  pose proof (curriculum_inv_step D (MCAgent.attributes c) st queue Hlen Hinv) as Hinv'.
  pose proof (curriculum_advances_inv D (MCAgent.attributes c) st queue Hinv) as Hadv.
  pose proof (advance_due_true D st (deque_extend (MCAgent._recent_outcomes st) queue))
    as Hdue.
  destruct Hinv as (Hd & Ht & Hmax & Hidx & _).
  destruct Hinv' as (Hd' & _ & _ & Hidx' & _).
  simpl in Hd, Ht, Hd'. rewrite Hd in *. rewrite Hd' in Hidx'. rewrite Ht in Hdue.
  split; [reflexivity|]. split; [lia|].
  split; [apply update_curriculum_ok; [rewrite Hd; lia | exact Hmax]|].
  assert (Hstate := update_curriculum_state D st queue (proj1 Hidx)).
  rewrite Hd in Hstate. specialize (Hstate Hlen Hmax). cbv zeta in Hstate.
  rewrite Hadv in Hstate.
  destruct (MCAgent.advance_due st (deque_extend (MCAgent._recent_outcomes st) queue)).
  - rewrite Hstate in *. simpl in *.
    split; [lia|]. split; [auto|].
    intro Hn. exfalso. apply Hn. now apply Hdue.
  - rewrite Hstate in *. simpl in *.
    split; [lia|]. split; [|reflexivity].
    intro H. apply Hdue in H. discriminate.
Qed.

Lemma difficulty_index_ratchet_witness :
  MCAgent._cur_difficulty_idx (MCAgent.run_curriculum scenario_agent [thousand_wins]) = 1%Z /\
  MCAgent._cur_difficulty_idx
    (fst (MCAgent._update_curriculum_difficulty
            (MCAgent.run_curriculum scenario_agent [thousand_wins]) thousand_wins)) = 2%Z.
Proof.
  assert (H1 : MCAgent._cur_difficulty_idx
                 (MCAgent.run_curriculum scenario_agent [thousand_wins]) = 1%Z)
    by (vm_compute; reflexivity).
  split; [exact H1|].
  destruct (difficulty_index_ratchet nat scenario_config [thousand_wins] thousand_wins)
    as (_ & _ & _ & _ & Hadv & _).
  - discriminate.
  - vm_compute. discriminate.
  - fold scenario_agent in Hadv. rewrite H1 in Hadv.
    apply Hadv. split; [vm_compute; reflexivity|].
    split; vm_compute; reflexivity.
Defined.

(** The specification has the index advance on every update that finds the
    window full and the threshold satisfied.  With a single level and a
    thousand won episodes in the channel, the update leaves a full window
    whose win rate 1.0 is above the threshold 0.6, and the index where it
    was, at 0: no higher level remains. *)
Lemma full_window_at_top_level_does_not_advance :
  let self := MCAgent.attributes single_level_config in
  let self' := fst (MCAgent._update_curriculum_difficulty self thousand_wins) in
  let recent := MCAgent._recent_outcomes self' in
  deque_len recent = maxlen recent /\
  MCAgent.winning_rate_of recent = Ok 1.0%float /\
  (MCAgent._winning_rate_threshold self' <=? 1.0)%float = true /\
  MCAgent._cur_difficulty_idx self = 0%Z /\
  MCAgent._cur_difficulty_idx self' = 0%Z.
Proof. vm_compute. repeat split. Qed.

(** ** Configuration errors (C8) *)

(** C8, as the program has it.  The constructor checks the kind of the
    action space and the name of the optimizer, not the name of the
    exploration schedule: a configuration with an unrecognized [eps_method]
    (and an accepted action space and optimizer) is constructed.  The name
    is looked at by [_get_current_eps] only, in the first round of the loop
    of [learn], when the actor workers and the batch threads have been
    started.  With a non-zero [target_update_freq] the round refreshes the
    target network and then raises [NotImplementedError]; with
    [target_update_freq = 0] it raises [ZeroDivisionError] at the check of
    the target refresh, before the schedule is asked.  Either way no
    optimizer step is made. *)
Theorem unknown_schedule_surfaces_in_learn
    (D : Type) (c : MCAgent.config D)
    (math_exp : float -> float) (outcomes_at : nat -> list float) (loss_at : nat -> float)
    (num_actor_workers n : nat) :
  known_schedule (MCAgent.eps_method c) = false ->
  MCAgent.action_space_arg c <> OtherSpace ->
  MCAgent.known_optimizer (MCAgent.optimizer_type c) = true ->
  MCAgent.__init__ c = Ok (MCAgent.attributes c) /\
  (MCAgent.target_update_freq c <> 0%Z ->
   MCAgent.learn math_exp outcomes_at loss_at (MCAgent.attributes c) num_actor_workers (S n) =
     (started (MCAgent.attributes c) num_actor_workers ++ [MCAgent.TargetUpdated 0],
      Raised NotImplementedError)) /\
  (MCAgent.target_update_freq c = 0%Z ->
   MCAgent.learn math_exp outcomes_at loss_at (MCAgent.attributes c) num_actor_workers (S n) =
     (started (MCAgent.attributes c) num_actor_workers, Raised ZeroDivisionError)).
Proof.
  intros Hsched Hspace Hopt. split; [|split].
  - unfold MCAgent.__init__. rewrite Hopt.
    destruct (MCAgent.action_space_arg c); congruence.
  - intro Hfreq.
    unfold known_schedule in Hsched. apply orb_false_elim in Hsched.
    destruct Hsched as [Hexp Hlin].
    unfold MCAgent.learn, MCAgent._init_parallel_actors. fold (started (MCAgent.attributes c) num_actor_workers).
    cbn [wbind MCAgent.learn_loop MCAgent.learn_iteration].
    unfold py_mod. cbn [MCAgent._target_update_freq MCAgent.attributes].
    destruct (Z.eqb_spec (MCAgent.target_update_freq c) 0) as [|_]; [contradiction|].
    rewrite Z.mod_0_l by exact Hfreq.
    unfold MCAgent._get_current_eps.
    cbn [MCAgent._eps_method MCAgent.attributes].
    rewrite Hexp, Hlin. cbn. reflexivity.
  - intro Hzero.
    unfold MCAgent.learn, MCAgent._init_parallel_actors. fold (started (MCAgent.attributes c) num_actor_workers).
    cbn [wbind MCAgent.learn_loop MCAgent.learn_iteration].
    unfold py_mod at 1. cbn [MCAgent._target_update_freq MCAgent.attributes].
    rewrite Hzero. cbn [Z.eqb call wbind]. now rewrite app_nil_r.
Qed.

Lemma unknown_schedule_surfaces_in_learn_witness :
  MCAgent.__init__ cosine_config = Ok (MCAgent.attributes cosine_config) /\
  MCAgent.learn (fun x => x) (fun _ => []) (fun _ => 0%float)
                (MCAgent.attributes cosine_config) 2 3 =
    ([MCAgent.ActorStarted 0; MCAgent.ActorStarted 1;
      MCAgent.BatchThreadStarted 0; MCAgent.BatchThreadStarted 1;
      MCAgent.BatchThreadStarted 2; MCAgent.BatchThreadStarted 3;
      MCAgent.TargetUpdated 0],
     Raised NotImplementedError).
Proof.
  destruct (unknown_schedule_surfaces_in_learn nat cosine_config (fun x => x)
              (fun _ => []) (fun _ => 0%float) 2 2)
    as (Hinit & Hlearn & _).
  - reflexivity.
  - discriminate.
  - reflexivity.
  - split; [exact Hinit|]. apply Hlearn. discriminate.
Defined.

(** The specification has the constructor refuse an unrecognized schedule
    name before any worker starts.  The name "cosine" is not recognized,
    and the agent is constructed; it is [learn] that fails, with two actor
    workers and four batch threads started. *)
Lemma unknown_schedule_is_constructed :
  known_schedule (MCAgent.eps_method cosine_config) = false /\
  is_ok (MCAgent.__init__ cosine_config) = true /\
  MCAgent.learn (fun x => x) (fun _ => []) (fun _ => 0%float)
                (MCAgent.attributes cosine_config) 2 1 =
    ([MCAgent.ActorStarted 0; MCAgent.ActorStarted 1;
      MCAgent.BatchThreadStarted 0; MCAgent.BatchThreadStarted 1;
      MCAgent.BatchThreadStarted 2; MCAgent.BatchThreadStarted 3;
      MCAgent.TargetUpdated 0],
     Raised NotImplementedError).
Proof. vm_compute. repeat split. Qed.

(** ** Warm-up and sampling in the batch thread (C6, C10) *)

(** One draw of the sampler: the selected position leaves the pool, which
    stays duplicate-free. *)
Lemma list_set_last_step (p : list nat) (l : nat) (j : nat) :
  NoDup (p ++ [l]) -> (j <= length p)%nat ->
  let pool := p ++ [l] in
  let x := nth j pool 0%nat in
  let pool' := removelast (list_set pool j (last pool 0%nat)) in
  length pool' = length p /\ NoDup pool' /\ incl pool' pool /\ ~ In x pool' /\ In x pool.
Proof.
  intros Hnd Hj. cbv zeta. rewrite last_last.
  apply NoDup_remove in Hnd. rewrite app_nil_r in Hnd. destruct Hnd as [Hp Hl].
  unfold list_set.
  destruct (Nat.eq_dec j (length p)) as [->|Hne].
  - rewrite firstn_app, firstn_all, Nat.sub_diag, skipn_app, skipn_all, Nat.sub_diag.
    simpl. rewrite app_nil_r, removelast_last.
    rewrite app_nth2, Nat.sub_diag by lia. simpl.
    repeat split; auto.
    + intros a Ha. apply in_or_app. now left.
    + apply in_or_app. right. now left.
  - assert (Hlt : (j < length p)%nat) by lia.
    rewrite firstn_app, skipn_app.
    replace (j - length p)%nat with 0%nat by lia. simpl. rewrite app_nil_r.
    rewrite app_nth1 by exact Hlt.
    destruct (skipn j p) as [|x rest] eqn:E.
    { apply (f_equal (@length nat)) in E. rewrite length_skipn in E. simpl in E. lia. }
    assert (Hsplit : p = firstn j p ++ x :: rest) by (rewrite <- E; symmetry; apply firstn_skipn).
    assert (Hx : nth j p 0%nat = x).
    { rewrite <- (firstn_skipn j p) at 1. rewrite app_nth2 by (rewrite length_firstn; lia).
      rewrite length_firstn, E. replace (j - Nat.min j (length p))%nat with 0%nat by lia.
      reflexivity. }
    rewrite Hx. simpl.
    replace (firstn j p ++ l :: rest ++ [l]) with ((firstn j p ++ l :: rest) ++ [l])
      by (rewrite <- app_assoc; reflexivity).
    rewrite removelast_last.
    rewrite Hsplit in Hp, Hl.
    assert (Hrm := NoDup_remove _ _ _ Hp). destruct Hrm as [Hnd' Hxn].
    repeat split.
    + rewrite Hsplit at 2. rewrite !length_app. simpl. lia.
    + apply Permutation_NoDup with (l := l :: firstn j p ++ rest).
      * apply Permutation_middle.
      * constructor; [|exact Hnd'].
        intro H. apply Hl. apply in_app_or in H. apply in_or_app.
        destruct H; [now left | right; now right].
    + intros a Ha. apply in_or_app. apply in_app_or in Ha.
      destruct Ha as [Ha|[<-|Ha]].
      * left. rewrite Hsplit. apply in_or_app. now left.
      * right. now left.
      * left. rewrite Hsplit. apply in_or_app. right. now right.
    + intro Ha. apply in_app_or in Ha. destruct Ha as [Ha|[<-|Ha]].
      * apply Hxn. apply in_or_app. now left.
      * apply Hl. apply in_or_app. right. now left.
      * apply Hxn. apply in_or_app. now right.
    + apply in_or_app. left. rewrite Hsplit. apply in_or_app. right. now left.
Qed.

(** The sampler selects [k] distinct positions of the pool. *)
Lemma sample_positions_spec (k : nat) : forall pool draw i,
  NoDup pool -> (k <= length pool)%nat ->
  let r := sample_positions pool k draw i in
  length r = k /\ NoDup r /\ incl r pool.
Proof.
  induction k as [|k IH]; intros pool draw i Hnd Hk; cbv zeta; simpl.
  - repeat split; [constructor | intros a []].
  - destruct (exists_last (l := pool)) as (p & l & ->).
    { intro H. subst. simpl in Hk. lia. }
    rewrite length_app in Hk. simpl in Hk.
    assert (Hj : (draw i mod length (p ++ [l]) <= length p)%nat).
    { pose proof (Nat.mod_upper_bound (draw i) (length (p ++ [l]))) as H.
      rewrite length_app in *. simpl in *. lia. }
    destruct (list_set_last_step p l _ Hnd Hj) as (Hlen & Hnd' & Hincl & Hnotin & Hin).
    destruct (IH _ draw (S i) Hnd' ltac:(lia)) as (Hl & Hn & Hi).
    repeat split.
    + now rewrite Hl.
    + constructor; [|exact Hn]. intro H. apply Hnotin. now apply Hi.
    + intros a [<-|Ha]; [exact Hin|]. apply Hincl. now apply Hi.
Qed.

Lemma flat_map_nth_error {A} (population : list A) (ps : list nat) :
  (forall p, In p ps -> (p < length population)%nat) ->
  Forall2 (fun p x => nth_error population p = Some x) ps
          (flat_map (fun p => match nth_error population p with
                              | Some x => [x]
                              | None => []
                              end) ps).
Proof.
  induction ps as [|p ps IH]; intro H; simpl; [constructor|].
  destruct (nth_error population p) as [x|] eqn:E.
  - simpl. constructor; [exact E|]. apply IH. intros q Hq. apply H. now right.
  - apply nth_error_None in E. specialize (H p (or_introl eq_refl)). lia.
Qed.

(** [random.sample] on a population that is large enough: as many items as
    asked for, taken at distinct positions. *)
Lemma random_sample_ok {A} (population : list A) (k : Z) (draw : nat -> nat) :
  (0 <= k <= Z.of_nat (length population))%Z ->
  exists ps l,
    random_sample population k draw = Ok l /\
    length ps = Z.to_nat k /\ NoDup ps /\
    Forall2 (fun p x => nth_error population p = Some x) ps l.
Proof.
  intro Hk. unfold random_sample.
  destruct (Z.ltb_spec k 0); [lia|].
  destruct (Z.ltb_spec (Z.of_nat (length population)) k); [lia|]. simpl.
  destruct (sample_positions_spec (Z.to_nat k) (seq 0 (length population)) draw 0)
    as (Hlen & Hnd & Hincl).
  - apply seq_NoDup.
  - rewrite length_seq. lia.
  - eexists. eexists. split; [reflexivity|]. split; [exact Hlen|]. split; [exact Hnd|].
    apply flat_map_nth_error. intros p Hp. apply Hincl, in_seq in Hp. lia.
Qed.

(** And on one that is too small. *)
Lemma random_sample_too_small {A} (population : list A) (k : Z) (draw : nat -> nat) :
  (Z.of_nat (length population) < k)%Z ->
  random_sample population k draw = Raise ValueError.
Proof.
  intro Hk. unfold random_sample.
  destruct (Z.ltb_spec (Z.of_nat (length population)) k); [|lia].
  now rewrite orb_true_r.
Qed.

Section BatchThread.

Variable D : Type.
Variable transition_supply : nat -> MCAgent.transition.
Variable sampler_draw : nat -> nat -> nat.

(** A round of the thread that ends below the warm-up threshold has put no
    batch. *)
Lemma no_sample_below_warm_up (self : MCAgent.agent D) p it st st' warm_up :
  MCAgent.prepare_iteration transition_supply sampler_draw self p it st = Ok st' ->
  py_truediv (float_of_Z (MCAgent._init_memory_size self))
             (float_of_Z (MCAgent._num_threads self)) = Ok warm_up ->
  (float_of_Z (Z.of_nat (deque_len (MCAgent.memory st'))) <? warm_up)%float = true ->
  MCAgent.put_batches st' = MCAgent.put_batches st.
Proof.
  unfold MCAgent.prepare_iteration. intros H Hw Hlt.
  rbind_inv H. rewrite Hw in H. simpl in H.
  assert (Hput : MCAgent.put_batches x = MCAgent.put_batches st).
  { destruct p as [n|n].
    - rbind_inv Hx. injection Hx as <-. now destruct (x0 =? 0)%Z.
    - now injection Hx as <-. }
  destruct (_ <? _)%float eqn:E.
  - injection H as <-. exact Hput.
  - rbind_inv H. rbind_inv H. injection H as <-. simpl in Hlt. congruence.
Qed.

(** A batch that is put holds [batch_size] sampled transitions at most, and
    the sample was drawn from a buffer of at least [batch_size]. *)
Lemma sample_needs_batch_size (self : MCAgent.agent D) p it st st' :
  MCAgent.prepare_iteration transition_supply sampler_draw self p it st = Ok st' ->
  MCAgent.put_batches st' <> MCAgent.put_batches st ->
  (0 <= MCAgent._batch_size self <= Z.of_nat (deque_len (MCAgent.memory st')))%Z.
Proof.
  unfold MCAgent.prepare_iteration. intros H Hput.
  rbind_inv H. rbind_inv H.
  destruct (_ <? _)%float.
  - injection H as <-. exfalso. apply Hput.
    destruct p as [n|n].
    + rbind_inv Hx. injection Hx as <-. now destruct (x1 =? 0)%Z.
    + now injection Hx as <-.
  - rbind_inv H. rbind_inv H. injection H as <-. simpl.
    unfold random_sample in Hx1.
    destruct ((_ <? 0)%Z || _) eqn:E; [discriminate|].
    apply orb_false_elim in E. destruct E as [E1 E2].
    apply Z.ltb_ge in E1. apply Z.ltb_ge in E2. unfold deque_len. lia.
Qed.

(** A round that ends at or above the warm-up threshold has put one batch,
    made of [batch_size] transitions taken at distinct positions of the
    buffer. *)
Lemma warm_round_puts_batch (self : MCAgent.agent D) p it st st' warm_up :
  MCAgent.prepare_iteration transition_supply sampler_draw self p it st = Ok st' ->
  py_truediv (float_of_Z (MCAgent._init_memory_size self))
             (float_of_Z (MCAgent._num_threads self)) = Ok warm_up ->
  (float_of_Z (Z.of_nat (deque_len (MCAgent.memory st'))) <? warm_up)%float = false ->
  exists ps transitions b,
    length ps = Z.to_nat (MCAgent._batch_size self) /\ NoDup ps /\
    Forall2 (fun pos x => nth_error (items (MCAgent.memory st')) pos = Some x)
            ps transitions /\
    MCAgent._transitions_to_batch transitions = Ok b /\
    MCAgent.put_batches st' = MCAgent.put_batches st ++ [b].
Proof.
  unfold MCAgent.prepare_iteration. intros H Hw Hwarm.
  rbind_inv H. rewrite Hw in H. simpl in H.
  assert (Hput : MCAgent.put_batches x = MCAgent.put_batches st).
  { destruct p as [n|n].
    - rbind_inv Hx. injection Hx as <-. now destruct (x0 =? 0)%Z.
    - now injection Hx as <-. }
  destruct (_ <? _)%float eqn:E.
  - injection H as <-. congruence.
  - rbind_inv H. rbind_inv H. injection H as <-. simpl.
    assert (Hk : (0 <= MCAgent._batch_size self
                    <= Z.of_nat (length (items (MCAgent.memory x))))%Z).
    { unfold random_sample in Hx0.
      destruct ((_ <? 0)%Z || _) eqn:Ek; [discriminate|].
      apply orb_false_elim in Ek. destruct Ek as [E1 E2].
      apply Z.ltb_ge in E1. apply Z.ltb_ge in E2. lia. }
    destruct (random_sample_ok (items (MCAgent.memory x)) _ (sampler_draw it) Hk)
      as (ps & l & Hl & Hlen & Hnd & Hall).
    rewrite Hl in Hx0. injection Hx0 as <-.
    exists ps, l, x1. rewrite Hput. auto.
Qed.

(** A thread ended by an exception stays ended. *)
Lemma prepare_loop_raise (self : MCAgent.agent D) p e (n : nat) : forall it st,
  MCAgent.prepare_loop transition_supply sampler_draw self p it n st = Raise e ->
  forall m, (n <= m)%nat ->
    MCAgent.prepare_loop transition_supply sampler_draw self p it m st = Raise e.
Proof.
  induction n as [|n IH]; intros it st H m Hm; simpl in H; [discriminate|].
  destruct m as [|m]; [lia|]. simpl.
  destruct (MCAgent.prepare_iteration _ _ self p it st) as [st1|e1]; simpl in *.
  - apply IH; [exact H | lia].
  - exact H.
Qed.

End BatchThread.

(** C10, at the scenario of the specification (memory size 100, warm-up 20,
    batch size 8).  The constructor raises the warm-up size to
    [max(20, 8) = 20], but the thread compares its buffer with that size
    divided by the four threads: in its fifth round the buffer holds
    [5 >= 20 / 4] transitions and [random.sample(memory, 8)] is called on
    them, which raises [ValueError]. *)
Theorem sample_larger_than_buffer :
  MCAgent.__init__ scenario_config = Ok scenario_agent /\
  MCAgent._init_memory_size scenario_agent = Z.max 20 8 /\
  (exists st,
      MCAgent._prepare_batch numbered_supply first_draws scenario_agent 4 = Ok st /\
      deque_len (MCAgent.memory st) = 4%nat /\
      MCAgent.put_batches st = []) /\
  random_sample (map numbered_supply (seq 0 5)) (MCAgent._batch_size scenario_agent)
                (first_draws 4) = Raise ValueError /\
  MCAgent._prepare_batch numbered_supply first_draws scenario_agent 5 = Raise ValueError.
Proof.
  split; [reflexivity|]. split; [reflexivity|]. split.
  - eexists. split; [vm_compute; reflexivity|]. split; reflexivity.
  - split; vm_compute; reflexivity.
Qed.

(** C6, at the scenario of the specification (memory size 100, warm-up 20,
    batch size 8).  A round that completes below the warm-up threshold puts
    no batch, and one that completes at or above it puts one batch of
    [batch_size] transitions from distinct buffer positions
    ([no_sample_below_warm_up], [warm_round_puts_batch]); but a warm round
    need not complete.  Here, through its first four rounds the thread is
    below its share [20 / 4] of the warm-up size and puts no batch.  From
    the fifth round on it is warm, and instead of a batch of 8 per round the
    batch channel receives nothing: the sample of 8 from a buffer of 5
    raises [ValueError] and the thread is gone, however many rounds it is
    given. *)
Theorem warm_thread_puts_no_batch :
  (forall n st, (n <= 4)%nat ->
     MCAgent._prepare_batch numbered_supply first_draws scenario_agent n = Ok st ->
     MCAgent.put_batches st = []) /\
  (float_of_Z 5 <? float_of_Z (MCAgent._init_memory_size scenario_agent)
                   / float_of_Z (MCAgent._num_threads scenario_agent))%float = false /\
  (forall n, (5 <= n)%nat ->
     MCAgent._prepare_batch numbered_supply first_draws scenario_agent n = Raise ValueError).
Proof.
  split; [|split].
  - intros n st Hn.
    do 5 (destruct n as [|n]; [vm_compute; intro H; injection H as <-; reflexivity|]).
    lia.
  - vm_compute. reflexivity.
  - intros n Hn. unfold MCAgent._prepare_batch.
    destruct (MCAgent.prepare_setup scenario_agent) as [[st0 p]|e] eqn:E;
      [|vm_compute in E; discriminate].
    simpl. apply prepare_loop_raise with (n := 5%nat); [|exact Hn].
    vm_compute in E. injection E as <- <-. vm_compute. reflexivity.
Qed.

Lemma warm_thread_puts_no_batch_witness :
  MCAgent._prepare_batch numbered_supply first_draws scenario_agent 50 = Raise ValueError.
Proof.
  destruct warm_thread_puts_no_batch as (_ & _ & H). apply H. lia.
Defined.

(* ================================================================== *)
(** * Further properties *)

(** ** Seeds *)

Lemma random_seed_of_mod (pid now_ms : Z) :
  random_seed_of pid now_ms = ((pid * 11111111 + now_ms) mod 2 ^ 32)%Z.
Proof.
  unfold random_seed_of. change 0xFFFFFFFF%Z with (Z.ones 32).
  now rewrite Z.land_ones by lia.
Qed.

Lemma mod_eq_divide (a b m : Z) :
  (0 < m)%Z -> (a mod m = b mod m)%Z -> (m | a - b)%Z.
Proof.
  intros Hm H. apply Z.mod_divide; [lia|].
  rewrite Zminus_mod, H, Z.sub_diag. now apply Z.mod_0_l; lia.
Qed.

Lemma hd_wbind_emit {E X} (ev : E) (k : unit -> W E X) :
  hd_error (fst (wbind (emit ev) k)) = Some ev.
Proof. unfold emit, wbind. now destruct (k tt). Qed.

(** X1. Every episode of an actor worker starts by logging its seed, which
    lies in [0, 2^32).  At one clock reading, workers whose process numbers
    differ (by less than 2^32) get different seeds, and so does one worker
    at clock readings that differ (by less than 2^32 ms). *)
Theorem worker_seeds_differ
    (D R : Type) (arith : Arith R) (env : environment D R) (q_network : network)
    (difficulties : list D) (discount : R) (space : action_space)
    (use_curriculum : bool) (w : world) (pid : Z) (fuel k : nat) :
  hd_error (fst (run_episode env q_network difficulties discount space
                             use_curriculum w pid fuel k))
    = Some (LogSeed D R (random_seed_of pid (clock_ms w k))) /\
  (forall now, 0 <= random_seed_of pid now < 2 ^ 32)%Z /\
  (forall pid' now, pid <> pid' -> (Z.abs (pid - pid') < 2 ^ 32)%Z ->
     random_seed_of pid now <> random_seed_of pid' now) /\
  (forall now now', now <> now' -> (Z.abs (now - now') < 2 ^ 32)%Z ->
     random_seed_of pid now <> random_seed_of pid now').
Proof.
  split; [|split; [|split]].
  - unfold run_episode. apply hd_wbind_emit.
  - intro now. rewrite random_seed_of_mod. apply Z.mod_pos_bound. lia.
  - intros pid' now Hne Habs Heq. rewrite !random_seed_of_mod in Heq.
    apply mod_eq_divide in Heq; [|lia].
    replace (pid * 11111111 + now - (pid' * 11111111 + now))%Z
      with (11111111 * (pid - pid'))%Z in Heq by ring.
    apply Z.gauss in Heq; [|reflexivity].
    destruct Heq as [c Hc].
    assert (c = 0)%Z by nia. lia.
  - intros now now' Hne Habs Heq. rewrite !random_seed_of_mod in Heq.
    apply mod_eq_divide in Heq; [|lia].
    replace (pid * 11111111 + now - (pid * 11111111 + now'))%Z
      with (now - now')%Z in Heq by ring.
    destruct Heq as [c Hc].
    assert (c = 0)%Z by nia. lia.
Qed.

Lemma worker_seeds_differ_witness :
  random_seed_of 0 1000 <> random_seed_of 1 1000 /\
  random_seed_of 0 1000 <> random_seed_of 0 1001.
Proof.
  destruct (worker_seeds_differ nat float float_Arith (counting_env 100)
              constant_network [1; 2; 3]%nat 0.9%float (MaskDiscrete 3) true
              still_world 0%Z 10 0) as (_ & _ & Hpid & Hnow).
  split.
  - apply Hpid; [discriminate | vm_compute; reflexivity].
  - apply Hnow; [discriminate | vm_compute; reflexivity].
Defined.

(** ** Episodes of the actor worker *)

Section WorkerTrace.

Variable D : Type.
Variable R : Type.
Context {arith : Arith R}.
Variable env : environment D R.
Variable q_network : network.
Variable difficulties : list D.
Variable discount : R.
Variable space : action_space.
Variable use_curriculum : bool.
Variable w : world.
Variable pid : Z.


End WorkerTrace.



Lemma py_index_nil {A} (i : Z) : py_index (@nil A) i = Raise IndexError.
Proof.
  unfold py_index. simpl length.
  destruct (i <? 0)%Z; destruct (0 <=? _)%Z eqn:E1; destruct (_ <? Z.of_nat 0)%Z eqn:E2;
    try reflexivity; apply Z.leb_le in E1; apply Z.ltb_lt in E2; lia.
Qed.

(** X3. With an empty list of difficulty levels an actor worker ends in its
    first episode with [IndexError], in curriculum mode and in random mode
    alike: it has logged its seed, and has created no environment and put
    nothing. *)
Theorem empty_difficulties_end_worker
    (D R : Type) (arith : Arith R) (env : environment D R) (q_network : network)
    (discount : R) (space : action_space) (use_curriculum : bool) (w : world)
    (pid : Z) (fuel n : nat) :
  actor_worker env q_network [] discount space use_curriculum w pid fuel (S n) =
  ([LogSeed D R (random_seed_of pid (clock_ms w 0))], Raised IndexError).
Proof.
  unfold actor_worker. cbn [actor_worker_from]. unfold run_episode.
  assert (H : (if use_curriculum then py_index (@nil D) (difficulty_idx w 0)
               else random_choice (@nil D) (choice_draw w 0)) = Raise IndexError)
    by (destruct use_curriculum; [apply py_index_nil | reflexivity]).
  rewrite H. reflexivity.
Qed.

(** ** Action selection: ranges and failures *)

Lemma argmax_in_range (q : list float) (a : nat) :
  argmax q = Ok a -> (a < length q)%nat.
Proof.
  destruct q as [|x l]; simpl; [discriminate|]. intro H. injection H as <-.
  destruct (argmax_from_spec l 0 x 1 Nat.lt_0_1) as [[Hr _]|(k & y & z & Hr & Hk & _)];
    cbv zeta in Hr; rewrite Hr; [lia|].
  assert (k < length l)%nat by (apply nth_error_Some; congruence). lia.
Qed.

(** X4. With a plain [Discrete] action space the network is given the whole
    observation tuple and no mask is applied.  An action that [act] returns
    is in range: when exploiting it is a position of the row of action
    values the network returned, when exploring it is the sampler's draw
    reduced below the size [n] of the space. *)
Theorem discrete_action_in_range
    (n : nat) (q_network : network) (obs : observation) (eps u : float)
    (draw : nat) (a : nat) :
  act (Discrete n) q_network obs eps u draw = Ok a ->
  ((eps <=? u)%float = true ->
     exists q, q_network (Multi obs) = Ok q /\ argmax q = Ok a /\ (a < length q)%nat) /\
  ((eps <=? u)%float = false -> a = (draw mod n)%nat /\ (a < n)%nat).
Proof.
  unfold act, preprocess_observation. cbn [is_MaskDiscrete].
  intro H. split; intro Hb; rewrite Hb in H; cbn [rbind] in H.
  - destruct (q_network (Multi obs)) as [q|e]; cbn [rbind] in H; [|discriminate].
    exists q. split; [reflexivity|]. split; [exact H | now apply argmax_in_range].
  - destruct n as [|n]; [discriminate|].
    change (Ok (draw mod S n)%nat = Ok a) in H.
    assert (Ha : a = (draw mod S n)%nat) by congruence.
    split; [exact Ha|]. rewrite Ha. apply Nat.mod_upper_bound. discriminate.
Qed.

Lemma discrete_action_in_range_witness :
  exists q, constant_network (Multi [[5%Z]]) = Ok q /\ argmax q = Ok 1%nat /\
            (1 < length q)%nat.
Proof.
  destruct (discrete_action_in_range 3 constant_network [[5%Z]] 0.1 0.5 0 1 eq_refl)
    as [H _].
  exact (H eq_refl).
Defined.

Lemma mask_fill_all_zero (q : list float) (mask : ndarray) :
  length q = length mask -> Forall (fun m => m = 0%Z) mask ->
  mask_fill q mask = Ok (repeat neg_infinity (length mask)).
Proof.
  intros Hlen Hall. unfold mask_fill. rewrite Hlen, Nat.eqb_refl. f_equal.
  revert q Hlen. induction Hall as [|m mask Hm _ IH]; intros [|x q] Hlen;
    simpl in *; try discriminate; [reflexivity|].
  subst m. simpl. f_equal. apply IH. lia.
Qed.

Lemma argmax_from_all_neg_infinity (m : nat) : forall best i,
  argmax_from best neg_infinity i (repeat neg_infinity m) = best.
Proof.
  induction m as [|m IH]; intros best i; cbn [repeat argmax_from]; [reflexivity|].
  rewrite ltb_neg_infinity. apply IH.
Qed.

(** X5. When the mask forbids every action, the exploitation branch does not
    fail: every action value is set to negative infinity and the arg-max
    settles on position 0, an action the mask forbids. *)
Theorem all_masked_exploit_returns_first
    (n : nat) (q_network : network) (features : list ndarray) (mask : ndarray)
    (eps u : float) (draw : nat) (q : list float) :
  (eps <=? u)%float = true ->
  q_network (model_input features) = Ok q ->
  length q = length mask ->
  mask <> [] ->
  Forall (fun m => m = 0%Z) mask ->
  act (MaskDiscrete n) q_network (features ++ [mask]) eps u draw = Ok 0%nat /\
  ~ valid_action mask 0.
Proof.
  intros Hb Hq Hlen Hne Hall. split.
  - unfold act. rewrite Hb, preprocess_masked. simpl. rewrite Hq. simpl.
    rewrite mask_fill_all_zero by assumption. simpl.
    destruct mask as [|m mask]; [contradiction|]. simpl.
    now rewrite argmax_from_all_neg_infinity.
  - intros (m & Hm & Hnz). destruct mask as [|m0 mask]; [contradiction|].
    simpl in Hm. injection Hm as ->. inversion Hall; subst. contradiction.
Qed.

Lemma all_masked_exploit_returns_first_witness :
  act (MaskDiscrete 3) constant_network [[5%Z]; [0; 0; 0]%Z] 0.1 0.5 7 = Ok 0%nat.
Proof.
  apply (all_masked_exploit_returns_first 3 constant_network [[5%Z]] [0; 0; 0]%Z
           0.1 0.5 7 [0.5; 0.75; 0.25]%float).
  - reflexivity.
  - reflexivity.
  - reflexivity.
  - discriminate.
  - repeat constructor.
Defined.

(** X6. [act] with a [MaskDiscrete] space.  On an empty observation tuple
    it raises [IndexError] in both branches, before the network is called.
    When it explores, the network is not consulted: the result is the same
    whatever the network is.  When it exploits on a tuple that ends with a
    mask, a fault of the network is passed on as it is, and a row of action
    values that has the mask's length (and an entry) gives an action below
    that length. *)
Theorem masked_act_failures
    (n : nat) (q_network : network) (features : list ndarray) (mask : ndarray)
    (eps u : float) (draw : nat) :
  act (MaskDiscrete n) q_network [] eps u draw = Raise IndexError /\
  ((eps <=? u)%float = false ->
     forall (other : network) (obs : observation),
       act (MaskDiscrete n) q_network obs eps u draw =
       act (MaskDiscrete n) other obs eps u draw) /\
  ((eps <=? u)%float = true ->
     (forall e, q_network (model_input features) = Raise e ->
        act (MaskDiscrete n) q_network (features ++ [mask]) eps u draw = Raise e) /\
     (forall q, q_network (model_input features) = Ok q ->
        length q = length mask -> mask <> [] ->
        exists a, act (MaskDiscrete n) q_network (features ++ [mask]) eps u draw = Ok a /\
                  (a < length mask)%nat)).
Proof.
  split; [|split].
  - unfold act, preprocess_observation. simpl is_MaskDiscrete. cbv iota.
    rewrite py_index_nil. now destruct (eps <=? u)%float.
  - intros Hb other obs. unfold act. now rewrite Hb.
  - intro Hb. unfold act. rewrite Hb, preprocess_masked. cbn [rbind].
    split.
    + intros e He. now rewrite He.
    + intros q Hq Hlen Hne. rewrite Hq. cbn [rbind].
      destruct (mask_fill q mask) as [q'|e] eqn:Hfill.
      * cbn [rbind]. destruct (mask_fill_nth _ _ _ Hfill) as (Hlen' & _ & _).
        destruct q' as [|x l].
        { destruct mask; [contradiction | discriminate]. }
        eexists. split; [reflexivity|]. rewrite <- Hlen'.
        apply argmax_in_range. reflexivity.
      * unfold mask_fill in Hfill. rewrite Hlen, Nat.eqb_refl in Hfill. discriminate.
Qed.

Lemma masked_act_failures_witness :
  act (MaskDiscrete 3) faulty_network [[5%Z]; [1; 0; 1]%Z] 0.1 0.5 0 = Raise (Fault 3) /\
  act (MaskDiscrete 3) faulty_network [[5%Z]; [1; 0; 1]%Z] 0.9 0.5 1 =
  act (MaskDiscrete 3) constant_network [[5%Z]; [1; 0; 1]%Z] 0.9 0.5 1.
Proof.
  split.
  - destruct (masked_act_failures 3 faulty_network [[5%Z]] [1; 0; 1]%Z 0.1 0.5 0)
      as (_ & _ & H).
    destruct (H eq_refl) as (Hfault & _).
    apply Hfault. reflexivity.
  - destruct (masked_act_failures 3 faulty_network [[5%Z]] [1; 0; 1]%Z 0.9 0.5 1)
      as (_ & H & _).
    apply H. reflexivity.
Defined.

(** ** The outcome window *)

Lemma deque_extend_app {A} (d : deque A) (xs ys : list A) :
  deque_extend d (xs ++ ys) = deque_extend (deque_extend d xs) ys.
Proof. unfold deque_extend. apply fold_left_app. Qed.

Lemma deque_clear_wf {A} (d : deque A) : deque_wf (deque_clear d).
Proof. unfold deque_wf, deque_len, deque_clear. simpl. lia. Qed.

Section Window.

Variable D : Type.

(** The window after an update: the old one with the drained outcomes
    appended, or that window cleared. *)
Lemma update_window_cases (self : MCAgent.agent D) (queue : list float) :
  let recent := deque_extend (MCAgent._recent_outcomes self) queue in
  let self' := fst (MCAgent._update_curriculum_difficulty self queue) in
  MCAgent._recent_outcomes self' = recent \/
  MCAgent._recent_outcomes self' = deque_clear recent.
Proof.
  cbv zeta. unfold MCAgent._update_curriculum_difficulty.
  destruct (_ && _); [|now left].
  destruct (MCAgent.winning_rate_of _); [|now left].
  destruct (py_index _ _); [|now left].
  destruct (_ && _); [now right | now left].
Qed.

(** An update that finds no higher level leaves the index alone and only
    appends to the window, whatever else happens in it. *)
Lemma update_at_top (self : MCAgent.agent D) (queue : list float) :
  (Z.of_nat (length (MCAgent._difficulties self)) <= MCAgent._cur_difficulty_idx self + 1)%Z ->
  fst (MCAgent._update_curriculum_difficulty self queue) =
  MCAgent.set_curriculum self (MCAgent._cur_difficulty_idx self)
    (deque_extend (MCAgent._recent_outcomes self) queue).
Proof.
  intro Htop. unfold MCAgent._update_curriculum_difficulty.
  destruct (_ && _); [|reflexivity].
  destruct (MCAgent.winning_rate_of _); [|reflexivity].
  destruct (py_index _ _); [|reflexivity].
  cbn [MCAgent._cur_difficulty_idx MCAgent._difficulties MCAgent.set_curriculum].
  destruct (Z.ltb_spec (MCAgent._cur_difficulty_idx self + 1)
              (Z.of_nat (length (MCAgent._difficulties self)))); [lia|].
  now rewrite andb_false_r.
Qed.

Lemma run_at_top (queues : list (list float)) : forall self : MCAgent.agent D,
  (Z.of_nat (length (MCAgent._difficulties self)) <= MCAgent._cur_difficulty_idx self + 1)%Z ->
  MCAgent.run_curriculum self queues =
  MCAgent.set_curriculum self (MCAgent._cur_difficulty_idx self)
    (deque_extend (MCAgent._recent_outcomes self) (concat queues)).
Proof.
  unfold MCAgent.run_curriculum.
  induction queues as [|q queues IH]; intros self Htop; simpl.
  - now destruct self.
  - rewrite update_at_top by exact Htop. rewrite IH by exact Htop.
    cbn [MCAgent._cur_difficulty_idx MCAgent._recent_outcomes MCAgent.set_curriculum].
    now rewrite deque_extend_app.
Qed.

End Window.

(** X7. Whatever the configuration and whatever the curriculum updates find
    in the outcome channel, the outcome window of the agent keeps its bound
    of 1000 and never holds more than 1000 outcomes. *)
Theorem outcome_window_bounded
    (D : Type) (c : MCAgent.config D) (queues : list (list float)) :
  let st := MCAgent.run_curriculum (MCAgent.attributes c) queues in
  maxlen (MCAgent._recent_outcomes st) = 1000%nat /\
  (deque_len (MCAgent._recent_outcomes st) <= 1000)%nat.
Proof.
  cbv zeta. unfold MCAgent.run_curriculum.
  assert (H : forall st : MCAgent.agent D,
             maxlen (MCAgent._recent_outcomes st) = 1000%nat /\
             deque_wf (MCAgent._recent_outcomes st) ->
             let st' := fold_left
                          (fun st q => fst (MCAgent._update_curriculum_difficulty st q))
                          queues st in
             maxlen (MCAgent._recent_outcomes st') = 1000%nat /\
             deque_wf (MCAgent._recent_outcomes st')).
  { induction queues as [|q queues IH]; intros st Hst; simpl; [exact Hst|].
    apply IH. destruct Hst as [Hmax Hwf].
    destruct (update_window_cases D st q) as [-> | ->].
    - split; [now rewrite deque_extend_maxlen | now apply deque_extend_wf].
    - split; [simpl; now rewrite deque_extend_maxlen | apply deque_clear_wf]. }
  destruct (H (MCAgent.attributes c)) as [Hmax Hwf].
  - split; [reflexivity | unfold deque_wf, deque_len; simpl; lia].
  - split; [exact Hmax|]. unfold deque_wf in Hwf. now rewrite Hmax in Hwf.
Qed.

(** X8. At the top level (no level above the current index) a series of
    curriculum updates never moves the index, and the window slides: it
    holds the most recent 1000 of the outcomes it held and of all those
    drained since, oldest first. *)
Theorem window_slides_at_top
    (D : Type) (self : MCAgent.agent D) (history : list float)
    (queues : list (list float)) :
  (Z.of_nat (length (MCAgent._difficulties self)) <= MCAgent._cur_difficulty_idx self + 1)%Z ->
  maxlen (MCAgent._recent_outcomes self) = 1000%nat ->
  items (MCAgent._recent_outcomes self) = lastn 1000 history ->
  let st := MCAgent.run_curriculum self queues in
  MCAgent._cur_difficulty_idx st = MCAgent._cur_difficulty_idx self /\
  items (MCAgent._recent_outcomes st) = lastn 1000 (history ++ concat queues).
Proof.
  intros Htop Hmax Hitems. cbv zeta. rewrite run_at_top by exact Htop.
  cbn [MCAgent._cur_difficulty_idx MCAgent._recent_outcomes MCAgent.set_curriculum].
  split; [reflexivity|].
  rewrite <- Hmax. apply deque_extend_lastn. now rewrite Hmax.
Qed.

Lemma window_slides_at_top_witness :
  items (MCAgent._recent_outcomes
           (MCAgent.run_curriculum (MCAgent.attributes single_level_config)
              [thousand_wins; [0.5; -1]%float])) =
  lastn 1000 (thousand_wins ++ [0.5; -1]%float).
Proof.
  destruct (window_slides_at_top nat (MCAgent.attributes single_level_config) []
              [thousand_wins; [0.5; -1]%float]) as [_ H].
  - vm_compute. discriminate.
  - reflexivity.
  - reflexivity.
  - rewrite H. vm_compute. reflexivity.
Defined.

(** X9. An agent constructed with an empty list of difficulty levels takes
    curriculum updates until a thousand outcomes have come in: the update
    that drains the outcome filling the window raises [IndexError] (the
    report of the current level indexes the empty list); the outcomes it
    drained stay in the window. *)
Theorem empty_difficulties_end_curriculum
    (D : Type) (c : MCAgent.config D) (queues : list (list float)) (queue : list float) :
  MCAgent.difficulties c = [] ->
  queue <> [] ->
  let st := MCAgent.run_curriculum (MCAgent.attributes c) queues in
  ((length (concat queues) + length queue < 1000)%nat ->
     snd (MCAgent._update_curriculum_difficulty st queue) = Ok tt) /\
  ((1000 <= length (concat queues) + length queue)%nat ->
     snd (MCAgent._update_curriculum_difficulty st queue) = Raise IndexError) /\
  items (MCAgent._recent_outcomes (fst (MCAgent._update_curriculum_difficulty st queue)))
    = lastn 1000 (concat queues ++ queue).
Proof.
  intros Hd Hq. cbv zeta.
  assert (Htop : (Z.of_nat (length (MCAgent._difficulties (MCAgent.attributes c)))
                  <= MCAgent._cur_difficulty_idx (MCAgent.attributes c) + 1)%Z)
    by (simpl; rewrite Hd; simpl; unfold c_int; simpl; lia).
  rewrite run_at_top by exact Htop.
  set (st := MCAgent.set_curriculum _ _ _).
  assert (Hitems : items (deque_extend (MCAgent._recent_outcomes st) queue)
                   = lastn 1000 (concat queues ++ queue)).
  { unfold st. cbn [MCAgent._recent_outcomes MCAgent.set_curriculum].
    rewrite <- deque_extend_app.
    change 1000%nat with (maxlen (MCAgent._recent_outcomes (MCAgent.attributes c))).
    now apply (deque_extend_lastn (concat queues ++ queue) _ []). }
  assert (Hmax : maxlen (deque_extend (MCAgent._recent_outcomes st) queue) = 1000%nat)
    by (unfold st; cbn [MCAgent._recent_outcomes MCAgent.set_curriculum];
        now rewrite !deque_extend_maxlen).
  assert (Hlen : deque_len (deque_extend (MCAgent._recent_outcomes st) queue)
                 = Nat.min 1000 (length (concat queues) + length queue))
    by (unfold deque_len; now rewrite Hitems, lastn_length, length_app).
  split; [|split].
  - intro Hlt. unfold MCAgent._update_curriculum_difficulty.
    rewrite Hlen, Hmax.
    destruct (Nat.eqb_spec (Nat.min 1000 (length (concat queues) + length queue)) 1000);
      [lia|].
    now rewrite andb_false_r.
  - intro Hge. unfold MCAgent._update_curriculum_difficulty.
    rewrite Hmax.
    replace (negb (length queue =? 0)%nat) with true
      by (destruct queue; [contradiction | reflexivity]).
    rewrite (proj2 (Nat.eqb_eq _ _)) by (rewrite Hlen; lia).
    cbn [andb]. rewrite winning_rate_of_full by (rewrite Hlen; lia).
    cbn [MCAgent._difficulties MCAgent.set_curriculum].
    replace (MCAgent._difficulties st) with (@nil D) by (unfold st; simpl; now rewrite Hd).
    now rewrite py_index_nil.
  - assert (Htop' : (Z.of_nat (length (MCAgent._difficulties st))
                     <= MCAgent._cur_difficulty_idx st + 1)%Z) by exact Htop.
    rewrite update_at_top by exact Htop'. exact Hitems.
Qed.

Lemma empty_difficulties_end_curriculum_witness :
  snd (MCAgent._update_curriculum_difficulty
         (MCAgent.run_curriculum (MCAgent.attributes eval_config) [repeat 1%float 999])
         [-1]%float) = Raise IndexError.
Proof.
  destruct (empty_difficulties_end_curriculum nat eval_config [repeat 1%float 999]
              [-1]%float) as (_ & H & _).
  - reflexivity.
  - discriminate.
  - apply H. vm_compute. lia.
Defined.

(** ** The learner loop *)

Lemma wbind_done {E X Y} (m : W E X) (k : X -> W E Y) evs y :
  wbind m k = (evs, Done y) ->
  exists evs1 x evs2, m = (evs1, Done x) /\ k x = (evs2, Done y) /\ evs = evs1 ++ evs2.
Proof.
  destruct m as [evs1 [x| |]]; simpl; try discriminate.
  destruct (k x) as [evs2 o] eqn:Ek. intro H. injection H as <- ->.
  now exists evs1, x, evs2.
Qed.

Lemma call_done {E X} (r : result X) (evs : list E) x :
  call r = (evs, Done x) -> r = Ok x /\ evs = [].
Proof. destruct r; simpl; intro H; [injection H as <- <-; auto | discriminate]. Qed.

Ltac wbind_inv H :=
  let evs1 := fresh "evs" in
  let x := fresh "x" in
  let evs2 := fresh "evs" in
  let H1 := fresh "H" x in
  let He := fresh "He" in
  apply wbind_done in H; destruct H as (evs1 & x & evs2 & H1 & H & He).


Ltac wbind_as H e1 x e2 Hm :=
  apply wbind_done in H; destruct H as (e1 & x & e2 & Hm & H & ->).

Section Learner.

Variable D : Type.
Variable math_exp : float -> float.
Variable outcomes_at : nat -> list float.
Variable loss_at : nat -> float.

Lemma update_is_set (self : MCAgent.agent D) (queue : list float) :
  exists idx win,
    fst (MCAgent._update_curriculum_difficulty self queue) =
    MCAgent.set_curriculum self idx win.
Proof.
  unfold MCAgent._update_curriculum_difficulty.
  set (recent := deque_extend (MCAgent._recent_outcomes self) queue).
  assert (Hsame : exists idx win,
             MCAgent.set_curriculum self (MCAgent._cur_difficulty_idx self) recent =
             MCAgent.set_curriculum self idx win) by eauto.
  destruct (_ && _); [|exact Hsame].
  destruct (MCAgent.winning_rate_of _); [|exact Hsame].
  destruct (py_index _ _); [|exact Hsame].
  destruct (_ && _); [|exact Hsame].
  exists (c_int (MCAgent._cur_difficulty_idx self + 1)), (deque_clear recent).
  reflexivity.
Qed.

(** A completed round: the step counter goes up by one, the rate of the
    step has been published and stored, one optimizer step was made, and
    the settings are what they were. *)
Lemma learn_iteration_done (i : nat) (self : MCAgent.agent D) (steps : Z) (ls : float)
    evs self' steps' ls' :
  MCAgent.learn_iteration math_exp outcomes_at loss_at i (self, steps, ls)
    = (evs, Done (self', steps', ls')) ->
  exists eps report,
    MCAgent._get_current_eps math_exp self steps = Ok eps /\
    MCAgent._current_eps self' = eps /\
    steps' = (steps + 1)%Z /\
    settings self' = settings self /\
    MCAgent._target_update_freq self <> 0%Z /\
    (report = [] \/ exists mean, report = [MCAgent.Reported (steps + 1) eps mean]) /\
    evs = round_events self steps eps (loss_at i) report /\
    MCAgent._print_freq self <> 0%Z /\
    (if ((steps + 1) mod MCAgent._print_freq self =? 0)%Z
     then report = [MCAgent.Reported (steps + 1) eps
                      ((ls + loss_at i) / float_of_Z (MCAgent._print_freq self))] /\
          ls' = 0%float
     else report = [] /\ ls' = (ls + loss_at i)%float).
Proof.
  unfold MCAgent.learn_iteration. intro H.
  wbind_as H e1 m e1' Hmod. apply call_done in Hmod. destruct Hmod as [Hmod ->].
  wbind_as H e2 u2 e2' Htarget.
  wbind_as H e3 eps e3' Heps. apply call_done in Heps. destruct Heps as [Heps ->].
  wbind_as H e4 u4 e4' Hpub. unfold emit in Hpub. injection Hpub as <- <-.
  destruct (update_is_set (MCAgent.set_current_eps self eps) (outcomes_at i))
    as (idx & win & Hset).
  destruct (MCAgent._update_curriculum_difficulty _ _) as [self1 r]. simpl in Hset.
  subst self1.
  wbind_as H e5 u5 e5' Hcur. apply call_done in Hcur. destruct Hcur as [_ ->].
  wbind_as H e6 loss e6' Hopt. apply call_done in Hopt. destruct Hopt as [Hopt ->].
  wbind_as H e7 u7 e7' Hemit. unfold emit in Hemit. injection Hemit as <- <-.
  wbind_as H e8 u8 e8' Hsave.
  wbind_as H e9 pm e9' Hpm. apply call_done in Hpm. destruct Hpm as [Hpm ->].
  unfold MCAgent._optimize in Hopt.
  destruct (MCAgent.known_loss _); [|discriminate]. injection Hopt as <-.
  unfold py_mod in Hmod, Hpm.
  destruct (Z.eqb_spec (MCAgent._target_update_freq self) 0) as [|Hfreq]; [discriminate|].
  injection Hmod as <-.
  (* the events of the save *)
  assert (Hsave' : e8 = if MCAgent._save_model_dir self
                        then if ((steps + 1) mod MCAgent._save_model_freq self =? 0)%Z
                             then [MCAgent.ModelSaved (steps + 1)] else []
                        else []).
  { cbn [MCAgent._save_model_dir MCAgent._save_model_freq MCAgent.set_curriculum
           MCAgent.set_current_eps] in Hsave.
    destruct (MCAgent._save_model_dir self).
    - wbind_as Hsave f1 sm f1' Hsm. apply call_done in Hsm. destruct Hsm as [Hsm ->].
      unfold py_mod in Hsm. destruct (MCAgent._save_model_freq self =? 0)%Z; [discriminate|].
      injection Hsm as <-. simpl. unfold emit, wret in Hsave.
      destruct ((steps + 1) mod MCAgent._save_model_freq self =? 0)%Z;
        now injection Hsave as <-.
    - unfold wret in Hsave. now injection Hsave as <-. }
  (* the events of the target refresh *)
  assert (Htarget' : e2 = if (steps mod MCAgent._target_update_freq self =? 0)%Z
                          then [MCAgent.TargetUpdated steps] else []).
  { unfold emit, wret in Htarget.
    destruct (steps mod MCAgent._target_update_freq self =? 0)%Z;
      now injection Htarget as <-. }
  cbn [MCAgent._print_freq MCAgent.set_curriculum MCAgent.set_current_eps] in Hpm, H.
  destruct (Z.eqb_spec (MCAgent._print_freq self) 0) as [|Hpf]; [discriminate|].
  injection Hpm as <-.
  destruct ((steps + 1) mod MCAgent._print_freq self =? 0)%Z.
  - wbind_as H g1 mean g1' Hmean. apply call_done in Hmean. destruct Hmean as [Hmean ->].
    wbind_as H g2 u g2' Hrep. injection Hrep as <- <-. unfold wret in H.
    injection H as <- <- <- <-.
    unfold py_truediv in Hmean.
    destruct (_ =? 0)%float; [discriminate|]. injection Hmean as <-.
    eexists eps, [MCAgent.Reported (steps + 1) eps _].
    repeat split; try assumption; try reflexivity; [right; eauto|].
    subst e2 e8. unfold round_events. simpl. reflexivity.
  - unfold wret in H. injection H as <- <- <- <-.
    exists eps, []. repeat split; try assumption; try reflexivity; [now left|].
    subst e2 e8. unfold round_events. simpl. now rewrite ?app_nil_r.
Qed.

Lemma eps_of_settings (self self' : MCAgent.agent D) (t : Z) :
  settings self' = settings self ->
  MCAgent._get_current_eps math_exp self' t = MCAgent._get_current_eps math_exp self t.
Proof.
  unfold settings. intro H. injection H as _ _ _ _ _ Hm Hs He Hd Hd2.
  unfold MCAgent._get_current_eps. now rewrite Hm, Hs, He, Hd, Hd2.
Qed.

Lemma multiples_of_S (freq first : Z) (n : nat) :
  multiples_of freq first (S n) =
  (if (first mod freq =? 0)%Z then [first] else []) ++ multiples_of freq (first + 1) n.
Proof.
  unfold multiples_of. cbn [seq map filter]. rewrite Z.add_0_r.
  rewrite <- seq_shift, map_map.
  rewrite (map_ext (fun i => (first + Z.of_nat (S i))%Z) (fun i => (first + 1 + Z.of_nat i)%Z))
    by (intro; lia).
  now destruct (first mod freq =? 0)%Z.
Qed.

Lemma round_events_read (self : MCAgent.agent D) (steps : Z) (eps loss : float) report :
  (report = [] \/ exists mean, report = [MCAgent.Reported (steps + 1) eps mean]) ->
  target_updates (round_events self steps eps loss report) =
    (if (steps mod MCAgent._target_update_freq self =? 0)%Z then [steps] else []) /\
  published (round_events self steps eps loss report) = [eps] /\
  optimized (round_events self steps eps loss report) = [loss] /\
  saved_steps (round_events self steps eps loss report) =
    (if MCAgent._save_model_dir self
     then if ((steps + 1) mod MCAgent._save_model_freq self =? 0)%Z
          then [(steps + 1)%Z] else []
     else []).
Proof.
  intro Hrep. unfold round_events, target_updates, published, optimized, saved_steps.
  rewrite !flat_map_app.
  destruct Hrep as [-> | [mean ->]];
    destruct (steps mod MCAgent._target_update_freq self =? 0)%Z;
    destruct (MCAgent._save_model_dir self);
    try destruct ((steps + 1) mod MCAgent._save_model_freq self =? 0)%Z;
    repeat split; reflexivity.
Qed.

(** Completed rounds of the loop, from any state of the learner. *)
Lemma learn_loop_done (n : nat) : forall i (self : MCAgent.agent D) steps ls
    evs self' steps' ls',
  MCAgent.learn_loop math_exp outcomes_at loss_at i n (self, steps, ls)
    = (evs, Done (self', steps', ls')) ->
  steps' = (steps + Z.of_nat n)%Z /\
  settings self' = settings self /\
  target_updates evs = multiples_of (MCAgent._target_update_freq self) steps n /\
  optimized evs = map loss_at (seq i n) /\
  Forall2 (fun s eps => MCAgent._get_current_eps math_exp self s = Ok eps)
          (map (fun k => (steps + Z.of_nat k)%Z) (seq 0 n)) (published evs) /\
  saved_steps evs =
    (if MCAgent._save_model_dir self
     then multiples_of (MCAgent._save_model_freq self) (steps + 1) n else []) /\
  (n <> 0%nat -> MCAgent._get_current_eps math_exp self (steps + Z.of_nat n - 1)
                 = Ok (MCAgent._current_eps self')) /\
  (n = 0%nat -> self' = self).
Proof.
  induction n as [|n IH]; intros i self steps ls evs self' steps' ls' H.
  - cbn [MCAgent.learn_loop] in H. unfold wret in H. injection H as <- <- <- <-.
    split; [lia|]. split; [reflexivity|]. split; [reflexivity|].
    split; [reflexivity|]. split; [constructor|].
    split; [now destruct (MCAgent._save_model_dir self)|].
    split; [intro Hn; now contradiction Hn | reflexivity].
  - cbn [MCAgent.learn_loop] in H.
    wbind_as H e1 st1 e2 Hround. destruct st1 as [[self1 steps1] ls1].
    apply learn_iteration_done in Hround.
    destruct Hround as (eps & report & Heps & Hcur & -> & Hset & Hfreq & Hrep & -> & _).
    apply IH in H.
    destruct H as (-> & Hset' & Htar & Hopt & Hpub & Hsav & Hlast & Hzero).
    destruct (round_events_read self steps eps (loss_at i) report Hrep)
      as (Rt & Rp & Ro & Rs).
    assert (Hs := Hset). unfold settings in Hs. injection Hs as Htf Hsd Hsf _ _ _ _ _ _ _.
    unfold target_updates, published, optimized, saved_steps in *.
    rewrite !flat_map_app, Rt, Rp, Ro, Rs, Htar, Hopt, Hsav, Htf, Hsd, Hsf.
    split; [lia|]. split; [congruence|].
    split; [now rewrite multiples_of_S|].
    split; [reflexivity|].
    split; [|split; [|split]].
    + cbn [seq map app]. rewrite Z.add_0_r. constructor; [exact Heps|].
      rewrite <- seq_shift, map_map.
      rewrite (map_ext (fun k => (steps + Z.of_nat (S k))%Z)
                       (fun k => (steps + 1 + Z.of_nat k)%Z)) by (intro; lia).
      eapply Forall2_impl; [|exact Hpub].
      intros s e He. cbv beta in He. now rewrite <- (eps_of_settings self self1 s Hset).
    + destruct (MCAgent._save_model_dir self); [|reflexivity].
      now rewrite multiples_of_S.
    + intros _. destruct n as [|n].
      * rewrite (Hzero eq_refl), Hcur.
        replace (steps + Z.of_nat 1 - 1)%Z with steps by lia. exact Heps.
      * rewrite <- (eps_of_settings self self1 _ Hset).
        replace (steps + Z.of_nat (S (S n)) - 1)%Z
          with (steps + 1 + Z.of_nat (S n) - 1)%Z by lia.
        apply Hlast. discriminate.
    + discriminate.
Qed.

End Learner.

Lemma started_read (D : Type) (self : MCAgent.agent D) (workers : nat) :
  target_updates (started self workers) = [] /\
  published (started self workers) = [] /\
  optimized (started self workers) = [] /\
  saved_steps (started self workers) = [].
Proof.
  unfold started, target_updates, published, optimized, saved_steps.
  rewrite !flat_map_app.
  generalize (seq 0 workers) as l1, (seq 0 (Z.to_nat (MCAgent._num_threads self))) as l2.
  intros l1 l2.
  assert (H1 : forall (A : Type) (f : MCAgent.learner_event -> list A),
             (forall pid, f (MCAgent.ActorStarted pid) = []) ->
             flat_map f (map (fun pid => MCAgent.ActorStarted (Z.of_nat pid)) l1) = [])
    by (intros A f Hf; induction l1; simpl; [|rewrite Hf]; auto).
  assert (H2 : forall (A : Type) (f : MCAgent.learner_event -> list A),
             (forall tid, f (MCAgent.BatchThreadStarted tid) = []) ->
             flat_map f (map (fun tid => MCAgent.BatchThreadStarted (Z.of_nat tid)) l2) = [])
    by (intros A f Hf; induction l2; simpl; [|rewrite Hf]; auto).
  rewrite !H1, !H2 by reflexivity. auto.
Qed.

Lemma learn_done (D : Type) (math_exp : float -> float) (outcomes_at : nat -> list float)
    (loss_at : nat -> float) (self : MCAgent.agent D) (workers n : nat) evs st :
  MCAgent.learn math_exp outcomes_at loss_at self workers n = (evs, Done st) ->
  exists evs',
    evs = started self workers ++ evs' /\
    MCAgent.learn_loop math_exp outcomes_at loss_at 0 n (self, 0%Z, 0%float)
      = (evs', Done st).
Proof.
  unfold MCAgent.learn, MCAgent._init_parallel_actors. fold (started self workers).
  cbn [wbind]. destruct (MCAgent.learn_loop _ _ _ _ _ _) as [evs' out].
  intro H. injection H as <- ->. eauto.
Qed.

(** X10. In a run of [learn] whose first [n] rounds complete, the step
    counter is [n]; each round publishes the exploration rate of its step
    (rounds 0, 1, ..., n - 1, in this order) and makes one optimizer step on
    one batch; the rate stored in the agent at the end is the one of step
    [n - 1]. *)
Theorem learner_counts_steps
    (D : Type) (math_exp : float -> float) (outcomes_at : nat -> list float)
    (loss_at : nat -> float) (self : MCAgent.agent D) (workers n : nat)
    (evs : list MCAgent.learner_event) (self' : MCAgent.agent D) (steps : Z)
    (loss_sum : float) :
  MCAgent.learn math_exp outcomes_at loss_at self workers n
    = (evs, Done (self', steps, loss_sum)) ->
  steps = Z.of_nat n /\
  optimized evs = map loss_at (seq 0 n) /\
  Forall2 (fun s eps => MCAgent._get_current_eps math_exp self s = Ok eps)
          (map Z.of_nat (seq 0 n)) (published evs) /\
  (n <> 0%nat ->
   MCAgent._get_current_eps math_exp self (Z.of_nat n - 1)
     = Ok (MCAgent._current_eps self')).
Proof.
  intro H. apply learn_done in H. destruct H as (evs' & -> & H).
  apply learn_loop_done in H.
  destruct H as (-> & _ & _ & Hopt & Hpub & _ & Hlast & _).
  destruct (started_read D self workers) as (_ & Sp & So & _).
  unfold published, optimized in *. rewrite !flat_map_app, Sp, So. cbn [app].
  split; [lia|]. split; [exact Hopt|]. split; [exact Hpub|].
  intro Hn. apply Hlast in Hn. now rewrite Z.add_0_l in Hn.
Qed.

(** X11. In a run of [learn] whose first [n] rounds complete, the target
    network is refreshed exactly at the steps among 0, ..., n - 1 that are
    multiples of [target_update_freq] (step 0 included), and the model is
    saved exactly after the steps among 1, ..., n that are multiples of
    [save_model_freq] when a directory to save to was given, and never
    otherwise. *)
Theorem target_and_checkpoint_periods
    (D : Type) (math_exp : float -> float) (outcomes_at : nat -> list float)
    (loss_at : nat -> float) (self : MCAgent.agent D) (workers n : nat)
    (evs : list MCAgent.learner_event) (st : MCAgent.learner_state D) :
  MCAgent.learn math_exp outcomes_at loss_at self workers n = (evs, Done st) ->
  target_updates evs = multiples_of (MCAgent._target_update_freq self) 0 n /\
  saved_steps evs =
    (if MCAgent._save_model_dir self
     then multiples_of (MCAgent._save_model_freq self) 1 n else []).
Proof.
  intro H. apply learn_done in H. destruct H as (evs' & -> & H).
  destruct st as [[self' steps] ls].
  apply learn_loop_done in H.
  destruct H as (_ & _ & Htar & _ & _ & Hsav & _).
  destruct (started_read D self workers) as (St & _ & _ & Ss).
  unfold target_updates, saved_steps in *. rewrite !flat_map_app, St, Ss. cbn [app].
  split; [exact Htar | exact Hsav].
Qed.

Lemma checkpoint_run_eq n :
  checkpoint_run n =
  MCAgent.learn (fun x => x) (fun _ => []) (fun i => float_of_Z (Z.of_nat i))
    (MCAgent.attributes checkpoint_config) 2 n.
Proof. reflexivity. Qed.

Lemma checkpoint_run_12 : exists evs st,
  MCAgent.learn (fun x => x) (fun _ => []) (fun i => float_of_Z (Z.of_nat i))
    (MCAgent.attributes checkpoint_config) 2 12 = (evs, Done st).
Proof. vm_compute. eexists. eexists. reflexivity. Qed.

Lemma learner_counts_steps_witness :
  optimized (fst (checkpoint_run 12)) = map (fun i => float_of_Z (Z.of_nat i)) (seq 0 12) /\
  length (published (fst (checkpoint_run 12))) = 12%nat.
Proof.
  rewrite checkpoint_run_eq.
  destruct checkpoint_run_12 as (evs & [[self' steps] ls] & E).
  rewrite E. cbn [fst].
  pose proof (learner_counts_steps nat _ _ _ _ _ _ _ _ _ _ E) as (_ & Hopt & Hpub & _).
  split; [exact Hopt|].
  apply Forall2_length in Hpub. rewrite length_map, length_seq in Hpub. symmetry. exact Hpub.
Defined.

Lemma target_and_checkpoint_periods_witness :
  target_updates (fst (checkpoint_run 12)) = [0; 10]%Z /\
  saved_steps (fst (checkpoint_run 12)) = [5; 10]%Z.
Proof.
  rewrite checkpoint_run_eq.
  destruct checkpoint_run_12 as (evs & st & E).
  rewrite E. cbn [fst].
  destruct (target_and_checkpoint_periods nat _ _ _ _ _ _ _ _ E) as [Ht Hs].
  split; [rewrite Ht | rewrite Hs]; vm_compute; reflexivity.
Defined.

(** ** The batch thread: what it puts and at what pace *)

Lemma transitions_to_batch_rows (transitions : list MCAgent.transition) (b : MCAgent.batch) :
  MCAgent._transitions_to_batch transitions = Ok b ->
  transitions <> [] /\ batch_rows b = transitions /\
  (let '(obs_batch, action_batch, value_batch) := b in
   length obs_batch = length transitions /\
   length action_batch = length transitions /\
   length value_batch = length transitions).
Proof.
  unfold MCAgent._transitions_to_batch. intro H.
  assert (Hrows : forall l : list MCAgent.transition,
             combine (combine (map (fun t => fst (fst t)) l) (map (fun t => snd (fst t)) l))
                     (map (fun t => snd t) l) = l).
  { induction l as [|[[o a] v] l IH]; simpl; [reflexivity | now rewrite IH]. }
  destruct transitions as [|t l]; [discriminate|]. injection H as <-.
  split; [discriminate|]. split; [exact (Hrows (t :: l))|].
  cbn [length].
  now rewrite !length_map.
Qed.

Lemma lastn_incl {A} (n : nat) (l : list A) (x : A) : In x (lastn n l) -> In x l.
Proof.
  unfold lastn. intro H. rewrite <- (firstn_skipn (length l - n) l).
  apply in_or_app. now right.
Qed.

Section BatchRows.

Variable D : Type.
Variable transition_supply : nat -> MCAgent.transition.
Variable sampler_draw : nat -> nat -> nat.
Variable self : MCAgent.agent D.


Lemma batch_ok_mono (st st' : MCAgent.assembler) (b : MCAgent.batch) :
  (MCAgent.taken st <= MCAgent.taken st')%nat -> batch_ok transition_supply self st b -> batch_ok transition_supply self st' b.
Proof.
  unfold batch_ok. destruct b as [[obs_batch action_batch] value_batch].
  intros Hle (Hpos & Hlo & Hla & Hlv & Hall). repeat (split; [assumption|]).
  eapply Forall_impl; [|exact Hall]. intros t Ht. cbv beta in *.
  apply in_map_iff in Ht. destruct Ht as (k & <- & Hk). apply in_map.
  apply in_seq in Hk. apply in_seq. lia.
Qed.

Lemma prepare_iteration_batches (p : MCAgent.pace) (it : nat) (st st' : MCAgent.assembler) :
  MCAgent.prepare_iteration transition_supply sampler_draw self p it st = Ok st' ->
  MCAgent.buffer_inv transition_supply st ->
  Forall (batch_ok transition_supply self st) (MCAgent.put_batches st) ->
  (MCAgent.taken st <= MCAgent.taken st')%nat /\
  MCAgent.steps st' = (MCAgent.steps st + 1)%Z /\
  (length (MCAgent.put_batches st') <= S (length (MCAgent.put_batches st)))%nat /\
  Forall (batch_ok transition_supply self st') (MCAgent.put_batches st').
Proof.
  intros H Hinv Hall.
  destruct (prepare_iteration_inv D transition_supply sampler_draw self p it st st' H Hinv)
    as [Hinv' _].
  unfold MCAgent.prepare_iteration in H.
  rbind_inv H. rename x into st1, Hx into Htake.
  assert (H1 : (MCAgent.taken st <= MCAgent.taken st1)%nat /\
               MCAgent.steps st1 = (MCAgent.steps st + 1)%Z /\
               MCAgent.put_batches st1 = MCAgent.put_batches st).
  { destruct p as [k|f].
    - rbind_inv Htake. injection Htake as <-.
      destruct (x =? 0)%Z; simpl; repeat split; lia.
    - injection Htake as <-. simpl. repeat split; lia. }
  destruct H1 as (Hle & Hsteps & Hput).
  rbind_inv H. rename x into warm_up.
  destruct (_ <? _)%float.
  - injection H as <-. split; [exact Hle|]. split; [exact Hsteps|].
    rewrite Hput. split; [lia|].
    eapply Forall_impl; [|exact Hall]. intro b. now apply batch_ok_mono.
  - rbind_inv H. rename x into transitions, Hx0 into Hsample.
    rbind_inv H. rename x into b, Hx0 into Hb.
    injection H as <-. cbn [MCAgent.taken MCAgent.steps MCAgent.put_batches].
    split; [exact Hle|]. split; [exact Hsteps|].
    rewrite Hput, length_app. cbn [length]. split; [lia|].
    apply Forall_app. split.
    + eapply Forall_impl; [|exact Hall]. intro b'. now apply batch_ok_mono.
    + constructor; [|constructor].
      destruct (transitions_to_batch_rows transitions b Hb) as (Hne & Hrows & Hcols).
      assert (Hk : (0 <= MCAgent._batch_size self
                      <= Z.of_nat (length (items (MCAgent.memory st1))))%Z).
      { unfold random_sample in Hsample.
        destruct ((_ <? 0)%Z || _) eqn:Ek; [discriminate|].
        apply orb_false_elim in Ek. destruct Ek as [E1 E2].
        apply Z.ltb_ge in E1. apply Z.ltb_ge in E2. lia. }
      destruct (random_sample_ok (items (MCAgent.memory st1)) _ (sampler_draw it) Hk)
        as (ps & l & Hl & Hlen & Hnd & Hf2).
      rewrite Hl in Hsample. injection Hsample as <-.
      assert (Hlen2 : length l = Z.to_nat (MCAgent._batch_size self))
        by (rewrite <- Hlen; symmetry; eapply Forall2_length; exact Hf2).
      unfold batch_ok. rewrite Hrows. cbn [MCAgent.taken].
      destruct b as [[obs_batch action_batch] value_batch].
      destruct Hcols as (Hlo & Hla & Hlv).
      split; [|split; [congruence|split; [congruence|split; [congruence|]]]].
      * destruct l; [now contradiction Hne|]. cbn [length] in Hlen2. lia.
      * unfold MCAgent.buffer_inv in Hinv'. cbn [MCAgent.memory MCAgent.taken] in Hinv'.
        clear - Hf2 Hinv'. induction Hf2 as [|pos x ps l Hx _ IH]; constructor; [|exact IH].
        apply nth_error_In in Hx. rewrite Hinv' in Hx. now apply lastn_incl in Hx.
Qed.

Lemma prepare_loop_batches (p : MCAgent.pace) (n : nat) : forall it st st',
  MCAgent.prepare_loop transition_supply sampler_draw self p it n st = Ok st' ->
  MCAgent.buffer_inv transition_supply st ->
  Forall (batch_ok transition_supply self st) (MCAgent.put_batches st) ->
  MCAgent.steps st' = (MCAgent.steps st + Z.of_nat n)%Z /\
  (length (MCAgent.put_batches st') <= length (MCAgent.put_batches st) + n)%nat /\
  Forall (batch_ok transition_supply self st') (MCAgent.put_batches st').
Proof.
  induction n as [|n IH]; intros it st st' H Hinv Hall; cbn [MCAgent.prepare_loop] in H.
  - injection H as <-. split; [lia|]. split; [lia | exact Hall].
  - rbind_inv H. rename x into st1, Hx into Hround.
    destruct (prepare_iteration_inv D transition_supply sampler_draw self p it st st1
                Hround Hinv) as [Hinv1 _].
    destruct (prepare_iteration_batches p it st st1 Hround Hinv Hall)
      as (_ & Hs1 & Hl1 & Hall1).
    destruct (IH _ _ _ H Hinv1 Hall1) as (Hs & Hl & Hall').
    split; [lia|]. split; [lia | exact Hall'].
Qed.

End BatchRows.

(** X12. Whatever the channel supplies and the sampler draws, every batch a
    batch thread has put after [n] completed rounds has [batch_size] rows,
    with [batch_size] positive, in each of its three columns, and each row
    is a transition the thread has taken from the channel; at most one
    batch is put per round. *)
Theorem batches_hold_taken_transitions
    (D : Type) (supply : nat -> MCAgent.transition) (draw : nat -> nat -> nat)
    (self : MCAgent.agent D) (n : nat) (st : MCAgent.assembler) :
  MCAgent._prepare_batch supply draw self n = Ok st ->
  (length (MCAgent.put_batches st) <= n)%nat /\
  Forall (batch_ok supply self st) (MCAgent.put_batches st).
Proof.
  unfold MCAgent._prepare_batch. intro H.
  rbind_inv H. destruct x as [st0 p]. rename Hx into Hsetup.
  assert (Hst0 : items (MCAgent.memory st0) = [] /\ MCAgent.taken st0 = 0%nat /\
                 MCAgent.put_batches st0 = []).
  { unfold MCAgent.prepare_setup in Hsetup.
    rbind_inv Hsetup. rbind_inv Hsetup. rbind_inv Hsetup. rbind_inv Hsetup.
    injection Hsetup as <- _. cbn.
    destruct (deque_new_ok _ _ Hx1) as (Hitems & _). auto. }
  destruct Hst0 as (Hitems & Htaken & Hput).
  apply prepare_loop_batches in H.
  - rewrite Hput in H. destruct H as (_ & Hlen & Hall). auto.
  - unfold MCAgent.buffer_inv. rewrite Hitems, Htaken. cbn [seq map].
    unfold lastn. now rewrite skipn_nil.
  - rewrite Hput. constructor.
Qed.

Lemma batches_hold_taken_transitions_witness :
  exists st,
    MCAgent._prepare_batch numbered_supply mixed_draws
      (MCAgent.attributes (scenario_with 2 1.0 "mse" 10 false 50000 1000)) 7 = Ok st /\
    length (MCAgent.put_batches st) = 3%nat /\
    Forall (batch_ok numbered_supply
              (MCAgent.attributes (scenario_with 2 1.0 "mse" 10 false 50000 1000)) st)
           (MCAgent.put_batches st).
Proof.
  destruct (MCAgent._prepare_batch numbered_supply mixed_draws
              (MCAgent.attributes (scenario_with 2 1.0 "mse" 10 false 50000 1000)) 7)
    as [st|e] eqn:E; [|vm_compute in E; discriminate].
  exists st. split; [reflexivity|].
  destruct (batches_hold_taken_transitions nat _ _ _ _ _ E) as [_ Hall].
  split; [|exact Hall].
  vm_compute in E. injection E as <-. reflexivity.
Defined.

Lemma div_step (s a : Z) :
  (0 <= s)%Z -> (0 < a)%Z ->
  ((s + 1) / a = s / a + (if ((s + 1) mod a =? 0) then 1 else 0))%Z.
Proof.
  intros Hs Ha.
  destruct (Z.eqb_spec ((s + 1) mod a) 0) as [E|E];
    Z.to_euclidean_division_equations; nia.
Qed.

Lemma mod_abs_zero (s k : Z) :
  k <> 0%Z -> ((s mod k =? 0) = (s mod Z.abs k =? 0))%Z.
Proof.
  intro Hk.
  assert (H : (s mod k = 0 <-> s mod Z.abs k = 0)%Z).
  { rewrite !Z.mod_divide by lia. symmetry. apply Z.divide_abs_l. }
  destruct (Z.eqb_spec (s mod k) 0) as [E|E], (Z.eqb_spec (s mod Z.abs k) 0) as [E'|E'];
    try reflexivity; exfalso; tauto.
Qed.

Section Pace.

Variable D : Type.
Variable transition_supply : nat -> MCAgent.transition.
Variable sampler_draw : nat -> nat -> nat.
Variable self : MCAgent.agent D.

Lemma prepare_iteration_pace (p : MCAgent.pace) (it : nat) (st st' : MCAgent.assembler) :
  MCAgent.prepare_iteration transition_supply sampler_draw self p it st = Ok st' ->
  MCAgent.steps st' = (MCAgent.steps st + 1)%Z /\
  match p with
  | MCAgent.steps_per_frame k =>
      k <> 0%Z /\
      MCAgent.taken st' =
        (MCAgent.taken st + if ((MCAgent.steps st + 1) mod k =? 0)%Z then 1 else 0)%nat
  | MCAgent.frames_per_step f => MCAgent.taken st' = (MCAgent.taken st + Z.to_nat f)%nat
  end.
Proof.
  unfold MCAgent.prepare_iteration. intro H.
  rbind_inv H. rename x into st1, Hx into Htake.
  assert (H1 : MCAgent.steps st' = MCAgent.steps st1 /\ MCAgent.taken st' = MCAgent.taken st1).
  { rbind_inv H. destruct (_ <? _)%float.
    - now injection H as <-.
    - rbind_inv H. rbind_inv H. now injection H as <-. }
  destruct H1 as [-> ->].
  destruct p as [k|f].
  - rbind_inv Htake. injection Htake as <-. unfold py_mod in Hx.
    cbn [MCAgent.steps] in Hx.
    destruct (Z.eqb_spec k 0) as [|Hk]; [discriminate|]. injection Hx as <-.
    destruct (_ =? 0)%Z; cbn; (split; [reflexivity|]); (split; [exact Hk|]); lia.
  - injection Htake as <-. cbn. split; reflexivity.
Qed.

Lemma prepare_loop_pace (p : MCAgent.pace) (n : nat) : forall it st st',
  MCAgent.prepare_loop transition_supply sampler_draw self p it n st = Ok st' ->
  (0 <= MCAgent.steps st)%Z ->
  MCAgent.steps st' = (MCAgent.steps st + Z.of_nat n)%Z /\
  match p with
  | MCAgent.steps_per_frame k =>
      (n <> 0%nat -> k <> 0%Z) /\
      (Z.of_nat (MCAgent.taken st') =
       Z.of_nat (MCAgent.taken st) +
       ((MCAgent.steps st + Z.of_nat n) / Z.abs k - MCAgent.steps st / Z.abs k))%Z
  | MCAgent.frames_per_step f =>
      MCAgent.taken st' = (MCAgent.taken st + n * Z.to_nat f)%nat
  end.
Proof.
  induction n as [|n IH]; intros it st st' H Hs; cbn [MCAgent.prepare_loop] in H.
  - injection H as <-. split; [lia|].
    destruct p as [k|f]; [|lia]. split; [intro Hn; now contradiction Hn|].
    rewrite Z.add_0_r. lia.
  - rbind_inv H. rename x into st1, Hx into Hround.
    apply prepare_iteration_pace in Hround. destruct Hround as [Hs1 Hp1].
    apply IH in H; [|lia]. destruct H as [Hs' Hp'].
    split; [lia|].
    destruct p as [k|f].
    + destruct Hp1 as [Hk Ht1]. destruct Hp' as [_ Ht'].
      split; [intros _; exact Hk|].
      rewrite Ht', Ht1, Hs1.
      rewrite (mod_abs_zero _ k Hk).
      rewrite (div_step (MCAgent.steps st) (Z.abs k)) by lia.
      replace (MCAgent.steps st + 1 + Z.of_nat n)%Z
        with (MCAgent.steps st + Z.of_nat (S n))%Z by lia.
      destruct ((MCAgent.steps st + 1) mod Z.abs k =? 0)%Z; lia.
    + lia.
Qed.

End Pace.

(** X13. The pace of a batch thread.  With [frame_step_ratio < 1] it takes
    one transition from the channel every [k = int(1 / frame_step_ratio)]
    rounds, so that after [n] completed rounds it has taken [n / |k|] (and
    no round completes when [k] is 0); otherwise it takes
    [int(frame_step_ratio)] transitions in every round (none when that
    number is negative).  Its step counter is the number of rounds. *)
Theorem batch_thread_pace
    (D : Type) (supply : nat -> MCAgent.transition) (draw : nat -> nat -> nat)
    (self : MCAgent.agent D) (n : nat) (st : MCAgent.assembler) :
  MCAgent._prepare_batch supply draw self n = Ok st ->
  MCAgent.steps st = Z.of_nat n /\
  if (MCAgent._frame_step_ratio self <? 1)%float then
    exists r k,
      py_truediv 1 (MCAgent._frame_step_ratio self) = Ok r /\ py_int r = Ok k /\
      (n <> 0%nat -> k <> 0%Z) /\
      Z.of_nat (MCAgent.taken st) = (Z.of_nat n / Z.abs k)%Z
  else
    exists f,
      py_int (MCAgent._frame_step_ratio self) = Ok f /\
      MCAgent.taken st = (n * Z.to_nat f)%nat.
Proof.
  unfold MCAgent._prepare_batch. intro H.
  rbind_inv H. destruct x as [st0 p]. rename Hx into Hsetup.
  unfold MCAgent.prepare_setup in Hsetup.
  rbind_inv Hsetup. rbind_inv Hsetup. rbind_inv Hsetup. rbind_inv Hsetup.
  injection Hsetup as <- <-.
  apply prepare_loop_pace in H; [|cbn; lia].
  cbn [MCAgent.steps MCAgent.taken] in H. destruct H as [Hsteps Hp].
  split; [lia|].
  destruct (_ <? 1)%float.
  - rbind_inv Hx2. rename x3 into r. rbind_inv Hx2. rename x3 into k.
    injection Hx2 as <-. exists r, k. destruct Hp as [Hk Ht].
    split; [assumption|]. split; [assumption|]. split; [exact Hk|].
    rewrite Ht. change (Z.of_nat 0) with 0%Z. rewrite !Z.add_0_l, Zdiv_0_l. lia.
  - rbind_inv Hx2. rename x3 into f. injection Hx2 as <-. exists f.
    split; [assumption|]. exact Hp.
Qed.

Lemma batch_thread_pace_witness :
  exists st,
    MCAgent._prepare_batch numbered_supply mixed_draws
      (MCAgent.attributes (scenario_with 2 0.25 "mse" 10 false 50000 1000)) 9 = Ok st /\
    MCAgent.steps st = 9%Z /\ MCAgent.taken st = 2%nat.
Proof.
  destruct (MCAgent._prepare_batch numbered_supply mixed_draws
              (MCAgent.attributes (scenario_with 2 0.25 "mse" 10 false 50000 1000)) 9)
    as [st|e] eqn:E; [|vm_compute in E; discriminate].
  exists st. split; [reflexivity|].
  destruct (batch_thread_pace nat _ _ _ _ _ E) as [Hsteps Hp].
  split; [exact Hsteps|].
  change (MCAgent._frame_step_ratio _ <? 1)%float with true in Hp.
  destruct Hp as (r & k & Hr & Hk & _ & Ht).
  vm_compute in Hr. injection Hr as <-. vm_compute in Hk. injection Hk as <-.
  change (Z.of_nat 9 / Z.abs 4)%Z with 2%Z in Ht. lia.
Defined.

(** ** Rounds of the learner that cannot complete *)

Section StuckRound.

Variable D : Type.
Variable math_exp : float -> float.
Variable outcomes_at : nat -> list float.
Variable loss_at : nat -> float.

(** The agent after the curriculum update of a round has the settings it
    had. *)
Lemma update_keeps_settings (self : MCAgent.agent D) (eps : float) (queue : list float) :
  settings (fst (MCAgent._update_curriculum_difficulty
                   (MCAgent.set_current_eps self eps) queue)) = settings self.
Proof.
  destruct (update_is_set D (MCAgent.set_current_eps self eps) queue) as (idx & win & ->).
  reflexivity.
Qed.

(** A round with an unknown loss: it does not complete, makes no optimizer
    step and saves nothing. *)
Lemma learn_iteration_unknown_loss (i : nat) (self : MCAgent.agent D) (steps : Z)
    (ls : float) :
  MCAgent.known_loss (MCAgent._loss_type self) = false ->
  let round := MCAgent.learn_iteration math_exp outcomes_at loss_at i (self, steps, ls) in
  (forall st, snd round <> Done st) /\
  optimized (fst round) = [] /\ saved_steps (fst round) = [].
Proof.
  intros Hloss. cbv zeta. unfold MCAgent.learn_iteration.
  destruct (py_mod steps (MCAgent._target_update_freq self)) as [m|e];
    cbn [call wbind]; [|repeat split; first [discriminate | reflexivity]].
  destruct (MCAgent._get_current_eps math_exp self steps) as [eps|e];
    destruct (m =? 0)%Z; cbn [call emit wret wbind];
    try (repeat split; first [discriminate | reflexivity]).
  all: pose proof (update_keeps_settings self eps (outcomes_at i)) as Hset;
    destruct (MCAgent._update_curriculum_difficulty _ _) as [self1 r];
    cbn [fst] in Hset; unfold settings in Hset;
    injection Hset as _ _ _ _ Hlt _ _ _ _ _;
    unfold MCAgent._optimize; rewrite Hlt, Hloss;
    destruct r as [[]|e]; cbn [call emit wret wbind fst snd app];
    repeat split; first [discriminate | reflexivity].
Qed.

(** A round with a zero frequency of saving (and a directory to save to)
    or of reporting: it does not complete, and if it makes its optimizer
    step it ends with [ZeroDivisionError]. *)
Lemma learn_iteration_zero_frequency (i : nat) (self : MCAgent.agent D) (steps : Z)
    (ls : float) :
  (MCAgent._save_model_dir self = true /\ MCAgent._save_model_freq self = 0%Z) \/
  MCAgent._print_freq self = 0%Z ->
  let round := MCAgent.learn_iteration math_exp outcomes_at loss_at i (self, steps, ls) in
  (forall st, snd round <> Done st) /\
  (optimized (fst round) = [] \/
   optimized (fst round) = [loss_at i] /\ snd round = Raised ZeroDivisionError).
Proof.
  intros Hzero. cbv zeta. unfold MCAgent.learn_iteration.
  destruct (py_mod steps (MCAgent._target_update_freq self)) as [m|e];
    cbn [call wbind]; [|split; [discriminate | now left]].
  destruct (MCAgent._get_current_eps math_exp self steps) as [eps|e];
    destruct (m =? 0)%Z; cbn [call emit wret wbind];
    try (split; [discriminate | now left]).
  all: pose proof (update_keeps_settings self eps (outcomes_at i)) as Hset;
    destruct (MCAgent._update_curriculum_difficulty _ _) as [self1 r];
    cbn [fst] in Hset; unfold settings in Hset;
    injection Hset as _ Hsd Hsf Hpf Hlt _ _ _ _ _;
    unfold MCAgent._optimize; rewrite Hsd, Hsf, Hpf, Hlt;
    (destruct r as [[]|e]; cbn [call emit wret wbind fst snd app];
     [|split; [discriminate | now left]]);
    (destruct (MCAgent.known_loss (MCAgent._loss_type self));
     cbn [call emit wret wbind fst snd app];
     [|split; [discriminate | now left]]);
    unfold py_mod;
    (destruct Hzero as [[-> ->] | ->]; cbn [Z.eqb];
     [|destruct (MCAgent._save_model_dir self);
       [destruct (MCAgent._save_model_freq self =? 0)%Z|]]);
    cbn [call emit wret wbind fst snd app];
    try destruct ((steps + 1) mod MCAgent._save_model_freq self =? 0)%Z;
    cbn [call emit wret wbind fst snd app];
    (split; [discriminate | right; split; reflexivity]).
Qed.

(** A first round that does not complete is all there is of [learn]. *)
Lemma learn_stuck_in_first_round (self : MCAgent.agent D) (workers n : nat) :
  let round := MCAgent.learn_iteration math_exp outcomes_at loss_at 0
                 (self, 0%Z, 0%float) in
  let run := MCAgent.learn math_exp outcomes_at loss_at self workers (S n) in
  (forall st, snd round <> Done st) ->
  fst run = started self workers ++ fst round /\
  (forall st, snd run <> Done st) /\
  (forall e, snd round = Raised e -> snd run = Raised e).
Proof.
  cbv zeta. intro Hstuck.
  unfold MCAgent.learn, MCAgent._init_parallel_actors. fold (started self workers).
  cbn [MCAgent.learn_loop wbind].
  destruct (MCAgent.learn_iteration _ _ _ _ _) as [evs [st| e |]]; cbn [fst snd wbind] in *.
  - now contradiction (Hstuck st).
  - repeat split; [discriminate | trivial].
  - repeat split; discriminate.
Qed.

End StuckRound.

(** X14. A zero frequency keeps the learner from completing a round.  With
    [target_update_freq = 0] it raises [ZeroDivisionError] at once, when the
    workers and threads have been started, before anything is published or
    optimized.  With [save_model_freq = 0] (and a directory to save to) or
    [print_freq = 0] no round completes either, at most one optimizer step
    is ever made, and once that step has been made the learner ends with
    [ZeroDivisionError]. *)
Theorem zero_frequency_ends_learner
    (D : Type) (math_exp : float -> float) (outcomes_at : nat -> list float)
    (loss_at : nat -> float) (self : MCAgent.agent D) (workers n : nat) :
  let run := MCAgent.learn math_exp outcomes_at loss_at self workers (S n) in
  (MCAgent._target_update_freq self = 0%Z ->
   run = (started self workers, Raised ZeroDivisionError)) /\
  ((MCAgent._save_model_dir self = true /\ MCAgent._save_model_freq self = 0%Z) \/
   MCAgent._print_freq self = 0%Z ->
   (forall st, snd run <> Done st) /\
   (optimized (fst run) = [] \/
    optimized (fst run) = [loss_at 0%nat] /\ snd run = Raised ZeroDivisionError)).
Proof.
  cbv zeta. split.
  - intro Hz. unfold MCAgent.learn, MCAgent._init_parallel_actors.
    fold (started self workers).
    cbn [MCAgent.learn_loop MCAgent.learn_iteration].
    unfold py_mod at 1. rewrite Hz. cbn [Z.eqb call wbind]. now rewrite app_nil_r.
  - intro Hzero.
    destruct (learn_iteration_zero_frequency D math_exp outcomes_at loss_at 0 self 0%Z
                0%float Hzero) as [Hstuck Hopt].
    destruct (learn_stuck_in_first_round D math_exp outcomes_at loss_at self workers n
                Hstuck) as (Hfst & Hnot & Hraised).
    split; [exact Hnot|].
    rewrite Hfst. unfold optimized in *. rewrite flat_map_app.
    destruct (started_read D self workers) as (_ & _ & Hs & _).
    unfold optimized in Hs. rewrite Hs. cbn [app].
    destruct Hopt as [Hnone | [Hone Hzde]]; [now left | right].
    split; [exact Hone | now apply Hraised].
Qed.

Lemma zero_frequency_ends_learner_witness :
  MCAgent.learn (fun x => x) (fun _ => []) (fun _ => 0.5%float)
    (MCAgent.attributes (scenario_with 2 1.0 "mse" 0 false 50000 1000)) 1 3
  = ([MCAgent.ActorStarted 0; MCAgent.BatchThreadStarted 0; MCAgent.BatchThreadStarted 1;
      MCAgent.BatchThreadStarted 2; MCAgent.BatchThreadStarted 3],
     Raised ZeroDivisionError) /\
  optimized (fst (MCAgent.learn (fun x => x) (fun _ => []) (fun _ => 0.5%float)
                    (MCAgent.attributes (scenario_with 2 1.0 "mse" 10 true 1 0)) 1 3))
    = [0.5%float] /\
  snd (MCAgent.learn (fun x => x) (fun _ => []) (fun _ => 0.5%float)
         (MCAgent.attributes (scenario_with 2 1.0 "mse" 10 true 1 0)) 1 3)
    = Raised ZeroDivisionError.
Proof.
  split.
  - apply (zero_frequency_ends_learner nat (fun x => x) (fun _ => []) (fun _ => 0.5%float)
             (MCAgent.attributes (scenario_with 2 1.0 "mse" 0 false 50000 1000)) 1 2).
    reflexivity.
  - destruct (zero_frequency_ends_learner nat (fun x => x) (fun _ => [])
                (fun _ => 0.5%float)
                (MCAgent.attributes (scenario_with 2 1.0 "mse" 10 true 1 0)) 1 2)
      as [_ H].
    destruct (H (or_intror eq_refl)) as [_ [Hnone | [Hone Hzde]]].
    + vm_compute in Hnone. discriminate.
    + split; [exact Hone | exact Hzde].
Defined.

(** X15. An unrecognized [loss_type] does not stop the constructor (which
    checks the action space and the optimizer name only), but the learner
    of such an agent never completes a round: however long it runs and
    whatever it is given, it makes no optimizer step and saves no model. *)
Theorem unknown_loss_never_optimizes
    (D : Type) (c : MCAgent.config D) :
  MCAgent.known_loss (MCAgent.loss_type c) = false ->
  MCAgent.action_space_arg c <> OtherSpace ->
  MCAgent.known_optimizer (MCAgent.optimizer_type c) = true ->
  MCAgent.__init__ c = Ok (MCAgent.attributes c) /\
  forall (math_exp : float -> float) (outcomes_at : nat -> list float)
         (loss_at : nat -> float) (workers n : nat),
    let run := MCAgent.learn math_exp outcomes_at loss_at (MCAgent.attributes c)
                 workers n in
    (n <> 0%nat -> forall st, snd run <> Done st) /\
    optimized (fst run) = [] /\ saved_steps (fst run) = [].
Proof.
  intros Hloss Hspace Hopt. split.
  - unfold MCAgent.__init__. rewrite Hopt.
    destruct (MCAgent.action_space_arg c); congruence.
  - intros math_exp outcomes_at loss_at workers n. cbv zeta.
    destruct (started_read D (MCAgent.attributes c) workers) as (_ & _ & Hso & Hss).
    destruct n as [|n].
    + unfold MCAgent.learn, MCAgent._init_parallel_actors.
      fold (started (MCAgent.attributes c) workers).
      cbn [MCAgent.learn_loop wbind wret fst snd]. rewrite app_nil_r.
      split; [intro Hn; now contradiction Hn|]. split; assumption.
    + destruct (learn_iteration_unknown_loss D math_exp outcomes_at loss_at 0
                  (MCAgent.attributes c) 0%Z 0%float Hloss) as (Hstuck & Hno & Hns).
      destruct (learn_stuck_in_first_round D math_exp outcomes_at loss_at
                  (MCAgent.attributes c) workers n Hstuck) as (Hfst & Hnot & _).
      split; [intros _; exact Hnot|].
      rewrite Hfst. unfold optimized, saved_steps in *. rewrite !flat_map_app.
      rewrite Hso, Hss, Hno, Hns. split; reflexivity.
Qed.

Lemma unknown_loss_never_optimizes_witness :
  MCAgent.__init__ (scenario_with 2 1.0 "huber" 10 false 50000 1000)
    = Ok (MCAgent.attributes (scenario_with 2 1.0 "huber" 10 false 50000 1000)) /\
  optimized (fst (MCAgent.learn (fun x => x) (fun _ => []) (fun _ => 0.5%float)
                    (MCAgent.attributes (scenario_with 2 1.0 "huber" 10 false 50000 1000))
                    1 3)) = [].
Proof.
  destruct (unknown_loss_never_optimizes nat
              (scenario_with 2 1.0 "huber" 10 false 50000 1000))
    as [Hinit Hrun].
  - reflexivity.
  - discriminate.
  - reflexivity.
  - split; [exact Hinit|].
    destruct (Hrun (fun x => x) (fun _ => []) (fun _ => 0.5%float) 1%nat 3%nat)
      as (_ & Hno & _).
    exact Hno.
Defined.

(** ** The reports of the learner *)

Lemma py_sum_snoc (l : list float) (x : float) :
  py_sum (l ++ [x]) = (py_sum l + x)%float.
Proof. unfold py_sum. now rewrite fold_left_app. Qed.

Lemma loss_sum_before_S (loss_at : nat -> float) (i k : nat) :
  (k <= i)%nat ->
  loss_sum_before loss_at (S i) (S k) = (loss_sum_before loss_at i k + loss_at i)%float.
Proof.
  intro Hk. unfold loss_sum_before.
  replace (S i - S k)%nat with (i - k)%nat by lia.
  rewrite seq_S, map_app. cbn [map]. rewrite py_sum_snoc.
  now replace (i - k + k)%nat with i by lia.
Qed.

Lemma since_report_S (pf : Z) (i : nat) :
  pf <> 0%Z ->
  (since_report pf i <= i)%nat /\
  if (Z.of_nat (S i) mod pf =? 0)%Z
  then since_report pf (S i) = 0%nat /\ S (since_report pf i) = Z.to_nat (Z.abs pf)
  else since_report pf (S i) = S (since_report pf i).
Proof.
  intro Hpf. unfold since_report. rewrite (mod_abs_zero _ pf Hpf).
  assert (Ha : (0 < Z.abs pf)%Z) by lia.
  generalize dependent (Z.abs pf). intros a Ha.
  replace (Z.of_nat (S i)) with (Z.of_nat i + 1)%Z by lia.
  remember (Z.of_nat i) as z eqn:Hz.
  assert (Hr : (0 <= z mod a <= z)%Z).
  { split; [apply Z.mod_pos_bound; lia|]. apply Z.mod_le; lia. }
  assert (Hstep : (if ((z + 1) mod a =? 0)%Z then z mod a = a - 1
                   else (z + 1) mod a = z mod a + 1)%Z).
  { rewrite <- (Z.add_mod_idemp_l z 1 a) by lia.
    pose proof (Z.mod_pos_bound z a Ha) as Hb.
    destruct (Z.eq_dec (z mod a + 1) a) as [Ea|Ea].
    - rewrite Ea, Z_mod_same_full. cbn. lia.
    - rewrite Z.mod_small by lia.
      destruct (Z.eqb_spec (z mod a + 1) 0); lia. }
  split; [lia|].
  destruct ((z + 1) mod a =? 0)%Z eqn:E.
  - apply Z.eqb_eq in E. rewrite E. split; [reflexivity | lia].
  - lia.
Qed.

Section Reports.

Variable D : Type.
Variable math_exp : float -> float.
Variable outcomes_at : nat -> list float.
Variable loss_at : nat -> float.

Lemma round_events_reports (self : MCAgent.agent D) (steps : Z) (eps loss : float) report :
  (report = [] \/ exists mean, report = [MCAgent.Reported (steps + 1) eps mean]) ->
  reports (round_events self steps eps loss report) = reports report.
Proof.
  intro Hrep. unfold round_events, reports. rewrite !flat_map_app.
  destruct (steps mod MCAgent._target_update_freq self =? 0)%Z;
    destruct (MCAgent._save_model_dir self);
    try destruct ((steps + 1) mod MCAgent._save_model_freq self =? 0)%Z;
    reflexivity.
Qed.

(** Completed rounds from round [i], the step counter being [i] and the
    accumulated loss that of the rounds since the last report. *)
Lemma learn_loop_reports (n : nat) : forall i (self : MCAgent.agent D) ls
    evs self' steps' ls',
  ls = loss_sum_before loss_at i (since_report (MCAgent._print_freq self) i) ->
  MCAgent.learn_loop math_exp outcomes_at loss_at i n (self, Z.of_nat i, ls)
    = (evs, Done (self', steps', ls')) ->
  Forall2 (fun s r =>
             exists eps,
               MCAgent._get_current_eps math_exp self (s - 1) = Ok eps /\
               r = (s, eps,
                    (loss_sum_before loss_at (Z.to_nat s)
                       (Z.to_nat (Z.abs (MCAgent._print_freq self)))
                     / float_of_Z (MCAgent._print_freq self))%float))
          (multiples_of (MCAgent._print_freq self) (Z.of_nat i + 1) n) (reports evs) /\
  ls' = loss_sum_before loss_at (i + n) (since_report (MCAgent._print_freq self) (i + n)).
Proof.
  induction n as [|n IH]; intros i self ls evs self' steps' ls' Hls H.
  - cbn [MCAgent.learn_loop] in H. unfold wret in H. injection H as <- <- <- <-.
    split; [constructor|]. now rewrite Nat.add_0_r.
  - cbn [MCAgent.learn_loop] in H.
    wbind_as H e1 st1 e2 Hround. destruct st1 as [[self1 steps1] ls1].
    apply learn_iteration_done in Hround.
    destruct Hround as (eps & report & Heps & _ & -> & Hset & _ & Hrep & -> & Hpf & Hmean).
    assert (Hs := Hset). unfold settings in Hs. injection Hs as _ _ _ Hpf1 _ _ _ _ _ _.
    destruct (since_report_S (MCAgent._print_freq self) i Hpf) as [Hle Hsince].
    replace (Z.of_nat (S i)) with (Z.of_nat i + 1)%Z in Hsince by lia.
    replace (Z.of_nat i + 1)%Z with (Z.of_nat (S i)) in H by lia.
    apply IH in H.
    + destruct H as [Hall Hls'].
      rewrite Hpf1 in Hall, Hls'.
      replace (Z.of_nat (S i) + 1)%Z with (Z.of_nat i + 1 + 1)%Z in Hall by lia.
      replace (i + S n)%nat with (S i + n)%nat by lia.
      split; [|exact Hls'].
      assert (Hall' : Forall2
                (fun s r => exists eps0,
                   MCAgent._get_current_eps math_exp self (s - 1) = Ok eps0 /\
                   r = (s, eps0,
                        (loss_sum_before loss_at (Z.to_nat s)
                           (Z.to_nat (Z.abs (MCAgent._print_freq self)))
                         / float_of_Z (MCAgent._print_freq self))%float))
                (multiples_of (MCAgent._print_freq self) (Z.of_nat i + 1 + 1) n)
                (reports e2)).
      { eapply Forall2_impl; [|exact Hall]. intros s r (eps0 & He & Hr).
        exists eps0. split; [|exact Hr].
        now rewrite <- (eps_of_settings D math_exp self self1 _ Hset). }
      assert (Happ : reports (round_events self (Z.of_nat i) eps (loss_at i) report ++ e2)
                     = reports report ++ reports e2).
      { unfold reports at 1. rewrite flat_map_app.
        fold (reports (round_events self (Z.of_nat i) eps (loss_at i) report)).
        fold (reports e2).
        now rewrite (round_events_reports self (Z.of_nat i) eps (loss_at i) report Hrep). }
      rewrite Happ, multiples_of_S.
      destruct ((Z.of_nat i + 1) mod MCAgent._print_freq self =? 0)%Z.
      * destruct Hmean as [-> _]. destruct Hsince as [_ Hfull].
        cbn [reports flat_map app]. constructor; [|exact Hall'].
        exists eps. replace (Z.of_nat i + 1 - 1)%Z with (Z.of_nat i) by lia.
        split; [exact Heps|].
        replace (Z.to_nat (Z.of_nat i + 1)) with (S i) by lia.
        rewrite Hls, <- Hfull, <- loss_sum_before_S by exact Hle.
        reflexivity.
      * destruct Hmean as [-> _]. cbn [reports flat_map app]. exact Hall'.
    + rewrite Hpf1.
      destruct ((Z.of_nat i + 1) mod MCAgent._print_freq self =? 0)%Z.
      * destruct Hmean as [_ ->]. destruct Hsince as [-> _].
        unfold loss_sum_before. now rewrite Nat.sub_0_r.
      * destruct Hmean as [_ ->]. rewrite Hsince, Hls.
        symmetry. now apply loss_sum_before_S.
Qed.

End Reports.

(** X16. In a run of [learn] whose first [n] rounds complete, a report is
    printed exactly after the steps among 1, ..., n that are multiples of
    [print_freq]; the report after step [s] gives the exploration rate of
    step [s - 1] and, as mean loss, the sum (from 0.0, in the order of the
    rounds) of the losses of the [|print_freq|] rounds before, divided by
    [print_freq]; the loss accumulated at the end is that of the rounds
    since the last report. *)
Theorem reports_give_mean_loss
    (D : Type) (math_exp : float -> float) (outcomes_at : nat -> list float)
    (loss_at : nat -> float) (self : MCAgent.agent D) (workers n : nat)
    (evs : list MCAgent.learner_event) (self' : MCAgent.agent D) (steps : Z)
    (loss_sum : float) :
  MCAgent.learn math_exp outcomes_at loss_at self workers n
    = (evs, Done (self', steps, loss_sum)) ->
  Forall2 (fun s r =>
             exists eps,
               MCAgent._get_current_eps math_exp self (s - 1) = Ok eps /\
               r = (s, eps,
                    (loss_sum_before loss_at (Z.to_nat s)
                       (Z.to_nat (Z.abs (MCAgent._print_freq self)))
                     / float_of_Z (MCAgent._print_freq self))%float))
          (multiples_of (MCAgent._print_freq self) 1 n) (reports evs) /\
  loss_sum = loss_sum_before loss_at n (since_report (MCAgent._print_freq self) n).
Proof.
  intro H. apply learn_done in H. destruct H as (evs' & -> & H).
  apply (learn_loop_reports D math_exp outcomes_at loss_at n 0%nat) in H.
  - cbn [Nat.add Z.of_nat Z.add] in H. destruct H as [Hall Hls].
    split; [|exact Hls].
    unfold reports in *. rewrite flat_map_app.
    assert (Hst : flat_map (fun ev => match ev with
                                      | MCAgent.Reported s e m => [(s, e, m)]
                                      | _ => []
                                      end) (started self workers) = []).
    { unfold started. rewrite flat_map_app.
      generalize (seq 0 workers) as l1,
                 (seq 0 (Z.to_nat (MCAgent._num_threads self))) as l2.
      intros l1 l2.
      assert (H1 : flat_map (fun ev => match ev with
                                       | MCAgent.Reported s e m => [(s, e, m)]
                                       | _ => []
                                       end)
                     (map (fun pid => MCAgent.ActorStarted (Z.of_nat pid)) l1) = [])
        by (induction l1; simpl; auto).
      assert (H2 : flat_map (fun ev => match ev with
                                       | MCAgent.Reported s e m => [(s, e, m)]
                                       | _ => []
                                       end)
                     (map (fun tid => MCAgent.BatchThreadStarted (Z.of_nat tid)) l2) = [])
        by (induction l2; simpl; auto).
      now rewrite H1, H2. }
    rewrite Hst. exact Hall.
  - unfold since_report, loss_sum_before. cbn [Z.of_nat]. rewrite Zmod_0_l. reflexivity.
Qed.

Lemma reports_give_mean_loss_witness :
  map (fun r => (fst (fst r), snd r)) (reports (fst (checkpoint_run 12))) =
    [(4%Z, 1.5%float); (8%Z, 5.5%float); (12%Z, 9.5%float)].
Proof.
  rewrite checkpoint_run_eq.
  destruct checkpoint_run_12 as (evs & [[self' steps] ls] & E).
  rewrite E. cbn [fst].
  destruct (reports_give_mean_loss nat _ _ _ _ _ _ _ _ _ _ E) as [Hall _].
  change (multiples_of (MCAgent._print_freq (MCAgent.attributes checkpoint_config)) 1 12)
    with [4; 8; 12]%Z in Hall.
  inversion Hall as [|s1 r1 l1 rs1 (e1 & He1 & ->) Hall1 Hs1 Hr1]; subst.
  inversion Hall1 as [|s2 r2 l2 rs2 (e2 & He2 & ->) Hall2 Hs2 Hr2]; subst.
  inversion Hall2 as [|s3 r3 l3 rs3 (e3 & He3 & ->) Hall3 Hs3 Hr3]; subst.
  inversion Hall3; subst.
  vm_compute. reflexivity.
Defined.

(** ** The evaluation script *)

Lemma times_taken_app (a : nat) (e1 e2 : list eval_event) :
  times_taken a (e1 ++ e2) = (times_taken a e1 + times_taken a e2)%Z.
Proof.
  unfold times_taken, taken_actions. rewrite flat_map_app, count_occ_app. lia.
Qed.

Lemma rows_counted_app (base : nat -> Z) (e1 e2 : list eval_event) :
  rows_counted base e1 ->
  rows_counted (fun a => (base a + times_taken a e1)%Z) e2 ->
  rows_counted base (e1 ++ e2).
Proof.
  intros H1 H2 pre a k post Heq.
  apply app_eq_app in Heq. destruct Heq as (l & [[-> Hl] | [-> ->]]).
  - destruct l as [|ev l].
    + cbn [app] in Hl. symmetry in Hl.
      rewrite (H2 [] a k post Hl), app_nil_r.
      unfold times_taken at 2. cbn. lia.
    + cbn [app] in Hl. injection Hl as <- ->.
      exact (H1 pre a k l eq_refl).
  - rewrite times_taken_app, (H2 l a k post eq_refl). lia.
Qed.

Lemma rows_counted_ext (base base' : nat -> Z) (evs : list eval_event) :
  (forall a, base a = base' a) -> rows_counted base evs -> rows_counted base' evs.
Proof. intros Hb H pre a k post Heq. rewrite <- Hb. exact (H pre a k post Heq). Qed.

(** A trace without rows. *)
Lemma rows_counted_none (base : nat -> Z) (evs : list eval_event) :
  Forall (fun ev => forall a k, ev <> DistributionRow a k) evs -> rows_counted base evs.
Proof.
  intros Hall pre a k post ->. apply Forall_app in Hall. destruct Hall as [_ Hall].
  inversion Hall as [|ev l Hev _]; subst. now contradiction (Hev a k).
Qed.

Lemma print_rows_spec (counts : list Z) (ids : list nat) :
  forall evs o, print_rows ids counts = (evs, o) ->
  Forall (fun ev => exists id c, ev = DistributionRow id c /\ nth_error counts id = Some c) evs.
Proof.
  induction ids as [|id ids IH]; intros evs o H; cbn [print_rows] in H.
  - unfold wret in H. injection H as <- _. constructor.
  - unfold py_index in H.
    destruct (Z.of_nat id <? 0)%Z eqn:Eneg; [apply Z.ltb_lt in Eneg; lia|].
    destruct ((0 <=? Z.of_nat id) && (Z.of_nat id <? Z.of_nat (length counts)))%Z;
      [|cbn in H; injection H as <- _; constructor].
    rewrite Nat2Z.id in H.
    destruct (nth_error counts id) as [c|] eqn:Ec;
      [|cbn in H; injection H as <- _; constructor].
    cbn [call wbind emit app] in H.
    destruct (print_rows ids counts) as [evs' o'] eqn:E.
    injection H as <- _. constructor; [eauto | eapply IH; reflexivity].
Qed.

Lemma rows_counted_rows (counts : list Z) (n_names : nat) evs o :
  print_action_distribution n_names counts = (evs, o) ->
  rows_counted (fun a => nth a counts 0%Z) evs /\
  taken_actions evs = [] /\ ~ In EvalEnvClosed evs /\
  Forall (fun ev => forall a k, ev = DistributionRow a k -> (a < length counts)%nat) evs.
Proof.
  unfold print_action_distribution. intro H. apply print_rows_spec in H.
  assert (Hnone : taken_actions evs = []).
  { induction H as [|ev l (id & c & -> & _) _ IH]; [reflexivity | exact IH]. }
  split; [|split; [exact Hnone|split]].
  - intros pre a k post ->.
    apply Forall_app in H. destruct H as [Hpre H].
    inversion H as [|ev l (id & c & Heq & Hc) _]; subst. injection Heq as <- <-.
    assert (Hp : times_taken a pre = 0%Z).
    { unfold times_taken.
      assert (Ht : taken_actions pre = []).
      { clear - Hpre. induction Hpre as [|ev l (id & c & -> & _) _ IH];
          [reflexivity | exact IH]. }
      now rewrite Ht. }
    rewrite Hp, Z.add_0_r. symmetry. now apply nth_error_nth.
  - intro Hin. rewrite Forall_forall in H. apply H in Hin.
    destruct Hin as (id & c & Heq & _). discriminate.
  - eapply Forall_impl; [|exact H]. intros ev (id & c & -> & Hc) a k Heq.
    injection Heq as <- <-. apply nth_error_Some. congruence.
Qed.

Lemma list_set_length {A} (l : list A) (j : nat) (x : A) :
  length (list_set l j x) = length l.
Proof.
  unfold list_set. rewrite <- (firstn_skipn j l) at 3. rewrite !length_app.
  now destruct (skipn j l).
Qed.

Lemma nth_list_set {A} (l : list A) (j : nat) (x d : A) (a : nat) :
  (j < length l)%nat ->
  nth a (list_set l j x) d = if (a =? j)%nat then x else nth a l d.
Proof.
  intro Hj. unfold list_set.
  assert (Hf : length (firstn j l) = j) by (rewrite length_firstn; lia).
  destruct (skipn j l) as [|y r] eqn:Es.
  { apply (f_equal (@length A)) in Es. rewrite length_skipn in Es. cbn in Es. lia. }
  rewrite <- (firstn_skipn j l) at 2. rewrite Es.
  destruct (Nat.eqb_spec a j) as [->|Hne].
  - rewrite app_nth2 by lia. rewrite Hf, Nat.sub_diag. reflexivity.
  - destruct (Nat.lt_ge_cases a j) as [Hlt|Hge].
    + now rewrite !app_nth1 by lia.
    + rewrite !app_nth2 by lia. rewrite Hf.
      destruct (a - j)%nat as [|m] eqn:Em; [lia | reflexivity].
Qed.

Lemma py_index_nat {A} (l : list A) (j : nat) (x : A) :
  py_index l (Z.of_nat j) = Ok x -> nth_error l j = Some x /\ (j < length l)%nat.
Proof.
  unfold py_index.
  destruct (Z.of_nat j <? 0)%Z eqn:Eneg; [apply Z.ltb_lt in Eneg; lia|].
  destruct ((0 <=? Z.of_nat j) && (Z.of_nat j <? Z.of_nat (length l)))%Z; [|discriminate].
  rewrite Nat2Z.id. destruct (nth_error l j) as [y|] eqn:E; [|discriminate].
  intro H. injection H as ->. split; [reflexivity|]. apply nth_error_Some. congruence.
Qed.

Lemma times_taken_step (a step_id action : nat) (mask : ndarray) (evs : list eval_event) :
  times_taken a (StepPrinted step_id action mask :: evs) =
  ((if (a =? action)%nat then 1 else 0) + times_taken a evs)%Z.
Proof.
  unfold times_taken, taken_actions. cbn [flat_map app count_occ].
  destruct (Nat.eq_dec action a) as [->|Hne].
  - rewrite Nat.eqb_refl. lia.
  - destruct (Nat.eqb_spec a action); [congruence | lia].
Qed.

Section EvaluationCounts.

Variable D : Type.
Variable env : environment D float.
Variable n_names : nat.
Variable agent_act : nat -> nat -> observation -> result nat.

(** What a trace of steps consists of. *)
Let only_steps (evs : list eval_event) : Prop :=
  Forall (fun ev => exists j a m, ev = StepPrinted j a m) evs.

Lemma eval_steps_counts (fuel : nat) : forall i j (st : eval_state env) obs evs st' o,
  eval_steps agent_act fuel i j st obs = (evs, st', o) ->
  only_steps evs /\
  length (action_counts st') = length (action_counts st) /\
  (o = Done tt ->
   forall a, nth a (action_counts st') 0%Z =
             (nth a (action_counts st) 0 + times_taken a evs)%Z).
Proof.
  unfold only_steps.
  induction fuel as [|fuel IH]; intros i j st obs evs st' o H; cbn [eval_steps] in H.
  - injection H as <- <- <-. split; [constructor|]. split; [reflexivity | discriminate].
  - destruct (agent_act i j obs) as [action|e];
      [|injection H as <- <- <-; split; [constructor|]; split;
        [reflexivity | discriminate]].
    destruct (py_index obs (-1)) as [mask|e];
      [|injection H as <- <- <-; split; [constructor|]; split;
        [reflexivity | discriminate]].
    destruct (env_step env (eval_env st) action) as [[s' [[obs' reward] done]]|e];
      [|injection H as <- <- <-; split; [repeat constructor; eauto|]; split;
        [reflexivity | discriminate]].
    cbn [action_counts cum_return eval_env] in H.
    destruct (py_index (action_counts st) (Z.of_nat action)) as [c|e] eqn:Ec;
      [|injection H as <- <- <-; split; [repeat constructor; eauto|]; split;
        [reflexivity | discriminate]].
    apply py_index_nat in Ec. destruct Ec as [Hc Hlt].
    assert (Hnth : forall a,
               nth a (list_set (action_counts st) action (c + 1)%Z) 0%Z =
               (nth a (action_counts st) 0 + if (a =? action)%nat then 1 else 0)%Z).
    { intro a. rewrite nth_list_set by exact Hlt.
      destruct (Nat.eqb_spec a action) as [->|_]; [|lia].
      now rewrite (nth_error_nth _ _ _ Hc). }
    destruct done.
    + injection H as <- <- <-. cbn [action_counts].
      split; [repeat constructor; eauto|]. split; [apply list_set_length|].
      intros _ a. rewrite Hnth, times_taken_step.
      unfold times_taken at 1. cbn. lia.
    + destruct (eval_steps agent_act fuel i (S j) _ obs') as [[evs1 st1] o1] eqn:E.
      injection H as <- <- <-.
      apply IH in E. cbn [action_counts] in E. destruct E as (Hev & Hlen & Hdone).
      split; [constructor; eauto|].
      split; [now rewrite Hlen, list_set_length|].
      intros Ho a. rewrite (Hdone Ho a), Hnth, times_taken_step. lia.
Qed.

Lemma only_steps_no_rows (base : nat -> Z) (evs : list eval_event) :
  only_steps evs ->
  rows_counted base evs /\ ~ In EvalEnvClosed evs /\
  Forall (fun ev => forall a k, ev = DistributionRow a k -> False) evs.
Proof.
  unfold only_steps. intro H. split; [|split].
  - apply rows_counted_none. eapply Forall_impl; [|exact H].
    intros ev (j & a & m & ->) a' k. discriminate.
  - intro Hin. rewrite Forall_forall in H. apply H in Hin.
    destruct Hin as (j & a & m & Heq). discriminate.
  - eapply Forall_impl; [|exact H]. intros ev (j & a & m & ->) a' k. discriminate.
Qed.

(** The loop over the episodes: the counts grow by the actions taken, and
    every row printed shows the count of its action over all steps before
    it. *)
Lemma eval_episodes_counts (fuel remaining : nat) : forall i (st : eval_state env) evs st' o,
  eval_episodes n_names agent_act fuel remaining i st = (evs, st', o) ->
  length (action_counts st') = length (action_counts st) /\
  rows_counted (fun a => nth a (action_counts st) 0%Z) evs /\
  ~ In EvalEnvClosed evs /\
  Forall (fun ev => forall a k, ev = DistributionRow a k ->
                                (a < length (action_counts st))%nat) evs /\
  (o = Done tt ->
   forall a, nth a (action_counts st') 0%Z =
             (nth a (action_counts st) 0 + times_taken a evs)%Z).
Proof.
  induction remaining as [|remaining IH]; intros i st evs st' o H; cbn [eval_episodes] in H.
  - injection H as <- <- <-. split; [reflexivity|].
    split; [apply rows_counted_none; constructor|]. split; [intros []|].
    split; [constructor|]. intros _ a. unfold times_taken. cbn. lia.
  - destruct (env_reset env (eval_env st)) as [[s obs]|e].
    2:{ injection H as <- <- <-. split; [reflexivity|].
        split; [apply rows_counted_none; constructor|]. split; [intros []|].
        split; [constructor | discriminate]. }
    cbn [action_counts cum_return eval_env] in H.
    destruct (eval_steps agent_act fuel i 0 _ obs) as [[evs1 st1] o1] eqn:E1.
    apply eval_steps_counts in E1. cbn [action_counts] in E1.
    destruct E1 as (Hsteps & Hlen1 & Hdone1).
    destruct (only_steps_no_rows (fun a => nth a (action_counts st) 0%Z) evs1 Hsteps)
      as (Hr1 & Hc1 & Hn1).
    assert (Hb1 : Forall (fun ev => forall a k, ev = DistributionRow a k ->
                                      (a < length (action_counts st))%nat) evs1).
    { eapply Forall_impl; [|exact Hn1]. intros ev Hev a k Heq.
      now contradiction (Hev a k). }
    destruct o1 as [[]|e|].
    2:{ injection H as <- <- <-. repeat (split; [assumption|]). discriminate. }
    2:{ injection H as <- <- <-. repeat (split; [assumption|]). discriminate. }
    specialize (Hdone1 eq_refl).
    destruct (print_action_distribution n_names (action_counts st1)) as [rows r] eqn:Er.
    apply rows_counted_rows in Er. destruct Er as (Hrr & Hrt & Hrc & Hrb).
    assert (Hrows : rows_counted (fun a => nth a (action_counts st) 0%Z) (evs1 ++ rows)).
    { apply rows_counted_app; [exact Hr1|].
      eapply rows_counted_ext; [|exact Hrr]. intro a. apply Hdone1. }
    assert (Hclosed : ~ In EvalEnvClosed (evs1 ++ rows)).
    { intro Hin. apply in_app_or in Hin. tauto. }
    assert (Hbound : Forall (fun ev => forall a k, ev = DistributionRow a k ->
                                         (a < length (action_counts st))%nat)
                            (evs1 ++ rows)).
    { apply Forall_app. split; [exact Hb1|]. now rewrite <- Hlen1. }
    assert (Htimes : forall a, times_taken a (evs1 ++ rows) = times_taken a evs1).
    { intro a. rewrite times_taken_app. unfold times_taken at 2. rewrite Hrt. cbn. lia. }
    destruct r as [[]|e|].
    2:{ injection H as <- <- <-. repeat (split; [assumption|]). discriminate. }
    2:{ injection H as <- <- <-. repeat (split; [assumption|]). discriminate. }
    destruct (eval_episodes n_names agent_act fuel remaining (S i) st1) as [[evs2 st2] o2] eqn:E2.
    injection H as <- <- <-.
    apply IH in E2. destruct E2 as (Hlen2 & Hr2 & Hc2 & Hb2 & Hdone2).
    set (report := Evaluated _ _ _).
    assert (Hrep : forall a, times_taken a (report :: evs2) = times_taken a evs2)
      by reflexivity.
    split; [congruence|].
    split; [|split; [|split]].
    + rewrite app_assoc. apply rows_counted_app; [exact Hrows|].
      change (report :: evs2) with ([report] ++ evs2).
      apply rows_counted_app;
        [apply rows_counted_none; repeat constructor; discriminate|].
      eapply rows_counted_ext; [|exact Hr2]. intro a. cbv beta.
      rewrite Htimes, Hdone1. unfold times_taken at 3. cbn. lia.
    + rewrite app_assoc. intro Hin. apply in_app_or in Hin.
      destruct Hin as [Hin|[Hin|Hin]]; [tauto | discriminate | tauto].
    + rewrite app_assoc. apply Forall_app. split; [exact Hbound|].
      constructor; [discriminate|]. now rewrite <- Hlen1.
    + intros Ho a. rewrite (Hdone2 Ho a), Hdone1, app_assoc, times_taken_app, Htimes, Hrep.
      lia.
Qed.

End EvaluationCounts.

Section Train.

Variable D : Type.
Variable env : environment D float.
Variable difficulty : D.
Variable now_s : Z.
Variable n n_names : nat.
Variable num_episodes : Z.
Variable agent : result (nat -> nat -> observation -> result nat).
Variable keyboard_interrupt : exn -> bool.

(** The shape of a trace of [train] that went into the [try]. *)
Lemma train_trace (fuel : nat) (s0 : env_state env)
    (agent_act : nat -> nat -> observation -> result nat) :
  env_create_fn env difficulty now_s = Ok s0 ->
  agent = Ok agent_act ->
  exists evs st o handled closed,
    eval_episodes n_names agent_act fuel (Z.to_nat num_episodes) 0
      {| eval_env := s0; cum_return := 0; action_counts := repeat 0%Z n |}
      = (evs, st, o) /\
    (handled = [] \/ exists e, handled = [TracebackPrinted e]) /\
    train env difficulty now_s n n_names num_episodes agent keyboard_interrupt fuel =
      ([EvalEnvCreated now_s; ActionsPrinted n_names] ++ evs ++ handled ++ closed,
       match o with
       | Running => Running
       | _ => match env_close env (eval_env st) with
              | Ok _ => Done tt
              | Raise e => Raised e
              end
       end) /\
    closed = match o, env_close env (eval_env st) with
             | Running, _ => []
             | _, Ok _ => [EvalEnvClosed]
             | _, Raise _ => []
             end.
Proof.
  intros Hcreate Hagent. unfold train. rewrite Hcreate, Hagent.
  destruct (eval_episodes _ _ _ _ _ _) as [[evs st] o].
  exists evs, st, o.
  destruct o as [[]|e|].
  - exists [], (match env_close env (eval_env st) with
                | Ok _ => [EvalEnvClosed] | Raise _ => [] end).
    split; [reflexivity|]. split; [now left|].
    destruct (env_close env (eval_env st)); split; reflexivity.
  - exists (if keyboard_interrupt e then [] else [TracebackPrinted e]),
           (match env_close env (eval_env st) with
            | Ok _ => [EvalEnvClosed] | Raise _ => [] end).
    split; [reflexivity|].
    split; [destruct (keyboard_interrupt e); [now left | right; eauto]|].
    destruct (env_close env (eval_env st)); split; rewrite ?app_nil_r; reflexivity.
  - exists [], []. split; [reflexivity|]. split; [now left|].
    split; [now rewrite !app_nil_r | reflexivity].
Qed.

End Train.

Lemma scenario_train_eq (fault_at fuel : nat) :
  scenario_train fault_at fuel =
  train (counting_env fault_at) 1%nat 1700000000 3 3 3 (Ok always_two) no_interrupt fuel.
Proof. reflexivity. Qed.

(** X17. Every row of an action distribution printed by [train] shows, for
    its action, the number of steps printed before the row in which that
    action was taken: the counts run over all episodes evaluated so far,
    not over the last one.  The action of a row is below the size [n] of
    the action space. *)
Theorem distribution_rows_are_cumulative
    (D : Type) (env : environment D float) (difficulty : D) (now_s : Z)
    (n n_names : nat) (num_episodes : Z)
    (agent : result (nat -> nat -> observation -> result nat))
    (keyboard_interrupt : exn -> bool) (fuel : nat)
    (pre post : list eval_event) (a : nat) (k : Z) :
  fst (train env difficulty now_s n n_names num_episodes agent keyboard_interrupt fuel)
    = pre ++ DistributionRow a k :: post ->
  k = times_taken a pre /\ (a < n)%nat.
Proof.
  intro H.
  destruct (env_create_fn env difficulty now_s) as [s0|e] eqn:Hcreate.
  2:{ unfold train in H. rewrite Hcreate in H. cbn in H. now destruct pre. }
  destruct agent as [agent_act|e] eqn:Hagent.
  2:{ unfold train in H. rewrite Hcreate in H. cbn in H.
      destruct pre as [|? [|? [|? ?]]]; discriminate. }
  destruct (train_trace D env difficulty now_s n n_names num_episodes (Ok agent_act)
              keyboard_interrupt fuel s0 agent_act Hcreate eq_refl)
    as (evs & st & o & handled & closed & Hloop & Hhandled & Htrain & Hclosed).
  rewrite Htrain in H. cbn [fst] in H.
  apply eval_episodes_counts in Hloop. cbn [action_counts] in Hloop.
  destruct Hloop as (_ & Hrows & _ & Hbound & _).
  rewrite repeat_length in Hbound.
  assert (Hall : rows_counted (fun _ => 0%Z)
                   ([EvalEnvCreated now_s; ActionsPrinted n_names] ++ evs ++ handled ++ closed)).
  { apply rows_counted_app;
      [apply rows_counted_none; repeat constructor; discriminate|].
    apply rows_counted_app.
    - eapply rows_counted_ext; [|exact Hrows]. intro a'. cbv beta.
      unfold times_taken. cbn. rewrite nth_repeat. reflexivity.
    - apply rows_counted_none. apply Forall_app. split.
      + destruct Hhandled as [-> | [e ->]]; repeat constructor; discriminate.
      + rewrite Hclosed. destruct o; destruct (env_close env (eval_env st));
          repeat constructor; discriminate. }
  split; [rewrite (Hall pre a k post H); lia|].
  assert (Hin : In (DistributionRow a k)
                  ([EvalEnvCreated now_s; ActionsPrinted n_names] ++ evs ++ handled ++ closed))
    by (rewrite H; apply in_elt).
  apply in_app_or in Hin. destruct Hin as [[Hin|[Hin|[]]]|Hin]; try discriminate.
  apply in_app_or in Hin. destruct Hin as [Hin|Hin].
  - rewrite Forall_forall in Hbound. exact (Hbound _ Hin a k eq_refl).
  - exfalso. apply in_app_or in Hin. destruct Hin as [Hin|Hin].
    + destruct Hhandled as [-> | [e ->]]; [contradiction|].
      destruct Hin as [Hin|[]]; discriminate.
    + rewrite Hclosed in Hin.
      destruct o; destruct (env_close env (eval_env st));
        try contradiction; destruct Hin as [Hin|[]]; discriminate.
Qed.

Lemma distribution_rows_are_cumulative_witness :
  6%Z = times_taken 2 (firstn 18 (fst (scenario_train 100 10))) /\ (2 < 3)%nat.
Proof.
  rewrite scenario_train_eq.
  apply (distribution_rows_are_cumulative nat (counting_env 100) 1%nat 1700000000 3 3 3
           (Ok always_two) no_interrupt 10
           (firstn 18 (fst (train (counting_env 100) 1%nat 1700000000 3 3 3
                              (Ok always_two) no_interrupt 10)))
           (skipn 19 (fst (train (counting_env 100) 1%nat 1700000000 3 3 3
                             (Ok always_two) no_interrupt 10)))
           2%nat 6%Z).
  vm_compute. reflexivity.
Defined.

(** X18. No exception raised inside the evaluation loop leaves [train]:
    what [train] raises was raised by the creation of the environment, by
    the construction of the agent or by the closing of the environment.
    The environment is closed exactly when [train] returns, once, as the
    last thing [train] does. *)
Theorem train_swallows_loop_faults
    (D : Type) (env : environment D float) (difficulty : D) (now_s : Z)
    (n n_names : nat) (num_episodes : Z)
    (agent : result (nat -> nat -> observation -> result nat))
    (keyboard_interrupt : exn -> bool) (fuel : nat)
    (evs : list eval_event) (o : outcome unit) :
  train env difficulty now_s n n_names num_episodes agent keyboard_interrupt fuel
    = (evs, o) ->
  (forall e, o = Raised e ->
     env_create_fn env difficulty now_s = Raise e \/ agent = Raise e \/
     exists s, env_close env s = Raise e) /\
  (o = Done tt ->
     exists evs', evs = evs' ++ [EvalEnvClosed] /\ ~ In EvalEnvClosed evs') /\
  (o <> Done tt -> ~ In EvalEnvClosed evs).
Proof.
  intro H.
  destruct (env_create_fn env difficulty now_s) as [s0|e0] eqn:Hcreate.
  2:{ unfold train in H. rewrite Hcreate in H. injection H as <- <-.
      split; [intros e He; injection He as <-; now left|].
      split; [discriminate | intros _ []]. }
  destruct agent as [agent_act|e0] eqn:Hagent.
  2:{ unfold train in H. rewrite Hcreate in H. injection H as <- <-.
      split; [intros e He; injection He as <-; right; now left|].
      split; [discriminate|]. intros _ [Hin|[Hin|[]]]; discriminate. }
  destruct (train_trace D env difficulty now_s n n_names num_episodes (Ok agent_act)
              keyboard_interrupt fuel s0 agent_act Hcreate eq_refl)
    as (evs1 & st & o1 & handled & closed & Hloop & Hhandled & Htrain & Hclosed).
  rewrite Htrain in H. injection H as <- <-.
  apply eval_episodes_counts in Hloop. destruct Hloop as (_ & _ & Hnc & _ & _).
  assert (Hpre : ~ In EvalEnvClosed
                   ([EvalEnvCreated now_s; ActionsPrinted n_names] ++ evs1 ++ handled)).
  { intro Hin. apply in_app_or in Hin. destruct Hin as [[Hin|[Hin|[]]]|Hin];
      try discriminate.
    apply in_app_or in Hin. destruct Hin as [Hin|Hin]; [tauto|].
    destruct Hhandled as [-> | [e ->]]; [contradiction|].
    destruct Hin as [Hin|[]]; discriminate. }
  split; [|split].
  - intros e He. right. right. exists (eval_env st).
    destruct o1; destruct (env_close env (eval_env st)); congruence.
  - intro Hd. exists ([EvalEnvCreated now_s; ActionsPrinted n_names] ++ evs1 ++ handled).
    split; [|exact Hpre].
    assert (Hc : closed = [EvalEnvClosed]).
    { rewrite Hclosed. destruct o1; destruct (env_close env (eval_env st));
        try discriminate; reflexivity. }
    rewrite Hc. cbn [app]. now rewrite <- ?app_assoc.
  - intros Hnd Hin.
    assert (Hc : closed = []).
    { rewrite Hclosed. destruct o1 as [[]|e|]; destruct (env_close env (eval_env st)) as [[]|e'];
        try reflexivity; now contradiction Hnd. }
    rewrite Hc, app_nil_r in Hin. exact (Hpre Hin).
Qed.

Lemma train_swallows_loop_faults_witness :
  exists evs',
    fst (scenario_train 1 10) = evs' ++ [EvalEnvClosed] /\ ~ In EvalEnvClosed evs'.
Proof.
  rewrite scenario_train_eq.
  destruct (train (counting_env 1) 1%nat 1700000000 3 3 3 (Ok always_two) no_interrupt 10)
    as [evs o] eqn:E.
  destruct (train_swallows_loop_faults nat _ _ _ _ _ _ _ _ _ evs o E) as (_ & Hd & _).
  vm_compute in E. injection E as <- <-. exact (Hd eq_refl).
Defined.

(** ** Checkpoint names *)

Lemma rfind_from_app (c : ascii) (a s : string) : forall i found,
  rfind_from c (a ++ s) i found =
  rfind_from c s (i + Z.of_nat (String.length a)) (rfind_from c a i found).
Proof.
  induction a as [|c' a IH]; intros i found; cbn [append rfind_from String.length].
  - now rewrite Z.add_0_r.
  - rewrite IH. f_equal. lia.
Qed.

Lemma rfind_from_absent (c : ascii) (s : string) : forall i found,
  Forall (fun c' => Ascii.eqb c' c = false) (list_ascii_of_string s) ->
  rfind_from c s i found = found.
Proof.
  induction s as [|c' s IH]; intros i found H; cbn [rfind_from list_ascii_of_string] in *.
  - reflexivity.
  - inversion H as [|? ? Hc Hs]; subst. rewrite Hc. now apply IH.
Qed.

Lemma slice_from_app (a : string) (c : ascii) (d : string) :
  slice_from (String.length a + 1) (a ++ String c d) = d.
Proof.
  induction a as [|c' a IH]; cbn [append String.length Nat.add slice_from].
  - reflexivity.
  - exact IH.
Qed.

(** The name after the last dash. *)
Lemma episode_idx_of_suffix (pre d : string) :
  Forall (fun c' => Ascii.eqb c' "-" = false) (list_ascii_of_string d) ->
  episode_idx_of (pre ++ String "-" d) = py_int_of_string d.
Proof.
  intro Hd. unfold episode_idx_of, rfind.
  rewrite rfind_from_app. cbn [rfind_from]. rewrite Ascii.eqb_refl.
  rewrite rfind_from_absent by exact Hd.
  replace (Z.to_nat (0 + Z.of_nat (String.length pre) + 1))
    with (String.length pre + 1)%nat by lia.
  now rewrite slice_from_app.
Qed.

(** What [int] makes of a string of digits. *)
Lemma rstrip_no_space (cs : list ascii) :
  Forall (fun c => is_space c = false) cs -> rstrip cs = cs.
Proof.
  induction 1 as [|c cs Hc _ IH]; cbn [rstrip]; [reflexivity|].
  rewrite IH, Hc. now destruct cs.
Qed.

Lemma digits_value_acc (d : Decimal.uint) : forall p : positive,
  digits_value (list_ascii_of_string (NilEmpty.string_of_uint d)) (Z.pos p) true
  = Some (Z.pos (Pos.of_uint_acc d p)).
Proof.
  induction d as [|d IH|d IH|d IH|d IH|d IH|d IH|d IH|d IH|d IH|d IH]; intro p;
    cbn [NilEmpty.string_of_uint list_ascii_of_string digits_value Pos.of_uint_acc];
    [reflexivity|..];
    match goal with
    | |- context [digit_of ?c] =>
        let v := eval vm_compute in (digit_of c) in change (digit_of c) with v
    end; cbv iota;
    match goal with
    | |- digits_value _ ?z true = Some (Z.pos (Pos.of_uint_acc _ ?q)) =>
        replace z with (Z.pos q) by lia
    end; apply IH.
Qed.

Lemma digits_value_uint (d : Decimal.uint) :
  digits_value (list_ascii_of_string (NilEmpty.string_of_uint d)) 0 true
  = Some (Z.of_N (Pos.of_uint d)).
Proof.
  induction d as [|d IH|d IH|d IH|d IH|d IH|d IH|d IH|d IH|d IH|d IH];
    cbn [NilEmpty.string_of_uint list_ascii_of_string digits_value Pos.of_uint];
    [reflexivity|..];
    match goal with
    | |- context [digit_of ?c] =>
        let v := eval vm_compute in (digit_of c) in change (digit_of c) with v
    end; cbv iota; [exact IH|..];
    match goal with
    | |- digits_value _ ?z true = _ =>
        let v := eval vm_compute in z in change z with v
    end; rewrite digits_value_acc; reflexivity.
Qed.

(** The characters of a decimal numeral. *)
Lemma uint_chars (d : Decimal.uint) :
  Forall (fun c => is_space c = false /\ Ascii.eqb c "-" = false /\
                   Ascii.eqb c "+" = false /\ digit_of c <> None)
         (list_ascii_of_string (NilEmpty.string_of_uint d)).
Proof.
  induction d as [|d IH|d IH|d IH|d IH|d IH|d IH|d IH|d IH|d IH|d IH];
    cbn [NilEmpty.string_of_uint list_ascii_of_string]; constructor; try exact IH;
    repeat split; try reflexivity; discriminate.
Qed.

Lemma py_int_of_numeral (u : Decimal.uint) :
  py_int_of_string (NilZero.string_of_uint u) = Ok (Z.of_N (Pos.of_uint u)) /\
  Forall (fun c => Ascii.eqb c "-" = false)
         (list_ascii_of_string (NilZero.string_of_uint u)).
Proof.
  assert (Hnil : forall d, d = Decimal.Nil \/
                   NilZero.string_of_uint d = NilEmpty.string_of_uint d /\
                   exists c cs, list_ascii_of_string (NilEmpty.string_of_uint d) = c :: cs)
    by (intros []; [now left|right; split; [reflexivity|cbn; eauto]..]).
  destruct (Hnil u) as [-> | (Heq & c & cs & Hcs)].
  { split; [reflexivity | repeat constructor]. }
  rewrite Heq. pose proof (uint_chars u) as Hchars.
  split.
  - unfold py_int_of_string.
    pose proof (digits_value_uint u) as Hv.
    assert (Hns : Forall (fun c => is_space c = false)
                         (list_ascii_of_string (NilEmpty.string_of_uint u)))
      by (eapply Forall_impl; [|exact Hchars]; cbv beta; tauto).
    rewrite Hcs in *.
    inversion Hchars as [|? ? (Hsp & Hminus & Hplus & Hdig) _]; subst.
    cbn [lstrip]. rewrite Hsp, (rstrip_no_space _ Hns), Hminus, Hplus.
    cbn [digits_value] in Hv |- *.
    destruct (digit_of c) as [k|]; [|now contradiction Hdig].
    now rewrite Hv.
  - eapply Forall_impl; [|exact Hchars]. cbv beta. tauto.
Qed.

Lemma string_append_assoc (a b c : string) :
  ((a ++ b) ++ c)%string = (a ++ (b ++ c))%string.
Proof. induction a as [|x a IH]; cbn [append]; [reflexivity | now rewrite IH]. Qed.

(** The shape of the path the model is saved to. *)
Lemma model_path_shape (save_model_dir : string) (steps : Z) :
  exists pre u,
    model_path save_model_dir steps = (pre ++ String "-" (NilZero.string_of_uint u))%string /\
    Z.of_N (Pos.of_uint u) = Z.abs steps.
Proof.
  unfold model_path, path_join.
  change (starts_with_slash ("agent.model-" ++ format_d steps)) with false. cbv iota.
  assert (Hname : exists pre u,
             ("agent.model-" ++ format_d steps)%string =
               (pre ++ String "-" (NilZero.string_of_uint u))%string /\
             Z.of_N (Pos.of_uint u) = Z.abs steps).
  { unfold format_d. destruct steps as [|p|p]; cbn [Z.to_int NilZero.string_of_int Z.abs].
    - exists "agent.model"%string, (Decimal.D0 Decimal.Nil). split; reflexivity.
    - exists "agent.model"%string, (Pos.to_uint p). split; [reflexivity|].
      now rewrite DecimalPos.Unsigned.of_to.
    - exists "agent.model-"%string, (Pos.to_uint p). split; [reflexivity|].
      now rewrite DecimalPos.Unsigned.of_to. }
  destruct Hname as (pre & u & Hname & Hu). rewrite Hname.
  destruct (_ || _)%bool.
  - exists (save_model_dir ++ pre)%string, u. split; [|exact Hu].
    now rewrite string_append_assoc.
  - exists (save_model_dir ++ "/" ++ pre)%string, u. split; [|exact Hu].
    now rewrite !string_append_assoc.
Qed.

(** X19. The constructor recovers, from the path [learn] saved a model to
    after step [steps], the number [|steps|] (the step count itself, steps
    being counted from 1), whatever the directory is.  A path that ends
    with a dash is refused with [ValueError]. *)
Theorem checkpoint_name_round_trip (save_model_dir path : string) (steps : Z) :
  episode_idx_of (model_path save_model_dir steps) = Ok (Z.abs steps) /\
  episode_idx_of (path ++ "-") = Raise ValueError.
Proof.
  split.
  - destruct (model_path_shape save_model_dir steps) as (pre & u & -> & <-).
    destruct (py_int_of_numeral u) as [Hint Hdash].
    now rewrite episode_idx_of_suffix.
  - now rewrite (episode_idx_of_suffix path "") by constructor.
Qed.

(** ** The environments a worker holds *)

Lemma env_open_after_app {D R} (e1 e2 : list (event D R)) : forall open,
  env_open_after open (e1 ++ e2) =
  match env_open_after open e1 with
  | Some open' => env_open_after open' e2
  | None => None
  end.
Proof.
  induction e1 as [|ev e1 IH]; intro open; cbn [app env_open_after]; [reflexivity|].
  destruct ev; try apply IH; destruct open; try reflexivity; apply IH.
Qed.

Section WorkerEnvironments.

Variable D : Type.
Variable R : Type.
Context {arith : Arith R}.
Variable env : environment D R.
Variable q_network : network.
Variable difficulties : list D.
Variable discount : R.
Variable space : action_space.
Variable use_curriculum : bool.
Variable w : world.
Variable pid : Z.

Lemma puts_keep_environment (trs : list (step_record R)) (open : bool) :
  env_open_after open (fst (label_returns D discount trs)) = Some open.
Proof.
  rewrite label_returns_labelled. cbn [fst].
  assert (H : Forall (fun ev => exists o a G, ev = TransitionPut D o a G)
                     (rev (labelled D discount trs))).
  { apply Forall_rev. induction trs as [|tr trs IH]; cbn [labelled]; constructor; eauto. }
  induction H as [|ev l (o & a & G & ->) _ IH]; cbn [env_open_after]; auto.
Qed.

(** One episode, however it ends: it opens an environment at most once,
    with none open before, and has closed it when it completes. *)
Lemma episode_environment (fuel k : nat) :
  exists open,
    env_open_after false
      (fst (run_episode env q_network difficulties discount space use_curriculum w pid
              fuel k)) = Some open /\
    (snd (run_episode env q_network difficulties discount space use_curriculum w pid
            fuel k) = Done tt -> open = false).
Proof.
  unfold run_episode. cbn [emit wbind].
  destruct (if use_curriculum then _ else _) as [d|e]; cbn [call wbind app].
  2:{ exists false. split; [reflexivity | discriminate]. }
  destruct (env_create_fn env d _) as [s0|e]; cbn [call wbind emit app].
  2:{ exists false. split; [reflexivity | discriminate]. }
  destruct (env_reset env s0) as [[s1 obs]|e]; cbn [call wbind app].
  2:{ exists true. split; [reflexivity | discriminate]. }
  pose proof (run_steps_silent D R env q_network space w fuel k 0 s1 obs []) as Hsil.
  destruct (run_steps _ _ _ _ _ _ _ _ _ _) as [evs [[s2 trs]|e|]]; cbn [fst] in Hsil;
    subst evs; cbn [wbind app].
  2:{ exists true. split; [reflexivity | discriminate]. }
  2:{ exists true. split; [reflexivity | discriminate]. }
  pose proof (puts_keep_environment trs true) as Hputs.
  destruct (label_returns D discount trs) as [puts G]. cbn [fst] in Hputs.
  cbn [wbind emit app].
  destruct (env_close env s2) as [[]|e]; cbn [call wbind emit app].
  - exists false. split; [|reflexivity].
    cbn [fst env_open_after]. rewrite env_open_after_app, Hputs. reflexivity.
  - exists true. split; [|discriminate].
    cbn [fst env_open_after]. rewrite env_open_after_app, Hputs. reflexivity.
Qed.

End WorkerEnvironments.

(** X20. An actor worker holds one environment at a time: in every run,
    however it ends, an environment is created only when none is open and
    closed only when one is, and when the rounds of the run complete no
    environment is left open. *)
Theorem worker_holds_one_environment
    (D R : Type) (arith : Arith R) (env : environment D R) (q_network : network)
    (difficulties : list D) (discount : R) (space : action_space)
    (use_curriculum : bool) (w : world) (pid : Z) (fuel n : nat) :
  exists open,
    env_open_after false
      (fst (actor_worker env q_network difficulties discount space use_curriculum w pid
              fuel n)) = Some open /\
    (snd (actor_worker env q_network difficulties discount space use_curriculum w pid
            fuel n) = Done tt -> open = false).
Proof.
  unfold actor_worker. generalize 0%nat as k. 
  induction n as [|n IH]; intro k; cbn [actor_worker_from].
  - exists false. split; reflexivity.
  - destruct (episode_environment D R env q_network difficulties discount space
                use_curriculum w pid fuel k) as (open1 & H1 & Hd1).
    destruct (run_episode _ _ _ _ _ _ _ _ fuel k) as [evs1 [[]|e|]]; cbn [fst snd] in *;
      cbn [wbind].
    + rewrite (Hd1 eq_refl) in H1.
      destruct (IH (S k)) as (open2 & H2 & Hd2).
      destruct (actor_worker_from _ _ _ _ _ _ _ _ fuel (S k) n) as [evs2 o2];
        cbn [fst snd] in *.
      exists open2. split; [|exact Hd2].
      now rewrite env_open_after_app, H1.
    + exists open1. split; [exact H1 | discriminate].
    + exists open1. split; [exact H1 | discriminate].
Qed.

